(** * Mock-Interview backend: resume extractor, answer scoring, question generator

    A shallow embedding of the deterministic core of the backend
    ([backend/src/utils/pdfParser.ts], [backend/src/routes/performance.ts],
    [backend/src/routes/questions.ts]) and of the earlier, simpler
    [extractExperience] that the repository also carries.

    JavaScript strings are sequences of UTF-16 code units; they are modelled
    as [list N].  Regular-expression literals become values of a small
    regex syntax interpreted by a backtracking matcher that follows the
    ECMAScript priorities (leftmost start, greedy quantifiers, alternatives
    left to right).  JavaScript numbers are IEEE 754 binary64 values: a
    finite one is modelled by the rational ([Q]) it denotes, and the three
    divisions of the scoring code, whose quotients need not be doubles,
    are rounded to the nearest double, ties to the even significand
    ([double]).  The one value that a division by a possibly zero count
    produces has a type of its own with [NaN] and the infinities. *)

From Stdlib Require Import String Ascii Bool NArith ZArith QArith Qround Qminmax
  Qpower Qabs DecimalString DecimalNat List Lia Lqa.
From Stdlib Require SpecFloat.
Import ListNotations.
Open Scope string_scope.
Open Scope N_scope.
Open Scope list_scope.

(* ================================================================= *)
(** ** JavaScript strings *)

Module JS.

Definition str := list N.

(** ASCII literal of the source as a sequence of code units. *)
Definition lit (s : string) : str :=
  List.map N_of_ascii (list_ascii_of_string s).

Fixpoint eqb (a b : str) : bool :=
  match a, b with
  | [], [] => true
  | x :: a', y :: b' => N.eqb x y && eqb a' b'
  | _, _ => false
  end.

Definition mem (x : str) (l : list str) : bool := existsb (eqb x) l.

(** [Array.prototype.includes] / [Set.prototype.has] on strings. *)
Definition arr_includes (l : list str) (x : str) : bool := mem x l.

(** [[...new Set(l)]]: first occurrences, in insertion order. *)
Fixpoint set_add_all (seen : list str) (l : list str) : list str :=
  match l with
  | [] => []
  | x :: l' => if mem x seen then set_add_all seen l'
               else x :: set_add_all (x :: seen) l'
  end.

Definition new_Set (l : list str) : list str := set_add_all [] l.

(** *** Character classes *)

Definition in_range (lo hi c : N) : bool := (lo <=? c) && (c <=? hi).

Definition is_digit (c : N) : bool := in_range 48 57 c.
Definition is_upper (c : N) : bool := in_range 65 90 c.
Definition is_lower (c : N) : bool := in_range 97 122 c.
Definition is_alpha (c : N) : bool := is_upper c || is_lower c.
(** [\w] *)
Definition is_word (c : N) : bool := is_alpha c || is_digit c || (c =? 95).

(** LineTerminator: LF, CR, LS, PS. *)
Definition is_line_terminator (c : N) : bool :=
  (c =? 10) || (c =? 13) || (c =? 8232) || (c =? 8233).

(** WhiteSpace and LineTerminator code units: what [\s] matches and what
    [String.prototype.trim] strips. *)
Definition is_space (c : N) : bool :=
  in_range 9 13 c || (c =? 32) || (c =? 160) || (c =? 5760)
  || in_range 8192 8202 c || (c =? 8232) || (c =? 8233) || (c =? 8239)
  || (c =? 8287) || (c =? 12288) || (c =? 65279).

(** *** Case mapping.  [toLowerCase] is modelled on the ASCII letters;
    other code units are left as they are.  [String.prototype.toLowerCase]
    follows the Unicode case mapping, which also lowers letters outside
    ASCII (U+212A KELVIN SIGN becomes k, U+0130 becomes i followed by
    U+0307); the model does not.  The two agree on the strings of plain
    code units ([is_plain]): the ASCII ones, where only A-Z change, the
    Latin-1 signs U+00A0 to U+00BF (the middle dot of the source's
    separators among them) and the General Punctuation block U+2000 to
    U+206F (the bullet of the source's patterns, the dashes, the
    quotation marks), none of which has a case mapping.  A property whose
    statement depends on the lowercase form of a text is stated for plain
    texts. *)
Definition lower_unit (c : N) : N := if is_upper c then c + 32 else c.
Definition toLowerCase (s : str) : str := List.map lower_unit s.

Definition plain_unit (c : N) : bool :=
  (c <? 128) || in_range 160 191 c || in_range 8192 8303 c.
Definition is_plain (s : str) : bool := forallb plain_unit s.
Definition all_plain (l : list str) : bool := forallb is_plain l.

(** *** Searching and slicing *)

Fixpoint startsWith (s p : str) : bool :=
  match p, s with
  | [], _ => true
  | x :: p', y :: s' => N.eqb x y && startsWith s' p'
  | _ :: _, [] => false
  end.

Fixpoint includes (s p : str) : bool :=
  startsWith s p ||
  match s with
  | [] => false
  | _ :: s' => includes s' p
  end.

Fixpoint dropWhile (p : N -> bool) (s : str) : str :=
  match s with
  | [] => []
  | c :: s' => if p c then dropWhile p s' else s
  end.

Definition trimStart (s : str) : str := dropWhile is_space s.
Definition trimEnd (s : str) : str := rev (dropWhile is_space (rev s)).
Definition trim (s : str) : str := trimEnd (trimStart s).

(** [s.split(c)] for a one-unit separator [c]. *)
Fixpoint split_unit (c : N) (s : str) : list str :=
  match s with
  | [] => [[]]
  | x :: s' =>
      if N.eqb x c then [] :: split_unit c s'
      else match split_unit c s' with
           | [] => [[x]]
           | w :: ws => (x :: w) :: ws
           end
  end.

Fixpoint join (sep : str) (l : list str) : str :=
  match l with
  | [] => []
  | [x] => x
  | x :: l' => x ++ sep ++ join sep l'
  end.

(** Truthiness of a string value: the empty string is falsy. *)
Definition truthy (s : str) : bool := negb (Nat.eqb (List.length s) 0).

(** Truthiness of an optional property ([undefined] is falsy). *)
Definition truthy_opt (o : option str) : bool :=
  match o with Some s => truthy s | None => false end.

(** [o || d] on an optional string property. *)
Definition or_else (o : option str) (d : str) : str :=
  match o with
  | Some s => if truthy s then s else d
  | None => d
  end.

(** Template-literal rendering of an optional property. *)
Definition show_opt (o : option str) : str :=
  match o with Some s => s | None => lit "undefined" end.

End JS.

(* ================================================================= *)
(** ** Regular expressions *)

Module Regex.
Import JS.

Inductive regex : Type :=
| Eps : regex
| Cls : (N -> bool) -> regex
| Seq : regex -> regex -> regex
| Alt : regex -> regex -> regex
| Star : regex -> regex
| Bos : regex
| Eos : regex.

(** Greedy iteration of [step]; an iteration that consumes nothing is
    rejected, as in ECMAScript's RepeatMatcher. *)
Fixpoint star_loop (step : str -> (str -> option str) -> option str)
         (fuel : nat) (s : str) (k : str -> option str) : option str :=
  match fuel with
  | O => k s
  | S f =>
      match step s (fun s1 =>
                      if Nat.ltb (List.length s1) (List.length s)
                      then star_loop step f s1 k else None) with
      | Some r => Some r
      | None => k s
      end
  end.

(** [run n r s k]: match [r] at the front of the suffix [s] of an input of
    length [n], then continue with [k] on what is left; the first success
    in backtracking order is returned. *)
Fixpoint run (n : nat) (r : regex) (s : str) (k : str -> option str)
  : option str :=
  match r with
  | Eps => k s
  | Cls p => match s with
             | c :: s' => if p c then k s' else None
             | [] => None
             end
  | Seq a b => run n a s (fun s1 => run n b s1 k)
  | Alt a b => match run n a s k with
               | Some x => Some x
               | None => run n b s k
               end
  | Star a => star_loop (run n a) (S (List.length s)) s k
  | Bos => if Nat.eqb (List.length s) n then k s else None
  | Eos => match s with [] => k s | _ => None end
  end.

(** Derived forms. *)
Definition Plus (r : regex) : regex := Seq r (Star r).
Definition Opt (r : regex) : regex := Alt r Eps.
Fixpoint Rep (k : nat) (r : regex) : regex :=
  match k with O => Eps | S k' => Seq r (Rep k' r) end.
Definition AtLeast (k : nat) (r : regex) : regex := Seq (Rep k r) (Star r).
(** {lo,hi} greedy, for hi >= lo *)
Fixpoint UpTo (k : nat) (r : regex) : regex :=
  match k with O => Eps | S k' => Opt (Seq r (UpTo k' r)) end.
Definition Between (lo hi : nat) (r : regex) : regex :=
  Seq (Rep lo r) (UpTo (hi - lo) r).
Definition Chr (c : N) : regex := Cls (N.eqb c).
Definition Lit (s : str) : regex := fold_right (fun c r => Seq (Chr c) r) Eps s.
(** literal under the [i] flag (ASCII pattern) *)
Definition LitI (s : str) : regex :=
  fold_right (fun c r => Seq (Cls (fun x => N.eqb (lower_unit x) (lower_unit c))) r) Eps s.
Definition Alts (l : list regex) : regex :=
  match l with
  | [] => Eps
  | r :: l' => fold_left Alt l' r
  end.

(** Match at the front of [s], which is a suffix of an input of length [n]:
    the rest after the match. *)
Definition exec_at (n : nat) (r : regex) (s : str) : option str :=
  run n r s (fun rest => Some rest).

Definition take_matched (s rest : str) : str :=
  firstn (List.length s - List.length rest) s.

(** Leftmost match: (text before, matched text, text after). *)
Fixpoint search_from (n : nat) (r : regex) (pre_rev : str) (s : str)
  : option (str * str * str) :=
  match exec_at n r s with
  | Some rest => Some (rev pre_rev, take_matched s rest, rest)
  | None => match s with
            | [] => None
            | c :: s' => search_from n r (c :: pre_rev) s'
            end
  end.

Definition search (r : regex) (s : str) : option (str * str * str) :=
  search_from (List.length s) r [] s.

(** [r.test(s)] *)
Definition test (r : regex) (s : str) : bool :=
  match search r s with Some _ => true | None => false end.

(** [s.match(r)] without the [g] flag: element 0 of the result. *)
Definition match0 (r : regex) (s : str) : option str :=
  match search r s with Some (_, m, _) => Some m | None => None end.

(** All matches, left to right ([s.match(/r/g)]); after an empty match the
    scan advances by one unit. *)
Fixpoint match_all_from (fuel n : nat) (r : regex) (s : str) : list str :=
  match fuel with
  | O => []
  | S f =>
      match search_from n r [] s with
      | None => []
      | Some (_, m, rest) =>
          m :: match m, rest with
               | [], [] => []
               | [], _ :: rest' => match_all_from f n r rest'
               | _ :: _, _ => match_all_from f n r rest
               end
      end
  end.

Definition match_all (r : regex) (s : str) : list str :=
  match_all_from (S (List.length s)) (List.length s) r s.

(** [s.split(r)] for a regex without capture groups.  [cur_rev] is the
    piece being collected since the last split point [p]; a match that
    ends at [p] (an empty match right at the split point) does not split. *)
Fixpoint split_from (fuel n : nat) (r : regex) (cur_rev : str) (s : str)
  : list str :=
  match fuel with
  | O => [rev cur_rev ++ s]
  | S f =>
      match s with
      | [] => [rev cur_rev]
      | c :: s' =>
          match exec_at n r s with
          | Some rest =>
              if Nat.eqb (List.length rest) (List.length s)
                 && Nat.eqb (List.length cur_rev) 0
              then split_from f n r (c :: cur_rev) s'
              else rev cur_rev :: split_from f n r [] rest
          | None => split_from f n r (c :: cur_rev) s'
          end
      end
  end.

Definition split (r : regex) (s : str) : list str :=
  match s with
  | [] => match exec_at 0 r [] with Some _ => [] | None => [[]] end
  | _ => split_from (S (2 * List.length s)) (List.length s) r [] s
  end.

(** [s.replace(/r/g, by)] *)
Fixpoint replace_all_from (fuel n : nat) (r : regex) (by_ : str) (s : str)
  : str :=
  match fuel with
  | O => s
  | S f =>
      match exec_at n r s with
      | Some rest =>
          if Nat.ltb (List.length rest) (List.length s)
          then by_ ++ replace_all_from f n r by_ rest
          else match s with
               | [] => by_
               | c :: s' => by_ ++ c :: replace_all_from f n r by_ s'
               end
      | None => match s with
                | [] => []
                | c :: s' => c :: replace_all_from f n r by_ s'
                end
      end
  end.

Definition replace_all (r : regex) (by_ : str) (s : str) : str :=
  replace_all_from (S (List.length s)) (List.length s) r by_ s.

(** [s.replace(/r/, by)]: the first match only. *)
Definition replace_first (r : regex) (by_ : str) (s : str) : str :=
  match search r s with
  | Some (pre, _, post) => pre ++ by_ ++ post
  | None => s
  end.

(** *** What a match is, declaratively

    [matches n r s rest]: in an input of length [n], the regex [r] matches
    at the front of the suffix [s] and leaves [rest]. *)
Inductive matches (n : nat) : regex -> str -> str -> Prop :=
| M_Eps : forall s, matches n Eps s s
| M_Cls : forall p c s, p c = true -> matches n (Cls p) (c :: s) s
| M_Seq : forall a b s s1 s2,
    matches n a s s1 -> matches n b s1 s2 -> matches n (Seq a b) s s2
| M_AltL : forall a b s s1, matches n a s s1 -> matches n (Alt a b) s s1
| M_AltR : forall a b s s1, matches n b s s1 -> matches n (Alt a b) s s1
| M_StarEnd : forall a s, matches n (Star a) s s
| M_StarStep : forall a s s1 s2,
    matches n a s s1 -> matches n (Star a) s1 s2 -> matches n (Star a) s s2
| M_Bos : forall s, List.length s = n -> matches n Bos s s
| M_Eos : matches n Eos [] [].

End Regex.

(* ================================================================= *)
(** ** backend/src/utils/pdfParser.ts *)

Module PdfParser.
Import JS Regex.

Record PersonalInfo := mkPersonalInfo {
  name : option str;
  email : option str;
  phone : option str;
  location : option str
}.

Record Job := mkJob {
  title : option str;
  company : option str;
  duration : option str;
  description : option str
}.

Record Project := mkProject {
  proj_name : option str;
  proj_description : option str;
  proj_technologies : option (list str)
}.

Record Education := mkEducation {
  degree : option str;
  institution : option str;
  year : option str
}.

Record ParsedResume := mkParsedResume {
  personalInfo : PersonalInfo;
  skills : list str;
  experience : list Job;
  projects : list Project;
  education : list Education;
  certifications : list str;
  languages : list str
}.

(** Code units of the non-ASCII characters of the source. *)
Definition bullet : N := 8226.      (* U+2022 *)
Definition middot : N := 183.       (* U+00B7 *)

Definition is_some {A} (o : option A) : bool :=
  match o with Some _ => true | None => false end.

(** some keyword of [kws] occurs in [line] *)
Definition some_in (kws : list string) (line : str) : bool :=
  existsb (fun k => includes line (lit k)) kws.

Definition first_some {A B} (f : A -> option B) : list A -> option B :=
  fix go l := match l with
              | [] => None
              | x :: l' => match f x with Some y => Some y | None => go l' end
              end.

(** *** extractPersonalInfo *)

(** /[\w\.-]+@[\w\.-]+\.\w+/ *)
Definition email_cls (c : N) : bool := is_word c || (c =? 46) || (c =? 45).
Definition emailPattern : regex :=
  Seq (Plus (Cls email_cls))
      (Seq (Chr 64) (Seq (Plus (Cls email_cls)) (Seq (Chr 46) (Plus (Cls is_word))))).

(** /[\+]?[\d\s\-\(\)]{10,}/ *)
Definition phone_cls (c : N) : bool :=
  is_digit c || is_space c || (c =? 45) || (c =? 40) || (c =? 41).
Definition phonePattern : regex :=
  Seq (Opt (Chr 43)) (AtLeast 10 (Cls phone_cls)).

(** [s.replace(/\D/g, '')] *)
Definition digits_of (s : str) : str := replace_all (Cls (fun c => negb (is_digit c))) [] s.

Definition extractPersonalInfo (lines : list str) : PersonalInfo :=
  let email := first_some (match0 emailPattern) lines in
  let phone :=
    first_some (fun line =>
                  match match0 phonePattern line with
                  | Some m => if Nat.leb 10 (List.length (digits_of m))
                              then Some m else None
                  | None => None
                  end) lines in
  let name :=
    first_some (fun line =>
                  if Nat.ltb 2 (List.length line)
                     && negb (test emailPattern line)
                     && negb (test phonePattern line)
                     && negb (includes (toLowerCase line) (lit "resume"))
                     && negb (includes (toLowerCase line) (lit "cv"))
                     && Nat.leb (List.length (split_unit 32 line)) 4
                  then Some line else None) lines in
  {| name := name; email := email; phone := phone; location := None |}.

(** *** extractSkills *)

Definition skillKeywords : list string :=
  ["skills"; "technical skills"; "technologies"; "expertise"; "competencies"].

Definition techSkills : list str := List.map lit
  ["javascript"; "typescript"; "python"; "java"; "c++"; "c#"; "php"; "ruby"; "go"; "rust";
   "react"; "angular"; "vue"; "node.js"; "express"; "django"; "flask"; "spring"; "laravel";
   "html"; "css"; "sass"; "scss"; "tailwind"; "bootstrap";
   "mysql"; "postgresql"; "mongodb"; "redis"; "elasticsearch";
   "aws"; "azure"; "google cloud"; "docker"; "kubernetes"; "jenkins";
   "git"; "github"; "gitlab"; "svn";
   "tensorflow"; "pytorch"; "scikit-learn"; "pandas"; "numpy";
   "figma"; "sketch"; "photoshop"; "illustrator"; "mern"; "postgresql"; "redux"; "axios"].

(** /[,•·\-\|\n\t]+/ *)
Definition sep_cls (c : N) : bool :=
  (c =? 44) || (c =? bullet) || (c =? middot) || (c =? 45) || (c =? 124)
  || (c =? 10) || (c =? 9).

Definition nonempty (s : str) : bool := Nat.ltb 0 (List.length s).

Definition extractSkillsFromLine (line : str) (techSkills : list str) : list str :=
  let words := filter nonempty (List.map trim (split (Plus (Cls sep_cls)) line)) in
  filter (fun word => arr_includes techSkills (toLowerCase word)) words.

Definition leaves_skills (line : str) : bool :=
  includes line (lit "experience") || includes line (lit "education")
  || includes line (lit "projects") || includes line (lit "work history")
  || includes line (lit "employment").

(** The section loop; the state is (inSkillsSection, skillsSectionEnd, skills). *)
Fixpoint skills_loop (inSec ended : bool) (skills : list str) (lines : list str)
  : list str :=
  match lines with
  | [] => skills
  | raw :: rest =>
      let line := toLowerCase raw in
      if some_in skillKeywords line then skills_loop true ended skills rest
      else
        let ended := ended || (inSec && leaves_skills line) in
        if inSec && negb ended
        then skills_loop inSec ended (skills ++ extractSkillsFromLine raw techSkills) rest
        else skills_loop inSec ended skills rest
  end.

(** The whole-text scan over the vocabulary. *)
Definition scan_text (lowerText : str) (skills : list str) : list str :=
  fold_left (fun skills skill =>
               if includes lowerText skill
                  && negb (existsb (fun s => eqb (toLowerCase s) skill) skills)
               then skills ++ [skill] else skills)
            techSkills skills.

(** /[•\-*]\s*[^•\n]*/g *)
Definition bullet_start (c : N) : bool := (c =? bullet) || (c =? 45) || (c =? 42).
Definition bulletPattern : regex :=
  Seq (Cls bullet_start)
      (Seq (Star (Cls is_space))
           (Star (Cls (fun c => negb ((c =? bullet) || (c =? 10)))))).

Definition extractSkills (text : str) (lines : list str) : list str :=
  let skills := skills_loop false false [] lines in
  let skills := scan_text (toLowerCase text) skills in
  let bulletPoints := match_all bulletPattern text in
  let skills := fold_left (fun skills b => skills ++ extractSkillsFromLine b techSkills)
                          bulletPoints skills in
  new_Set skills.

(** Vocabulary for the properties of [extractSkills]. *)
Definition in_vocabulary (s : str) : Prop := In (toLowerCase s) techSkills.

Definition has_ignoring_case (w : str) (skills : list str) : Prop :=
  exists s, In s skills /\ toLowerCase s = w.

(** *** isCompanyName, isJobTitle *)

(** /\d{4}/ *)
Definition fourDigits : regex := Rep 4 (Cls is_digit).

(** /^[A-Z][a-z]+(\s+[A-Z][a-z]+)*$/ *)
Definition titleCasePattern : regex :=
  let word := Seq (Cls is_upper) (Plus (Cls is_lower)) in
  Seq Bos (Seq word (Seq (Star (Seq (Plus (Cls is_space)) word)) Eos)).

(** /^[A-Z\s]+$/ *)
Definition allCapsPattern : regex :=
  Seq Bos (Seq (Plus (Cls (fun c => is_upper c || is_space c))) Eos).

(** /corp|inc|ltd|pvt|company|technologies|solutions|systems/i *)
Definition companyKeywordPattern : regex :=
  Alts (List.map (fun k => LitI (lit k))
    ["corp"; "inc"; "ltd"; "pvt"; "company"; "technologies"; "solutions"; "systems"]).

(** /developer|engineer|analyst|manager|lead|architect|consultant|specialist|designer|programmer/i *)
Definition jobKeywordPattern : regex :=
  Alts (List.map (fun k => LitI (lit k))
    ["developer"; "engineer"; "analyst"; "manager"; "lead"; "architect";
     "consultant"; "specialist"; "designer"; "programmer"]).

Definition starts_with_bullet (line : str) : bool :=
  startsWith line [bullet] || startsWith line (lit "-") || startsWith line (lit "*").

Definition isCompanyName (line : str) (nextLine : option str) : bool :=
  if negb (truthy line) || Nat.ltb (List.length line) 3 then false else
  let hasLocation :=
    match nextLine with
    | Some nl => truthy nl && (includes nl (lit ",") || includes nl (lit "India")
                               || includes nl (lit "Mumbai"))
    | None => false
    end in
  let isTitleCase := test titleCasePattern line in
  let isAllCaps := test allCapsPattern line in
  let hasCompanyKeywords := test companyKeywordPattern line in
  let isReasonableLength :=
    Nat.ltb 5 (List.length line) && Nat.ltb (List.length line) 100 in
  let isNotJobTitle := negb (test jobKeywordPattern line) in
  let isNotBulletPoint := negb (starts_with_bullet line) in
  (isTitleCase || isAllCaps || hasCompanyKeywords) && isReasonableLength
  && isNotJobTitle && isNotBulletPoint
  && (hasLocation || Nat.ltb 10 (List.length line)).

(** [line.split(/\d{4}/)[0].trim()] cleaned by
    [.replace(/\s+/g, ' ').replace(/[^A-Za-z\s]/g, '').trim()] *)
Definition cleanJobTitle (line : str) : str :=
  let jobTitlePart := trim (hd [] (split fourDigits line)) in
  trim (replace_all (Cls (fun c => negb (is_alpha c || is_space c))) []
          (replace_all (Plus (Cls is_space)) (lit " ") jobTitlePart)).

Definition isJobTitle (line : str) (nextLine : option str) : bool :=
  if negb (truthy line) || Nat.ltb (List.length line) 5 then false else
  let hasDates :=
    match nextLine with
    | Some nl => truthy nl && test fourDigits nl
    | None => false
    end in
  let hasDatesInLine := test fourDigits line in
  let isShortPhrase :=
    Nat.ltb (List.length line) 50 && Nat.leb (List.length (split_unit 32 line)) 5 in
  let containsJobKeywords := test jobKeywordPattern line in
  let isNotLocation :=
    negb (includes line (lit "India")) && negb (includes line (lit "Mumbai"))
    && negb (includes line (lit "New York")) && negb (includes line (lit "California")) in
  let isNotCompany := negb (isCompanyName line nextLine) in
  let isNotBulletPoint := negb (starts_with_bullet line) in
  let startsWithJobTitle :=
    test titleCasePattern (cleanJobTitle line) && containsJobKeywords in
  (hasDates || hasDatesInLine || isShortPhrase || startsWithJobTitle)
  && containsJobKeywords && isNotLocation && isNotCompany && isNotBulletPoint.

(** *** extractExperience

    [experience.push(currentJob)] stores a reference, and the job-title
    branch goes on assigning to the same object after it was pushed; the
    loop is therefore modelled over a store of job objects, with
    [currentJob] and the entries of [experience] as references into it. *)

Definition experienceKeywords : list string :=
  ["experience"; "work history"; "employment"; "professional experience"].

Definition emptyJob : Job :=
  {| title := None; company := None; duration := None; description := None |}.

(** [Object.keys(job).length > 0] *)
Definition job_has_keys (j : Job) : bool :=
  is_some (title j) || is_some (company j) || is_some (duration j)
  || is_some (description j).

Record ExpState := mkExpState {
  heap : list Job;               (* the job objects allocated so far *)
  currentJob : nat;              (* reference to the current object *)
  jobDescription : list str;
  processedJobs : list str;
  experience_refs : list nat     (* the array under construction *)
}.

Fixpoint set_nth {A} (i : nat) (x : A) (l : list A) : list A :=
  match l, i with
  | [], _ => []
  | _ :: l', O => x :: l'
  | y :: l', S i' => y :: set_nth i' x l'
  end.

Definition cur (st : ExpState) : Job := nth (currentJob st) (heap st) emptyJob.

Definition assign (f : Job -> Job) (st : ExpState) : ExpState :=
  {| heap := set_nth (currentJob st) (f (cur st)) (heap st);
     currentJob := currentJob st;
     jobDescription := jobDescription st;
     processedJobs := processedJobs st;
     experience_refs := experience_refs st |}.

(** [currentJob = { ... }]: a fresh object *)
Definition fresh (j : Job) (st : ExpState) : ExpState :=
  {| heap := heap st ++ [j];
     currentJob := List.length (heap st);
     jobDescription := jobDescription st;
     processedJobs := processedJobs st;
     experience_refs := experience_refs st |}.

Definition set_jobDescription (d : list str) (st : ExpState) : ExpState :=
  {| heap := heap st; currentJob := currentJob st; jobDescription := d;
     processedJobs := processedJobs st; experience_refs := experience_refs st |}.

Definition jobKey (j : Job) : str :=
  show_opt (title j) ++ lit "-" ++ show_opt (company j).

(** The block
    [currentJob.description = jobDescription.join(' ');
     if (!processedJobs.has(jobKey)) { experience.push(currentJob); processedJobs.add(jobKey) }] *)
Definition flush (st : ExpState) : ExpState :=
  let st := assign (fun j => {| title := title j; company := company j;
                                duration := duration j;
                                description := Some (join (lit " ") (jobDescription st)) |})
                   st in
  let key := jobKey (cur st) in
  if mem key (processedJobs st) then st
  else {| heap := heap st; currentJob := currentJob st;
          jobDescription := jobDescription st;
          processedJobs := processedJobs st ++ [key];
          experience_refs := experience_refs st ++ [currentJob st] |}.

(** /^[•\-*]\s*/ *)
Definition bulletPrefix : regex := Seq Bos (Seq (Cls bullet_start) (Star (Cls is_space))).
Definition strip_bullet (line : str) : str := replace_first bulletPrefix [] line.

(** /\d{4}.*\d{4}|\d{4}.*Present/ *)
Definition durationPattern : regex :=
  let any := Star (Cls (fun c => negb (is_line_terminator c))) in
  Alt (Seq fourDigits (Seq any fourDigits))
      (Seq fourDigits (Seq any (Lit (lit "Present")))).

Definition set_title (t : str) (j : Job) : Job :=
  {| title := Some t; company := company j; duration := duration j;
     description := description j |}.
Definition set_duration (d : str) (j : Job) : Job :=
  {| title := title j; company := company j; duration := Some d;
     description := description j |}.

Definition nth_str (i : nat) (l : list str) : str := nth i l [].

Fixpoint experience_loop (inSec : bool) (st : ExpState) (lines : list str)
  : ExpState :=
  match lines with
  | [] => st
  | raw :: rest =>
      let nextLine := match rest with [] => None | nl :: _ => Some nl end in
      let line := trim raw in
      let lowerLine := toLowerCase line in
      if some_in experienceKeywords lowerLine then experience_loop true st rest
      else if negb inSec then experience_loop inSec st rest
      else if includes lowerLine (lit "education") || includes lowerLine (lit "projects")
              || includes lowerLine (lit "skills")
      then (* break *)
        if job_has_keys (cur st) then flush st else st
      else if isCompanyName line nextLine then
        let st := if job_has_keys (cur st) then flush st else st in
        let companyName := trim (hd [] (split_unit 44 (hd [] (split_unit 9 line)))) in
        let st := fresh {| title := None; company := Some companyName;
                           duration := None; description := None |} st in
        experience_loop inSec (set_jobDescription [] st) rest
      else if isJobTitle line nextLine then
        let st := if truthy_opt (title (cur st)) && truthy_opt (company (cur st))
                  then set_jobDescription [] (flush st) else st in
        let parts := split_unit 9 line in
        let st :=
          if Nat.leb 2 (List.length parts)
          then assign (set_duration (trim (nth_str 1 parts)))
                      (assign (set_title (trim (nth_str 0 parts))) st)
          else
            let st := assign (set_title (cleanJobTitle line)) st in
            match match0 durationPattern line with
            | Some m => assign (set_duration (trim m)) st
            | None => st
            end in
        experience_loop inSec st rest
      else if starts_with_bullet line then
        experience_loop inSec
          (set_jobDescription (jobDescription st ++ [strip_bullet line]) st) rest
      else if Nat.ltb 20 (List.length line) && truthy_opt (company (cur st))
              && negb (isCompanyName line nextLine) && negb (isJobTitle line nextLine)
      then experience_loop inSec
             (set_jobDescription (jobDescription st ++ [line]) st) rest
      else experience_loop inSec st rest
  end.

Definition extractExperience (lines : list str) : list Job :=
  let st0 := {| heap := [emptyJob]; currentJob := 0%nat; jobDescription := [];
                processedJobs := []; experience_refs := [] |} in
  let st := experience_loop false st0 lines in
  let st :=
    if job_has_keys (cur st) then
      let st := assign (fun j => {| title := title j; company := company j;
                                    duration := duration j;
                                    description := Some (join (lit " ") (jobDescription st)) |})
                       st in
      if mem (jobKey (cur st)) (processedJobs st) then st
      else {| heap := heap st; currentJob := currentJob st;
              jobDescription := jobDescription st;
              processedJobs := processedJobs st;
              experience_refs := experience_refs st ++ [currentJob st] |}
    else st in
  List.map (fun r => nth r (heap st) emptyJob) (experience_refs st).

(** What the loop of [extractExperience] keeps.  A pushed job has a title
    or a company, and a description; the job at hand has a title or a
    company as soon as it has any key; references point into the store. *)
Definition job_ok (j : Job) : Prop :=
  (is_some (title j) = true \/ is_some (company j) = true)
  /\ is_some (description j) = true.

Definition current_ok (j : Job) : Prop :=
  job_has_keys j = true -> is_some (title j) = true \/ is_some (company j) = true.

(** [job.description = d] *)
Definition describe (d : str) (j : Job) : Job :=
  {| title := title j; company := company j; duration := duration j;
     description := Some d |}.

Definition experience_invariant (st : ExpState) : Prop :=
  (currentJob st < List.length (heap st))%nat
  /\ Forall (fun r => (r < List.length (heap st))%nat
                      /\ job_ok (nth r (heap st) emptyJob))
            (experience_refs st)
  /\ current_ok (cur st).

(** *** extractProjects

    Every [projects.push(currentProject)] is followed either by a fresh
    [currentProject] or by leaving the loop, after which the object only
    receives the description it already has; values suffice here. *)

Definition projectKeywords : list string :=
  ["projects"; "personal projects"; "key projects"; "notable projects"].

Definition emptyProject : Project :=
  {| proj_name := None; proj_description := None; proj_technologies := None |}.

Definition project_has_keys (p : Project) : bool :=
  is_some (proj_name p) || is_some (proj_description p) || is_some (proj_technologies p).

Definition isProjectName (line : str) : bool :=
  if negb (truthy line) || Nat.ltb (List.length line) 5 then false else
  let hasColon := includes line (lit ":") in
  let isReasonableLength :=
    Nat.ltb (List.length line) 100 && Nat.ltb 10 (List.length line) in
  hasColon && isReasonableLength.

Record ProjState := mkProjState {
  currentProject : Project;
  projectDescription : list str;
  processedProjects : list (option str);
  projects_acc : list Project
}.

Definition opt_eqb (a b : option str) : bool :=
  match a, b with
  | Some x, Some y => eqb x y
  | None, None => true
  | _, _ => false
  end.

(** [currentProject.description = projectDescription.join(' ');
     if (!processedProjects.has(currentProject.name)) { push; add }] *)
Definition flush_project (register : bool) (st : ProjState) : ProjState :=
  let p := {| proj_name := proj_name (currentProject st);
              proj_description := Some (join (lit " ") (projectDescription st));
              proj_technologies := proj_technologies (currentProject st) |} in
  if existsb (opt_eqb (proj_name p)) (processedProjects st)
  then {| currentProject := p; projectDescription := projectDescription st;
          processedProjects := processedProjects st; projects_acc := projects_acc st |}
  else {| currentProject := p; projectDescription := projectDescription st;
          processedProjects :=
            if register then processedProjects st ++ [proj_name p]
            else processedProjects st;
          projects_acc := projects_acc st ++ [p] |}.

Fixpoint projects_loop (inSec : bool) (st : ProjState) (lines : list str)
  : ProjState :=
  match lines with
  | [] => st
  | raw :: rest =>
      let line := trim raw in
      let lowerLine := toLowerCase line in
      if some_in projectKeywords lowerLine then projects_loop true st rest
      else if negb inSec then projects_loop inSec st rest
      else if includes lowerLine (lit "education") || includes lowerLine (lit "experience")
              || includes lowerLine (lit "skills")
      then (* break *)
        if project_has_keys (currentProject st) then flush_project true st else st
      else if isProjectName line then
        let st := if project_has_keys (currentProject st)
                  then flush_project true st else st in
        projects_loop inSec
          {| currentProject := {| proj_name := Some line; proj_description := None;
                                  proj_technologies := None |};
             projectDescription := [];
             processedProjects := processedProjects st;
             projects_acc := projects_acc st |} rest
      else if starts_with_bullet line then
        projects_loop inSec
          {| currentProject := currentProject st;
             projectDescription := projectDescription st ++ [strip_bullet line];
             processedProjects := processedProjects st;
             projects_acc := projects_acc st |} rest
      else if Nat.ltb 10 (List.length line) && truthy_opt (proj_name (currentProject st))
              && negb (includes line (lit ":"))
      then projects_loop inSec
          {| currentProject := currentProject st;
             projectDescription := projectDescription st ++ [line];
             processedProjects := processedProjects st;
             projects_acc := projects_acc st |} rest
      else projects_loop inSec st rest
  end.

Definition extractProjects (lines : list str) : list Project :=
  let st0 := {| currentProject := emptyProject; projectDescription := [];
                processedProjects := []; projects_acc := [] |} in
  let st := projects_loop false st0 lines in
  let st := if project_has_keys (currentProject st)
            then flush_project false st else st in
  projects_acc st.

(** What the loop of [extractProjects] keeps: the names pushed so far are
    pairwise distinct and all registered, every pushed project has a name
    that is a project-name line and a description, and so has the project
    at hand once it has any key. *)
Definition well_formed_project (p : Project) : Prop :=
  exists n d, proj_name p = Some n /\ isProjectName n = true
              /\ proj_description p = Some d /\ proj_technologies p = None.

Definition projects_invariant (st : ProjState) : Prop :=
  NoDup (List.map proj_name (projects_acc st))
  /\ (forall p, In p (projects_acc st) ->
               existsb (opt_eqb (proj_name p)) (processedProjects st) = true)
  /\ Forall well_formed_project (projects_acc st)
  /\ (project_has_keys (currentProject st) = true ->
      exists n, proj_name (currentProject st) = Some n /\ isProjectName n = true
                /\ proj_technologies (currentProject st) = None).

(** *** extractEducation (each pushed object is replaced before any
    further assignment, so values suffice) *)

Definition educationKeywords : list string :=
  ["education"; "academic background"; "qualifications"].

Definition emptyEducation : Education :=
  {| degree := None; institution := None; year := None |}.

Definition education_has_keys (e : Education) : bool :=
  is_some (degree e) || is_some (institution e) || is_some (year e).

Definition is_institution_line (line : str) : bool :=
  includes line (lit "College") || includes line (lit "University")
  || includes line (lit "Institute") || includes line (lit "School")
  || includes line (lit "Academy") || includes line (lit "Foundation").

Definition is_degree_line (line : str) : bool :=
  includes line (lit "B.Tech") || includes line (lit "B.E") || includes line (lit "M.Tech")
  || includes line (lit "M.E") || includes line (lit "HSC") || includes line (lit "SSC")
  || includes line (lit "Bachelor") || includes line (lit "Master")
  || includes line (lit "Diploma") || includes line (lit "GPA")
  || includes line (lit "%") || test fourDigits line.

Definition is_year_line (line : str) : bool :=
  test fourDigits line || includes line (lit "Mumbai") || includes line (lit "India")
  || includes line (lit "GPA") || includes line (lit "%").

(** What every pushed education entry satisfies. *)
Definition education_entry_ok (e : Education) : Prop :=
  education_has_keys e = true
  /\ forall i, institution e = Some i -> is_institution_line i = true.

Definition classify_education (line : str) (cur : Education) (acc : list Education)
  : Education * list Education :=
  if is_institution_line line then
    ({| degree := None; institution := Some line; year := None |},
     if education_has_keys cur then acc ++ [cur] else acc)
  else if is_degree_line line then
    if truthy_opt (degree cur)
    then ({| degree := Some line; institution := None; year := None |}, acc ++ [cur])
    else ({| degree := Some line; institution := institution cur; year := year cur |}, acc)
  else if is_year_line line then
    if truthy_opt (year cur)
    then ({| degree := degree cur; institution := institution cur;
             year := Some (show_opt (year cur) ++ lit " " ++ line) |}, acc)
    else ({| degree := degree cur; institution := institution cur; year := Some line |}, acc)
  else if truthy_opt (institution cur) && negb (truthy_opt (degree cur))
  then ({| degree := Some line; institution := institution cur; year := year cur |}, acc)
  else (cur, acc).

Fixpoint education_loop (inSec : bool) (cur : Education) (acc : list Education)
         (lines : list str) : Education * list Education :=
  match lines with
  | [] => (cur, acc)
  | raw :: rest =>
      let line := trim raw in
      let lowerLine := toLowerCase line in
      if some_in educationKeywords lowerLine then education_loop true cur acc rest
      else if negb inSec then education_loop inSec cur acc rest
      else if includes lowerLine (lit "experience") || includes lowerLine (lit "projects")
              || includes lowerLine (lit "skills")
              || includes lowerLine (lit "certifications")
      then (* break *)
        if education_has_keys cur then (emptyEducation, acc ++ [cur]) else (cur, acc)
      else if Nat.ltb 5 (List.length line) then
        let '(cur', acc') := classify_education line cur acc in
        education_loop inSec cur' acc' rest
      else education_loop inSec cur acc rest
  end.

Definition extractEducation (lines : list str) : list Education :=
  let '(cur, acc) := education_loop false emptyEducation [] lines in
  if education_has_keys cur then acc ++ [cur] else acc.

(** *** extractCertifications *)

Definition certKeywords : list string :=
  ["certifications"; "certificates"; "certified"; "achievements"].

Definition looks_like_certification (line : str) : bool :=
  includes line (lit "Certified") || includes line (lit "Certificate")
  || includes line (lit "Google") || includes line (lit "AWS")
  || includes line (lit "Microsoft") || includes line (lit "Coursera")
  || includes line (lit "Udemy") || includes line (lit "Coding")
  || includes line (lit "Full Stack") || includes line (lit "UI/UX")
  || includes line (lit "Web Development").

Fixpoint certifications_loop (inSec : bool) (acc : list str) (lines : list str)
  : list str :=
  match lines with
  | [] => acc
  | raw :: rest =>
      let line := trim raw in
      let lowerLine := toLowerCase line in
      if some_in certKeywords lowerLine && negb (starts_with_bullet line)
      then certifications_loop true acc rest
      else if negb inSec then certifications_loop inSec acc rest
      else if includes lowerLine (lit "education") || includes lowerLine (lit "experience")
              || includes lowerLine (lit "skills") || includes lowerLine (lit "projects")
              || includes lowerLine (lit "languages")
      then acc (* break *)
      else if Nat.ltb 5 (List.length line) then
        if starts_with_bullet line then
          let cleanCert := trim (strip_bullet line) in
          if Nat.ltb 0 (List.length cleanCert)
          then certifications_loop inSec (acc ++ [cleanCert]) rest
          else certifications_loop inSec acc rest
        else if looks_like_certification line
        then certifications_loop inSec (acc ++ [line]) rest
        else certifications_loop inSec acc rest
      else certifications_loop inSec acc rest
  end.

Definition extractCertifications (lines : list str) : list str :=
  certifications_loop false [] lines.

(** *** extractLanguages *)

Definition languageKeywords : list string := ["languages"; "language skills"].

Definition commonLanguages : list str := List.map lit
  ["english"; "spanish"; "french"; "german"; "chinese"; "japanese"; "korean";
   "hindi"; "arabic"].

Fixpoint languages_loop (inSec : bool) (acc : list str) (lines : list str)
  : list str :=
  match lines with
  | [] => acc
  | line :: rest =>
      let lowerLine := toLowerCase line in
      if some_in languageKeywords lowerLine then languages_loop true acc rest
      else if negb inSec then languages_loop inSec acc rest
      else if includes lowerLine (lit "education") || includes lowerLine (lit "experience")
              || includes lowerLine (lit "skills")
      then acc (* break *)
      else languages_loop inSec
             (acc ++ filter (fun lang => includes lowerLine lang) commonLanguages) rest
  end.

Definition extractLanguages (lines : list str) : list str :=
  new_Set (languages_loop false [] lines).

(** No line of [lines], trimmed and lowercased, holds one of the header
    keywords [kws]. *)
Definition no_header (kws : list string) (lines : list str) : Prop :=
  Forall (fun line => some_in kws (toLowerCase (trim line)) = false) lines.

(** *** parseResumeContent

    A call either returns a value or throws; [exn + A] is the outcome of a
    call.  The assembler is written over an interface of seven extractors
    that may throw, so that its inner [try]/[catch] is part of the model;
    the extractors of this file, which are total, instantiate it. *)

Inductive exn := Error (message : str).

Definition outcome (A : Type) : Type := (exn + A)%type.

Class Extractors := {
  run_extractPersonalInfo : list str -> outcome PersonalInfo;
  run_extractSkills : str -> list str -> outcome (list str);
  run_extractExperience : list str -> outcome (list Job);
  run_extractProjects : list str -> outcome (list Project);
  run_extractEducation : list str -> outcome (list Education);
  run_extractCertifications : list str -> outcome (list str);
  run_extractLanguages : list str -> outcome (list str)
}.

(** [try { x = e; k } catch (_) { return result }] with [result] the record
    as populated so far. *)
Notation "'attempt' x <- e 'orelse' r 'in' k" :=
  (match e with inl _ => r | inr x => k end)
  (at level 10, x name, e at level 200, r at level 200, k at level 200,
   only parsing).

Definition emptyPersonalInfo : PersonalInfo :=
  {| name := None; email := None; phone := None; location := None |}.

Definition emptyResume : ParsedResume :=
  {| personalInfo := emptyPersonalInfo; skills := []; experience := [];
     projects := []; education := []; certifications := []; languages := [] |}.

Definition with_personalInfo v r := {| personalInfo := v; skills := skills r;
  experience := experience r; projects := projects r; education := education r;
  certifications := certifications r; languages := languages r |}.
Definition with_skills v r := {| personalInfo := personalInfo r; skills := v;
  experience := experience r; projects := projects r; education := education r;
  certifications := certifications r; languages := languages r |}.
Definition with_experience v r := {| personalInfo := personalInfo r; skills := skills r;
  experience := v; projects := projects r; education := education r;
  certifications := certifications r; languages := languages r |}.
Definition with_projects v r := {| personalInfo := personalInfo r; skills := skills r;
  experience := experience r; projects := v; education := education r;
  certifications := certifications r; languages := languages r |}.
Definition with_education v r := {| personalInfo := personalInfo r; skills := skills r;
  experience := experience r; projects := projects r; education := v;
  certifications := certifications r; languages := languages r |}.
Definition with_certifications v r := {| personalInfo := personalInfo r; skills := skills r;
  experience := experience r; projects := projects r; education := education r;
  certifications := v; languages := languages r |}.
Definition with_languages v r := {| personalInfo := personalInfo r; skills := skills r;
  experience := experience r; projects := projects r; education := education r;
  certifications := certifications r; languages := v |}.

(** [text.split('\n').map(line => line.trim()).filter(line => line.length > 0)] *)
Definition split_lines (text : str) : list str :=
  filter nonempty (List.map trim (split_unit 10 text)).

(** The body of the inner [try]: the populated record, or the record as
    far as it got when an extractor threw. *)
Definition assemble `{Extractors} (text : str) (lines : list str) : ParsedResume :=
  let result := emptyResume in
  attempt v <- run_extractPersonalInfo lines orelse result in
  let result := with_personalInfo v result in
  attempt v <- run_extractSkills text lines orelse result in
  let result := with_skills v result in
  attempt v <- run_extractExperience lines orelse result in
  let result := with_experience v result in
  attempt v <- run_extractProjects lines orelse result in
  let result := with_projects v result in
  attempt v <- run_extractEducation lines orelse result in
  let result := with_education v result in
  attempt v <- run_extractCertifications lines orelse result in
  let result := with_certifications v result in
  attempt v <- run_extractLanguages lines orelse result in
  with_languages v result.

Definition emptyTextError : exn := Error (lit "Empty text provided for parsing").

(** The outer [try]/[catch] rethrows what it catches. *)
Definition parseResumeContentWith `{Extractors} (text : str) : outcome ParsedResume :=
  if negb (truthy text) || Nat.eqb (List.length (trim text)) 0
  then inl emptyTextError
  else inr (assemble text (split_lines text)).

(** The extractors of this file. *)
#[export] Instance sourceExtractors : Extractors := {|
  run_extractPersonalInfo := fun lines => inr (extractPersonalInfo lines);
  run_extractSkills := fun text lines => inr (extractSkills text lines);
  run_extractExperience := fun lines => inr (extractExperience lines);
  run_extractProjects := fun lines => inr (extractProjects lines);
  run_extractEducation := fun lines => inr (extractEducation lines);
  run_extractCertifications := fun lines => inr (extractCertifications lines);
  run_extractLanguages := fun lines => inr (extractLanguages lines)
|}.

Definition parseResumeContent (text : str) : outcome ParsedResume :=
  parseResumeContentWith (H := sourceExtractors) text.

(** Vocabulary for stating what a partially populated record holds: an
    extractor's value counts when it and every extractor before it
    returned; otherwise the field keeps its empty default. *)
Definition returned {A} (o : outcome A) : bool :=
  match o with inr _ => true | inl _ => false end.

Definition field_after {A} (earlier : bool) (o : outcome A) (default : A) : A :=
  if earlier then match o with inr v => v | inl _ => default end
  else default.

End PdfParser.

(* ================================================================= *)
(** ** The earlier extractor file (the simple variant)

    The repository also carries the first version of the extractor file,
    and the same functions inside the front end's route.  Its
    [parseResumeContent], [extractPersonalInfo], [extractSkillsFromLine]
    and [extractLanguages] have the text of the later file; the other
    extractors are simpler.  Its [extractExperience] recognises a job line
    by the separators [" at "], [" - "] and ["|"]. *)

Module SimpleParser.
Import JS Regex.
Import PdfParser.

Definition experienceKeywords : list string :=
  ["experience"; "work history"; "employment"; "professional experience"].

(** /\s+at\s+|\s+-\s+|\|/ *)
Definition jobSeparator : regex :=
  let ws := Plus (Cls is_space) in
  Alt (Alt (Seq ws (Seq (Lit (lit "at")) ws)) (Seq ws (Seq (Chr 45) ws))) (Chr 124).

(** The loop; on [break] the job at hand has been pushed and stays the
    current one, so the statement after the loop pushes it once more. *)
Fixpoint experience_loop (inSec : bool) (currentJob : Job) (acc : list Job)
         (lines : list str) : Job * list Job :=
  match lines with
  | [] => (currentJob, acc)
  | raw :: rest =>
      let line := toLowerCase raw in
      if some_in experienceKeywords line then experience_loop true currentJob acc rest
      else if negb inSec then experience_loop inSec currentJob acc rest
      else if includes line (lit "education") || includes line (lit "projects")
              || includes line (lit "skills")
      then (* break *)
        (currentJob, if job_has_keys currentJob then acc ++ [currentJob] else acc)
      else if includes line (lit " at ") || includes line (lit " - ")
              || includes line (lit "|")
      then
        let acc := if job_has_keys currentJob then acc ++ [currentJob] else acc in
        let parts := split jobSeparator raw in
        let currentJob :=
          if Nat.leb 2 (List.length parts)
          then {| title := Some (trim (nth_str 0 parts));
                  company := Some (trim (nth_str 1 parts));
                  duration := None; description := None |}
          else emptyJob in
        experience_loop inSec currentJob acc rest
      else if Nat.ltb 10 (List.length raw) && negb (truthy_opt (description currentJob))
      then experience_loop inSec
             {| title := title currentJob; company := company currentJob;
                duration := duration currentJob; description := Some raw |} acc rest
      else experience_loop inSec currentJob acc rest
  end.

Definition extractExperience (lines : list str) : list Job :=
  let '(currentJob, acc) := experience_loop false emptyJob [] lines in
  if job_has_keys currentJob then acc ++ [currentJob] else acc.

(** *** extractSkills: a shorter vocabulary and no scan of bullet points *)

Definition techSkills : list str := List.map lit
  ["javascript"; "typescript"; "python"; "java"; "c++"; "c#"; "php"; "ruby"; "go"; "rust";
   "react"; "angular"; "vue"; "node.js"; "express"; "django"; "flask"; "spring"; "laravel";
   "html"; "css"; "sass"; "scss"; "tailwind"; "bootstrap";
   "mysql"; "postgresql"; "mongodb"; "redis"; "elasticsearch";
   "aws"; "azure"; "google cloud"; "docker"; "kubernetes"; "jenkins";
   "git"; "github"; "gitlab"; "svn";
   "tensorflow"; "pytorch"; "scikit-learn"; "pandas"; "numpy";
   "figma"; "sketch"; "photoshop"; "illustrator"].

Fixpoint skills_loop (inSec ended : bool) (skills : list str) (lines : list str)
  : list str :=
  match lines with
  | [] => skills
  | raw :: rest =>
      let line := toLowerCase raw in
      if some_in skillKeywords line then skills_loop true ended skills rest
      else
        let ended := ended || (inSec && leaves_skills line) in
        if inSec && negb ended
        then skills_loop inSec ended (skills ++ extractSkillsFromLine raw techSkills) rest
        else skills_loop inSec ended skills rest
  end.

Definition extractSkills (text : str) (lines : list str) : list str :=
  let skills := skills_loop false false [] lines in
  let lowerText := toLowerCase text in
  let skills :=
    fold_left (fun skills skill =>
                 if includes lowerText skill
                    && negb (existsb (fun s => eqb (toLowerCase s) skill) skills)
                 then skills ++ [skill] else skills)
              techSkills skills in
  new_Set skills.

(** *** extractProjects: the first short line is the name of the one
    project, the next longer line its description *)

Definition with_proj_description (d : str) (p : Project) : Project :=
  {| proj_name := proj_name p; proj_description := Some d;
     proj_technologies := proj_technologies p |}.

Fixpoint projects_loop (inSec : bool) (currentProject : Project) (acc : list Project)
         (lines : list str) : Project * list Project :=
  match lines with
  | [] => (currentProject, acc)
  | raw :: rest =>
      let line := toLowerCase raw in
      if some_in projectKeywords line then projects_loop true currentProject acc rest
      else if negb inSec then projects_loop inSec currentProject acc rest
      else if includes line (lit "education") || includes line (lit "experience")
              || includes line (lit "skills")
      then (* break *)
        (currentProject,
         if project_has_keys currentProject then acc ++ [currentProject] else acc)
      else if Nat.ltb 0 (List.length raw) && Nat.ltb (List.length raw) 50
              && negb (truthy_opt (proj_name currentProject))
      then
        let acc := if project_has_keys currentProject
                   then acc ++ [currentProject] else acc in
        projects_loop inSec
          {| proj_name := Some raw; proj_description := None;
             proj_technologies := None |} acc rest
      else if Nat.ltb 10 (List.length raw) && truthy_opt (proj_name currentProject)
              && negb (truthy_opt (proj_description currentProject))
      then projects_loop inSec (with_proj_description raw currentProject) acc rest
      else projects_loop inSec currentProject acc rest
  end.

Definition extractProjects (lines : list str) : list Project :=
  let '(currentProject, acc) := projects_loop false emptyProject [] lines in
  if project_has_keys currentProject then acc ++ [currentProject] else acc.

(** *** extractEducation: one entry per recognised line *)

Definition is_degree (line : str) : bool :=
  includes line (lit "bachelor") || includes line (lit "master")
  || includes line (lit "phd") || includes line (lit "b.s") || includes line (lit "m.s")
  || includes line (lit "b.a") || includes line (lit "m.a").

Fixpoint education_loop (inSec : bool) (acc : list Education) (lines : list str)
  : list Education :=
  match lines with
  | [] => acc
  | raw :: rest =>
      let line := toLowerCase raw in
      if some_in educationKeywords line then education_loop true acc rest
      else if negb inSec then education_loop inSec acc rest
      else if includes line (lit "experience") || includes line (lit "projects")
              || includes line (lit "skills")
      then acc (* break *)
      else if Nat.ltb 5 (List.length raw) then
        if is_degree line
        then education_loop inSec
               (acc ++ [{| degree := Some raw; institution := None; year := None |}]) rest
        else if includes raw (lit "university") || includes raw (lit "college")
                || includes raw (lit "institute")
        then education_loop inSec
               (acc ++ [{| degree := None; institution := Some raw; year := None |}]) rest
        else education_loop inSec acc rest
      else education_loop inSec acc rest
  end.

Definition extractEducation (lines : list str) : list Education :=
  education_loop false [] lines.

(** *** extractCertifications: every longer line of the section *)

Definition certKeywords : list string := ["certifications"; "certificates"; "certified"].

Fixpoint certifications_loop (inSec : bool) (acc : list str) (lines : list str)
  : list str :=
  match lines with
  | [] => acc
  | line :: rest =>
      let lowerLine := toLowerCase line in
      if some_in certKeywords lowerLine then certifications_loop true acc rest
      else if negb inSec then certifications_loop inSec acc rest
      else if includes lowerLine (lit "education") || includes lowerLine (lit "experience")
              || includes lowerLine (lit "skills")
      then acc (* break *)
      else if Nat.ltb 5 (List.length line)
      then certifications_loop inSec (acc ++ [line]) rest
      else certifications_loop inSec acc rest
  end.

Definition extractCertifications (lines : list str) : list str :=
  certifications_loop false [] lines.

(** *** parseResumeContent: the assembler of the later file, over these
    extractors *)

Definition simpleExtractors : Extractors := {|
  run_extractPersonalInfo := fun lines => inr (extractPersonalInfo lines);
  run_extractSkills := fun text lines => inr (extractSkills text lines);
  run_extractExperience := fun lines => inr (extractExperience lines);
  run_extractProjects := fun lines => inr (extractProjects lines);
  run_extractEducation := fun lines => inr (extractEducation lines);
  run_extractCertifications := fun lines => inr (extractCertifications lines);
  run_extractLanguages := fun lines => inr (extractLanguages lines)
|}.

Definition parseResumeContent (text : str) : outcome ParsedResume :=
  parseResumeContentWith (H := simpleExtractors) text.

End SimpleParser.

(* ================================================================= *)
(** ** backend/src/routes/performance.ts: the deterministic analysis *)

Module Performance.
Import JS Regex.

(** *** Numbers.  A finite JavaScript number is the rational it denotes.
    Sums, differences and products of the integers that the code counts
    with are integers again and need no rounding (the counters are
    lengths of arrays and of strings, far below 2^53); a quotient is
    rounded to the nearest double. *)

(** [binade q] is the exponent [e] with [2^e <= q < 2^(e+1)], for [0 < q]:
    the difference of the bit lengths of numerator and denominator, or
    one less. *)
Definition binade (q : Q) : Z :=
  let k := (Z.log2 (Qnum q) - Z.log2 (Zpos (Qden q)))%Z in
  if Qle_bool (2 ^ k)%Q q then k else (k - 1)%Z.

(** the nearest integer, a tie going to the even one *)
Definition round_half_even (x : Q) : Z :=
  let f := Qfloor x in
  match Qcompare (x - inject_Z f)%Q (1 # 2)%Q with
  | Lt => f
  | Gt => (f + 1)%Z
  | Eq => if Z.even f then f else (f + 1)%Z
  end.

(** A positive [q] rounded to 53 significant bits: the unit in the last
    place is [2^(e-52)] for [e] the binade of [q], and [2^(-1074)] below
    the normal range. *)
Definition round_magnitude (q : Q) : Q :=
  let e := Z.max (binade q) (-1022) in
  (inject_Z (round_half_even (q * 2 ^ (52 - e))) * 2 ^ (e - 52))%Q.

(** The double nearest to [q], ties to even.  The exponent is not
    bounded above: every quotient of the code is at most its dividend, a
    score or a word count. *)
Definition double (q : Q) : Q :=
  match Qnum q with
  | Z0 => 0%Q
  | Zpos _ => round_magnitude q
  | Zneg _ => (- round_magnitude (- q))%Q
  end.

(** The same division by the Standard Library's specification of IEEE
    754 arithmetic, at the binary64 parameters. *)
Definition Z2SF (z : Z) : SpecFloat.spec_float :=
  SpecFloat.binary_normalize 53 1024 z 0 false.

Definition SF2Q (x : SpecFloat.spec_float) : option Q :=
  match x with
  | SpecFloat.S754_zero _ => Some 0%Q
  | SpecFloat.S754_finite s m e =>
      Some ((if s then - (1) else 1) * inject_Z (Zpos m) * 2 ^ e)%Q
  | _ => None
  end.

Definition binary64_div (n d : Z) : option Q :=
  SF2Q (SpecFloat.SFdiv 53 1024 (Z2SF n) (Z2SF d)).

Definition binary64_sub_div (n d p : Z) : option Q :=
  SF2Q (SpecFloat.SFsub 53 1024 (SpecFloat.SFdiv 53 1024 (Z2SF n) (Z2SF d)) (Z2SF p)).

Definition agrees (r : option Q) (q : Q) : bool :=
  match r with
  | Some x => Qeq_bool x q
  | None => false
  end.

(** the integers [0 .. n-1] *)
Definition below (n : nat) : list Z := List.map Z.of_nat (seq 0 n).

Inductive number := Num (q : Q) | NaN | PosInf | NegInf.

(** [a / b] on finite operands *)
Definition js_div (a b : Q) : number :=
  if Qeq_bool b 0 then
    (if Qeq_bool a 0 then NaN else if Qle_bool 0 a then PosInf else NegInf)
  else Num (double (a / b)).

(** [x / b] for a divisor [b] that is a count (finite, not negative) *)
Definition js_div_by (x : number) (b : Q) : number :=
  match x with
  | Num a => js_div a b
  | other => other
  end.

Definition js_add (x : number) (q : Q) : number :=
  match x with Num a => Num (a + q) | other => other end.

(** [x < q]; every comparison with [NaN] is false *)
Definition js_lt (x : number) (q : Q) : bool :=
  match x with
  | Num a => negb (Qle_bool q a)
  | NaN => false
  | PosInf => false
  | NegInf => true
  end.

Definition N2Q (n : N) : Q := inject_Z (Z.of_N n).

(** [Math.round]: the nearest integer, halves upwards *)
Definition Math_round (q : Q) : Z := Qfloor (q + (1 # 2)).

Record Answer := mkAnswer { questionIndex : N; answer : str }.
Record Question := mkQuestion { question : str; type : option str }.
Record JobDetails := mkJobDetails { title : str; company : str; requirements : str }.

Record Analysis := mkAnalysis {
  totalWords : N;
  averageLength : number;
  technicalTerms : N;
  experienceMentions : N;
  problemSolving : N;
  specificExamples : N;
  communicationQuality : N;
  nonsensicalAnswers : N;
  poorQualityAnswers : N;
  meaningfulAnswers : N
}.

(** *** isNonsensicalAnswer *)

(** /^[a-z]{1,4}$/i *)
Definition shortWordPattern : regex :=
  Seq Bos (Seq (Between 1 4 (Cls is_alpha)) Eos).

(** /^[^a-zA-Z0-9\s]*$/g *)
Definition onlySpecialPattern : regex :=
  Seq Bos (Seq (Star (Cls (fun c => negb (is_alpha c || is_digit c || is_space c)))) Eos).

(** /^[0-9\s]*$/g *)
Definition onlyNumbersPattern : regex :=
  Seq Bos (Seq (Star (Cls (fun c => is_digit c || is_space c))) Eos).

(** /(.)\1{2,}/g: some unit other than a line terminator occurs three
    times in a row. *)
Fixpoint hasRepeatedCharacter (s : str) : bool :=
  match s with
  | a :: ((b :: c :: _) as s') =>
      (negb (is_line_terminator a) && N.eqb a b && N.eqb a c)
      || hasRepeatedCharacter s'
  | _ => false
  end.

(** /^[bcdfghjklmnpqrstvwxyz]{1,4}$/i *)
Definition is_consonant (c : N) : bool :=
  let l := lower_unit c in
  is_lower l && negb ((l =? 97) || (l =? 101) || (l =? 105) || (l =? 111) || (l =? 117)).
Definition onlyConsonantsPattern : regex :=
  Seq Bos (Seq (Between 1 4 (Cls is_consonant)) Eos).

Definition isNonsensicalAnswer (text : str) (wordCount : nat) : bool :=
  if Nat.leb wordCount 1 then true
  else if Nat.leb wordCount 4 then
    test shortWordPattern text
    || test onlySpecialPattern text
    || test onlyNumbersPattern text
    || hasRepeatedCharacter text
    || test onlyConsonantsPattern text
  else false.

(** *** isPoorQualityAnswer *)

Definition meaningfulWords : list string :=
  ["worked"; "developed"; "created"; "built"; "implemented"; "designed";
   "managed"; "led"; "collaborated"; "solved"; "challenge"; "problem";
   "experience"; "project"; "team"; "result"; "outcome"; "success";
   "learned"; "improved"; "optimized"; "enhanced"; "achieved"].

Definition has_any (text : str) (ws : list string) : bool :=
  existsb (fun w => includes text (lit w)) ws.

Definition isPoorQualityAnswer (text : str) (wordCount : nat) : bool :=
  if Nat.ltb wordCount 10 then true
  else if Nat.ltb wordCount 20 then negb (has_any text meaningfulWords)
  else false.

(** *** analyzeAnswers *)

Definition emptyAnalysis : Analysis :=
  {| totalWords := 0; averageLength := Num 0; technicalTerms := 0;
     experienceMentions := 0; problemSolving := 0; specificExamples := 0;
     communicationQuality := 0; nonsensicalAnswers := 0; poorQualityAnswers := 0;
     meaningfulAnswers := 0 |}.

(** [text.split(/\s+/).filter(word => word.length > 0).length] *)
Definition countWords (text : str) : nat :=
  List.length (filter (fun w => Nat.ltb 0 (List.length w))
                      (split (Plus (Cls is_space)) text)).

(** /[.!?]+/ *)
Definition sentenceEnd : regex :=
  Plus (Cls (fun c => (c =? 46) || (c =? 33) || (c =? 63))).

Definition bump (b : bool) (n : N) : N := if b then n + 1 else n.

(** The body of the [forEach] callback. *)
Definition analyzeAnswer (analysis : Analysis) (a : Answer) : Analysis :=
  let text := trim (toLowerCase (answer a)) in
  let wordCount := countWords text in
  let totalWords' := totalWords analysis + N.of_nat wordCount in
  let averageLength' := js_add (averageLength analysis) (N2Q (N.of_nat wordCount)) in
  if isNonsensicalAnswer text wordCount then
    {| totalWords := totalWords'; averageLength := averageLength';
       technicalTerms := technicalTerms analysis;
       experienceMentions := experienceMentions analysis;
       problemSolving := problemSolving analysis;
       specificExamples := specificExamples analysis;
       communicationQuality := communicationQuality analysis;
       nonsensicalAnswers := nonsensicalAnswers analysis + 1;
       poorQualityAnswers := poorQualityAnswers analysis;
       meaningfulAnswers := meaningfulAnswers analysis |}
  else
    let poor := isPoorQualityAnswer text wordCount in
    {| totalWords := totalWords'; averageLength := averageLength';
       technicalTerms :=
         bump (has_any text ["technology"; "software"; "system"; "development";
                             "coding"; "programming"; "api"; "database"; "framework";
                             "react"; "node"; "javascript"])
              (technicalTerms analysis);
       experienceMentions :=
         bump (has_any text ["experience"; "worked"; "project"; "developed";
                             "implemented"; "built"; "created"; "managed"; "led"])
              (experienceMentions analysis);
       problemSolving :=
         bump (has_any text ["challenge"; "problem"; "solved"; "overcame"; "difficult";
                             "troubleshoot"; "debug"; "fix"; "issue"])
              (problemSolving analysis);
       specificExamples :=
         bump (has_any text ["example"; "specific"; "instance"; "case"; "situation";
                             "time when"; "once"; "when i"])
              (specificExamples analysis);
       communicationQuality :=
         bump (Nat.leb 20 wordCount && Nat.leb wordCount 200
               && Nat.ltb 1 (List.length (split sentenceEnd text)))
              (communicationQuality analysis);
       nonsensicalAnswers := nonsensicalAnswers analysis;
       poorQualityAnswers := bump poor (poorQualityAnswers analysis);
       meaningfulAnswers := bump (negb poor) (meaningfulAnswers analysis) |}.

Definition with_averageLength (x : number) (a : Analysis) : Analysis :=
  {| totalWords := totalWords a; averageLength := x;
     technicalTerms := technicalTerms a; experienceMentions := experienceMentions a;
     problemSolving := problemSolving a; specificExamples := specificExamples a;
     communicationQuality := communicationQuality a;
     nonsensicalAnswers := nonsensicalAnswers a;
     poorQualityAnswers := poorQualityAnswers a;
     meaningfulAnswers := meaningfulAnswers a |}.

Definition analyzeAnswers (answers : list Answer) : Analysis :=
  let analysis := fold_left analyzeAnswer answers emptyAnalysis in
  with_averageLength
    (js_div_by (averageLength analysis) (N2Q (N.of_nat (List.length answers))))
    analysis.

(** *** calculateScores.  The products, sums and differences of the
    three component scores are of integers.  The two means divide by 3:
    the quotient is rounded to the nearest double, and so is the
    difference of the rounded mean and the penalty. *)

Record Scores := mkScores {
  overall : Q;
  technical : Q;
  behavioral : Q;
  communication : Q
}.

Local Open Scope Q_scope.

Definition calculateScores (answers : list Answer) (analysis : Analysis)
           (jobDetails : JobDetails) : Scores :=
  if (0 <? nonsensicalAnswers analysis)%N then
    {| overall := Qmin 15 (N2Q (nonsensicalAnswers analysis) * 5);
       technical := Qmin 10 (N2Q (nonsensicalAnswers analysis) * 3);
       behavioral := Qmin 10 (N2Q (nonsensicalAnswers analysis) * 3);
       communication := Qmin 15 (N2Q (nonsensicalAnswers analysis) * 4) |}
  else if (0 <? poorQualityAnswers analysis)%N then
    let poorQualityPenalty := N2Q (poorQualityAnswers analysis) * 20 in
    let technical :=
      if (0 <? technicalTerms analysis)%N
      then Qmin (N2Q (technicalTerms analysis) * 15) 100 else 0 in
    let technical := Qmax 0 (technical - poorQualityPenalty) in
    let behavioral :=
      if (0 <? problemSolving analysis)%N || (0 <? specificExamples analysis)%N
      then Qmin (N2Q (problemSolving analysis + specificExamples analysis)%N * 12) 100
      else 0 in
    let behavioral := Qmax 0 (behavioral - poorQualityPenalty) in
    let communication :=
      if (0 <? communicationQuality analysis)%N
      then Qmin (N2Q (communicationQuality analysis) * 20) 100 else 0 in
    let communication := Qmax 0 (communication - poorQualityPenalty) in
    let overall :=
      Qmax 0 (double (double ((technical + behavioral + communication) / 3)
                      - poorQualityPenalty)) in
    {| overall := overall; technical := technical; behavioral := behavioral;
       communication := communication |}
  else
    let s :=
      if (0 <? meaningfulAnswers analysis)%N then
        let technical :=
          if (0 <? technicalTerms analysis)%N
          then Qmin (N2Q (technicalTerms analysis) * 20) 100 else 0 in
        let behavioral :=
          if (0 <? problemSolving analysis)%N || (0 <? specificExamples analysis)%N
          then Qmin (N2Q (problemSolving analysis + specificExamples analysis)%N * 15) 100
          else 0 in
        let communication :=
          if (0 <? communicationQuality analysis)%N
          then Qmin (N2Q (communicationQuality analysis) * 25) 100 else 0 in
        {| overall := double ((technical + behavioral + communication) / 3);
           technical := technical; behavioral := behavioral;
           communication := communication |}
      else {| overall := 0; technical := 0; behavioral := 0; communication := 0 |} in
    {| overall := Qmax 0 (Qmin 100 (overall s));
       technical := Qmax 0 (Qmin 100 (technical s));
       behavioral := Qmax 0 (Qmin 100 (behavioral s));
       communication := Qmax 0 (Qmin 100 (communication s)) |}.

(** *** generateFeedback *)

Record Feedback := mkFeedback {
  strengths : list str;
  weaknesses : list str;
  suggestions : list str
}.

(** [if (c) list.push(x)] *)
Definition push_if (c : bool) (x : string) (l : list str) : list str :=
  if c then l ++ [lit x] else l.

(** defaults when nothing was pushed *)
Definition or_defaults (l : list str) (d : list string) : list str :=
  if Nat.eqb (List.length l) 0 then l ++ List.map lit d else l.

Definition generateFeedback (answers : list Answer) (analysis : Analysis)
           (jobDetails : JobDetails) : Feedback :=
  let strengths : list str := [] in
  let strengths := push_if (0 <? experienceMentions analysis)%N
    "Demonstrated relevant experience and background" strengths in
  let strengths := push_if (0 <? problemSolving analysis)%N
    "Showed problem-solving abilities and critical thinking" strengths in
  let strengths := push_if (0 <? specificExamples analysis)%N
    "Provided specific examples and concrete situations" strengths in
  let strengths := push_if (0 <? communicationQuality analysis)%N
    "Good communication skills and clarity in responses" strengths in
  let strengths := push_if (0 <? technicalTerms analysis)%N
    "Demonstrated technical knowledge and expertise" strengths in
  let strengths :=
    or_defaults strengths
      ["Good communication skills"; "Demonstrated relevant experience";
       "Provided specific examples"] in
  let weaknesses : list str := [] in
  let weaknesses := push_if (js_lt (averageLength analysis) 50)
    "Could provide more detailed and comprehensive answers" weaknesses in
  let weaknesses := push_if (specificExamples analysis =? 0)%N
    "Consider using more specific examples and concrete situations" weaknesses in
  let weaknesses := push_if (problemSolving analysis =? 0)%N
    "Could demonstrate more problem-solving scenarios" weaknesses in
  let weaknesses :=
    push_if ((technicalTerms analysis =? 0)%N
             && includes (toLowerCase (title jobDetails)) (lit "technical"))
      "Could elaborate more on technical skills and knowledge" weaknesses in
  let weaknesses :=
    or_defaults weaknesses
      ["Could provide more detailed technical explanations";
       "Consider using more specific metrics in answers";
       "Practice STAR method for behavioral questions"] in
  let suggestions : list str :=
    List.map lit
      ["Practice common interview questions regularly";
       "Prepare specific examples for your experience";
       "Use the STAR method (Situation, Task, Action, Result)";
       "Research the company and role thoroughly";
       "Practice speaking clearly and confidently"] in
  let suggestions := push_if (js_lt (averageLength analysis) 50)
    "Practice giving more detailed responses" suggestions in
  let suggestions := push_if (specificExamples analysis =? 0)%N
    "Prepare specific examples for common interview questions" suggestions in
  {| strengths := strengths; weaknesses := weaknesses; suggestions := suggestions |}.

(** *** generateDetailedFeedback *)

Definition decimal (n : nat) : str := lit (NilEmpty.string_of_uint (Nat.to_uint n)).

(** [feedback += x] when [c] *)
Definition add_if (c : bool) (x : string) (feedback : str) : str :=
  if c then feedback ++ lit x else feedback.

Definition feedbackFor (q : Question) (a : Answer) (jobDetails : JobDetails) : str :=
  let answerText := toLowerCase (answer a) in
  let wordCount := List.length (split_unit 32 (answer a)) in
  let questionType := or_else (type q) (lit "General") in
  let feedback : str := [] in
  let feedback :=
    if includes (toLowerCase questionType) (lit "technical") then
      let feedback :=
        if has_any answerText ["experience"; "worked"; "developed"]
        then feedback ++ lit "Good use of specific experience and examples. "
        else feedback ++ lit "Consider providing more specific technical examples from your experience. " in
      add_if (Nat.ltb wordCount 30)
        "Could elaborate more on technical details and implementation. " feedback
    else if includes (toLowerCase questionType) (lit "behavioral") then
      let feedback :=
        if has_any answerText ["situation"; "task"; "action"; "result"]
        then feedback ++ lit "Excellent use of STAR method for behavioral questions. "
        else feedback ++ lit "Consider using the STAR method (Situation, Task, Action, Result) for better structure. " in
      add_if (Nat.ltb wordCount 40)
        "Could provide more detailed examples and context. " feedback
    else if Nat.ltb wordCount 20
    then feedback ++ lit "Consider providing more comprehensive answers with specific examples. "
    else if Nat.ltb 100 wordCount
    then feedback ++ lit "Good detailed response, but ensure you stay focused on the key points. "
    else feedback ++ lit "Well-structured response with good detail. " in
  let feedback :=
    if Nat.leb 30 wordCount && Nat.leb wordCount 80
    then feedback ++ lit "Good communication skills demonstrated. "
    else add_if (Nat.ltb wordCount 30)
           "Consider expanding your answer for better clarity. " feedback in
  let feedback :=
    add_if (includes answerText (toLowerCase (title jobDetails))
            || includes answerText (toLowerCase (company jobDetails))
            || includes answerText (lit "relevant")
            || includes answerText (lit "applicable"))
      "Good relevance to the position and company. " feedback in
  let feedback :=
    if negb (truthy (trim feedback))
    then lit "Good response. Consider adding more specific examples to strengthen your answer."
    else feedback in
  trim feedback.

(** The object built by the [forEach], as its entries in insertion order
    (the keys [question1], [question2], ... are distinct). *)
Fixpoint detailed_from (index : nat) (questions : list Question)
         (answers : list Answer) (jobDetails : JobDetails) : list (str * str) :=
  match questions with
  | [] => []
  | q :: rest =>
      let questionKey := lit "question" ++ decimal (index + 1) in
      let entry :=
        match find (fun ans => N.eqb (questionIndex ans) (N.of_nat index)) answers with
        | None =>
            (questionKey,
             lit "No answer provided. Consider preparing responses for common interview questions.")
        | Some a => (questionKey, feedbackFor q a jobDetails)
        end in
      entry :: detailed_from (S index) rest answers jobDetails
  end.

Definition generateDetailedFeedback (questions : list Question)
           (answers : list Answer) (jobDetails : JobDetails) : list (str * str) :=
  detailed_from 0 questions answers jobDetails.

(** *** generateSmartAnalysis ([completionRate] is computed and not used) *)

Record SmartAnalysis := mkSmartAnalysis {
  overallScore : Z;
  technicalScore : Z;
  behavioralScore : Z;
  communicationScore : Z;
  sa_strengths : list str;
  sa_weaknesses : list str;
  sa_suggestions : list str;
  detailedFeedback : list (str * str)
}.

Definition generateSmartAnalysis (questions : list Question) (answers : list Answer)
           (jobDetails : JobDetails) : SmartAnalysis :=
  let answerAnalysis := analyzeAnswers answers in
  let scores := calculateScores answers answerAnalysis jobDetails in
  let feedback := generateFeedback answers answerAnalysis jobDetails in
  let detailedFeedback := generateDetailedFeedback questions answers jobDetails in
  {| overallScore := Math_round (overall scores);
     technicalScore := Math_round (technical scores);
     behavioralScore := Math_round (behavioral scores);
     communicationScore := Math_round (communication scores);
     sa_strengths := strengths feedback;
     sa_weaknesses := weaknesses feedback;
     sa_suggestions := suggestions feedback;
     detailedFeedback := detailedFeedback |}.

(** *** extractArrayFromText *)

(** /[,\n]/ *)
Definition is_item_separator (c : N) : bool := (c =? 44)%N || (c =? 10)%N.
(** the class of [line.replace]: the double quote and the two square
    brackets *)
Definition is_quote_or_bracket (c : N) : bool :=
  (c =? 34)%N || (c =? 91)%N || (c =? 93)%N.

Definition extractArrayFromText (arrayText : str) : list str :=
  let lines := split (Cls is_item_separator) arrayText in
  filter (fun cleanItem => Nat.ltb 0 (List.length cleanItem))
         (List.map (fun line => trim (replace_all (Cls is_quote_or_bracket) [] line))
                   lines).

(** *** Vocabulary for the invariants of the analyzer *)

(** What every prefix of the batch keeps: the three tiers partition the
    answers seen so far, each lexical signal was counted at most once per
    answer that is not nonsensical, and the communication signal only on
    meaningful answers; the running [averageLength] is the word total. *)
Definition analysis_invariant (seen : N) (a : Analysis) : Prop :=
  (nonsensicalAnswers a + poorQualityAnswers a + meaningfulAnswers a = seen)%N
  /\ (technicalTerms a <= poorQualityAnswers a + meaningfulAnswers a)%N
  /\ (experienceMentions a <= poorQualityAnswers a + meaningfulAnswers a)%N
  /\ (problemSolving a <= poorQualityAnswers a + meaningfulAnswers a)%N
  /\ (specificExamples a <= poorQualityAnswers a + meaningfulAnswers a)%N
  /\ (communicationQuality a <= meaningfulAnswers a)%N
  /\ exists q, averageLength a = Num q /\ q == N2Q (totalWords a).

(** *** Example batches *)

Definition strongAnswer : str :=
  lit "I developed a React dashboard at my last job handling 10k daily users, solved a caching bug that cut load time by half, and collaborated daily with a cross-functional team.".

Definition strongBatch : list Answer := [mkAnswer 0 strongAnswer].

(** a strong answer next to a one-word answer *)
Definition spoiledBatch : list Answer :=
  [mkAnswer 0 (lit "yup"); mkAnswer 1 strongAnswer].

(** a strong answer next to a short one *)
Definition mixedBatch : list Answer :=
  [mkAnswer 0 strongAnswer; mkAnswer 1 (lit "I use React daily")].

Definition someJob : JobDetails :=
  mkJobDetails (lit "Software Engineer") (lit "Acme") (lit "React").

(** a longer answer with no technical, problem-solving or example word *)
Definition plainBatch : list Answer :=
  [mkAnswer 0 (lit "Last year my manager asked me to plan the yearly offsite, so I booked the venue and arranged travel for everyone. It went well and we stayed under budget.")].

(** counters that give the penalised scores 80, 80 and 0 with one poor
    answer *)
Definition poorAnalysis : Analysis :=
  {| totalWords := 0; averageLength := Num 0; technicalTerms := 7;
     experienceMentions := 0; problemSolving := 9; specificExamples := 0;
     communicationQuality := 1; nonsensicalAnswers := 0;
     poorQualityAnswers := 1; meaningfulAnswers := 0 |}.

(** ten words in three answers *)
Definition threeShortAnswers : list Answer :=
  [mkAnswer 0 (lit "I like clean code"); mkAnswer 1 (lit "Tests come first");
   mkAnswer 2 (lit "Ship small changes")].

End Performance.

(* ================================================================= *)
(** ** backend/src/routes/questions.ts: the smart question generator *)

Module Questions.
Import JS Regex.
Import PdfParser.

Record Question := mkQuestion { id : N; text : str; category : str }.

Record JobDetails := mkJobDetails {
  jd_title : str;
  jd_company : str;
  jd_description : str;
  jd_requirements : str
}.

Definition Q_ (id : N) (text : str) (category : string) : Question :=
  {| id := id; text := text; category := lit category |}.

Definition coreStack : list str :=
  List.map lit ["javascript"; "python"; "java"; "react"; "node.js"; "typescript"].

Definition is_core (skill : str) : bool := arr_includes coreStack (toLowerCase skill).

(** [proj.description && (... includes 'data' || ... includes 'analysis')] *)
Definition is_data_project (proj : Project) : bool :=
  match proj_description proj with
  | Some d => truthy d && (includes (toLowerCase d) (lit "data")
                           || includes (toLowerCase d) (lit "analysis"))
  | None => false
  end.

Definition is_leadership_role (exp : Job) : bool :=
  match PdfParser.title exp with
  | Some t => truthy t && (includes (toLowerCase t) (lit "lead")
                           || includes (toLowerCase t) (lit "manager"))
  | None => false
  end.

Definition getRoleSpecificQuestions (title requirements : str)
           (resumeContent : option ParsedResume) : list Question :=
  let titleLower := toLowerCase title in
  let questions : list Question := [] in
  let questions :=
    if includes titleLower (lit "software") || includes titleLower (lit "developer")
       || includes titleLower (lit "programmer")
    then
      let questions :=
        match resumeContent with
        | Some r =>
            match projects r with
            | p :: _ =>
                questions ++
                [Q_ 6 (lit "I noticed you worked on "
                       ++ or_else (proj_name p) (lit "a software project")
                       ++ lit ". Can you walk me through the technical challenges you faced and how you solved them?")
                    "Technical"]
            | [] =>
                questions ++
                [Q_ 6 (lit "Can you walk me through a complex coding problem you solved recently?")
                    "Technical"]
            end
        | None =>
            questions ++
            [Q_ 6 (lit "Can you walk me through a complex coding problem you solved recently?")
                "Technical"]
        end in
      match resumeContent with
      | Some r =>
          if existsb is_core (skills r) then
            let techSkills := filter is_core (skills r) in
            questions ++
            [Q_ 7 (lit "You mention experience with "
                   ++ join (lit " and ") (firstn 2 techSkills)
                   ++ lit ". How do you stay updated with these technologies and what recent changes have excited you?")
                "Technical"]
          else
            questions ++
            [Q_ 7 (lit "How do you stay updated with the latest technologies and programming languages?")
                "Technical"]
      | None =>
          questions ++
          [Q_ 7 (lit "How do you stay updated with the latest technologies and programming languages?")
              "Technical"]
      end
    else questions in
  let questions :=
    if includes titleLower (lit "data") || includes titleLower (lit "analyst")
       || includes titleLower (lit "scientist")
    then
      let questions :=
        match resumeContent with
        | Some r =>
            if existsb is_data_project (projects r) then
              let dataProject := find is_data_project (projects r) in
              questions ++
              [Q_ 8 (lit "Tell me about "
                     ++ or_else (match dataProject with
                                 | Some p => proj_name p
                                 | None => None
                                 end) (lit "your data project")
                     ++ lit " and the insights you discovered during your analysis.")
                  "Technical"]
            else
              questions ++
              [Q_ 8 (lit "Describe a data analysis project you worked on and the insights you discovered.")
                  "Technical"]
        | None =>
            questions ++
            [Q_ 8 (lit "Describe a data analysis project you worked on and the insights you discovered.")
                "Technical"]
        end in
      questions ++
      [Q_ 9 (lit "How do you handle large datasets and ensure data quality?") "Technical"]
    else questions in
  let questions :=
    if includes titleLower (lit "manager") || includes titleLower (lit "lead")
       || includes titleLower (lit "director")
    then
      let questions :=
        match resumeContent with
        | Some r =>
            if existsb is_leadership_role (experience r) then
              let leadershipRole := find is_leadership_role (experience r) in
              questions ++
              [Q_ 10 (lit "In your role as "
                      ++ or_else (match leadershipRole with
                                  | Some e => PdfParser.title e
                                  | None => None
                                  end) (lit "a team lead")
                      ++ lit ", tell me about a time when you had to lead your team through a difficult project.")
                  "Leadership"]
            else
              questions ++
              [Q_ 10 (lit "Tell me about a time when you had to lead a team through a difficult project.")
                  "Leadership"]
        | None =>
            questions ++
            [Q_ 10 (lit "Tell me about a time when you had to lead a team through a difficult project.")
                "Leadership"]
        end in
      questions ++
      [Q_ 11 (lit "How do you motivate team members and handle underperforming employees?")
          "Leadership"]
    else questions in
  questions.

Definition baseQuestions (jobDetails : JobDetails)
           (resumeContent : option ParsedResume) : list Question :=
  let title := jd_title jobDetails in
  let company := jd_company jobDetails in
  let generic1 :=
    lit "Can you tell me about your experience with the technologies and skills required for the "
    ++ title ++ lit " position?" in
  let generic2 :=
    lit "What challenges have you faced in your previous projects and how did you overcome them?" in
  let generic4 :=
    lit "Describe a situation where you had to work with a difficult team member or resolve a conflict." in
  [ Q_ 1 (match resumeContent with
          | Some r =>
              if Nat.ltb 0 (List.length (skills r))
              then lit "I see you have experience with "
                   ++ join (lit ", ") (firstn 3 (skills r))
                   ++ lit ". Can you elaborate on how you've used these skills in your previous work?"
              else generic1
          | None => generic1
          end) "Technical";
    Q_ 2 (match resumeContent with
          | Some r =>
              match projects r with
              | p :: _ =>
                  lit "Tell me about "
                  ++ or_else (proj_name p) (lit "one of your projects")
                  ++ lit ". What challenges did you face and how did you overcome them?"
              | [] => generic2
              end
          | None => generic2
          end) "Behavioral";
    Q_ 3 (lit "Why are you interested in joining " ++ company
          ++ lit " and what excites you about this " ++ title ++ lit " role?")
         "Motivation";
    Q_ 4 (match resumeContent with
          | Some r =>
              match experience r with
              | e :: _ =>
                  lit "In your role as "
                  ++ or_else (PdfParser.title e) (lit "your previous position")
                  ++ lit ", describe a situation where you had to work with a difficult team member or resolve a conflict."
              | [] => generic4
              end
          | None => generic4
          end) "Behavioral";
    Q_ 5 (lit "What are your career goals for the next 3-5 years and how does this position align with them?")
         "Career" ].

(** *** createInterviewPrompt *)

Definition promptHead (jobDetails : JobDetails) : str :=
  lit "Generate 5 interview questions for a " ++ jd_title jobDetails
  ++ lit " position at " ++ jd_company jobDetails ++ lit ".".

Definition promptTail : str :=
  lit " Questions should cover: 1. Technical skills (especially those mentioned in resume) 2. Behavioral situations 3. Motivation 4. Problem solving 5. Experience-based scenarios. Tailor questions to the candidate's background. Format as JSON array with id, text, and category fields.".

Definition resumePart (r : ParsedResume) : str :=
  let prompt := lit " Based on the candidate's resume information:" in
  let prompt :=
    if Nat.ltb 0 (List.length (skills r))
    then prompt ++ lit " Skills: " ++ join (lit ", ") (skills r) ++ lit "."
    else prompt in
  let prompt :=
    if Nat.ltb 0 (List.length (experience r)) then
      let experienceText :=
        join (lit ", ")
          (List.map (fun exp => or_else (PdfParser.title exp) (lit "Role") ++ lit " at "
                                ++ or_else (company exp) (lit "Company"))
             (filter (fun exp => truthy_opt (PdfParser.title exp)
                                 || truthy_opt (company exp))
                     (experience r))) in
      prompt ++ lit " Experience: " ++ experienceText ++ lit "."
    else prompt in
  let prompt :=
    if Nat.ltb 0 (List.length (projects r)) then
      let projectsText :=
        join (lit ", ")
          (List.map (fun proj => show_opt (proj_name proj))
             (filter (fun proj => truthy_opt (proj_name proj)) (projects r))) in
      prompt ++ lit " Projects: " ++ projectsText ++ lit "."
    else prompt in
  let prompt :=
    if Nat.ltb 0 (List.length (education r)) then
      let educationText :=
        join (lit ", ")
          (List.map (fun edu => or_else (degree edu) (lit "Degree") ++ lit " from "
                                ++ or_else (institution edu) (lit "Institution"))
             (filter (fun edu => truthy_opt (degree edu) || truthy_opt (institution edu))
                     (education r))) in
      prompt ++ lit " Education: " ++ educationText ++ lit "."
    else prompt in
  prompt.

Definition createInterviewPrompt (resumeContent : option ParsedResume)
           (jobDetails : JobDetails) : str :=
  let prompt := promptHead jobDetails in
  let prompt :=
    if truthy (jd_description jobDetails)
    then prompt ++ lit " Job description: " ++ jd_description jobDetails ++ lit "."
    else prompt in
  let prompt :=
    if truthy (jd_requirements jobDetails)
    then prompt ++ lit " Job requirements: " ++ jd_requirements jobDetails ++ lit "."
    else prompt in
  let prompt :=
    match resumeContent with
    | Some r => prompt ++ resumePart r
    | None => prompt
    end in
  prompt ++ promptTail.

Definition generateSmartQuestions (jobDetails : JobDetails)
           (resumeContent : option ParsedResume) : list Question :=
  let roleSpecificQuestions :=
    getRoleSpecificQuestions (jd_title jobDetails) (jd_requirements jobDetails)
                             resumeContent in
  firstn 5 (baseQuestions jobDetails resumeContent ++ roleSpecificQuestions).

End Questions.

(* ================================================================= *)
(** ** Inputs of the scenarios *)

Module Scenarios.
Import JS PdfParser.

(** A set of extractors in which the third one throws. *)
Definition throwingExperience : Extractors := {|
  run_extractPersonalInfo := fun lines => inr (extractPersonalInfo lines);
  run_extractSkills := fun text lines => inr (extractSkills text lines);
  run_extractExperience := fun _ => inl (Error (lit "boom"));
  run_extractProjects := fun lines => inr (extractProjects lines);
  run_extractEducation := fun lines => inr (extractEducation lines);
  run_extractCertifications := fun lines => inr (extractCertifications lines);
  run_extractLanguages := fun lines => inr (extractLanguages lines)
|}.

(** The seven-line resume. *)
Definition sevenLines : str := lit "John Doe
john@x.com
+1 555-123-4567
Skills
Python, React, AWS
Experience
Software Engineer at Acme - Built internal tools".

(** A skill named in the skills section and again, in lower case, in a
    bullet of the projects section. *)
Definition sectionAndBullet : str := lit "Skills
Python, React
Projects
- python, flask".

(** The same skill twice in one line of the skills section. *)
Definition twoCasings : str := lit "Skills
Python, python".

(** A skills section with a bulleted line (the bullet is U+2022), and a
    skill named in the running text. *)
Definition bulletedSkills : str :=
  lit "Skills" ++ [10; 8226; 32] ++ lit "React, Docker" ++ [10]
  ++ lit "python at work".

(** A dated line with a job keyword under an experience header. *)
Definition datedTitle : list str := [lit "Experience"; lit "2020 Developer"].

Definition inventoryTracker : Project :=
  {| proj_name := Some (lit "Inventory Tracker"); proj_description := None;
     proj_technologies := None |}.

Definition inventoryResume : ParsedResume :=
  {| personalInfo := emptyPersonalInfo; skills := []; experience := [];
     projects := [inventoryTracker]; education := []; certifications := [];
     languages := [] |}.

Definition softwareEngineerJob : Questions.JobDetails :=
  Questions.mkJobDetails (lit "Software Engineer") (lit "Acme") (lit "") (lit "").

End Scenarios.

(* ================================================================= *)
(** * Properties *)

(** ** Strings and sets of strings *)

Section StringFacts.
Import JS.

Lemma eqb_eq (a b : str) : eqb a b = true <-> a = b.
Proof.
  revert b; induction a as [|x a IH]; intros [|y b]; simpl; split;
    try congruence; try reflexivity.
  - intros H. apply andb_true_iff in H as [Hx Hab].
    apply N.eqb_eq in Hx. apply IH in Hab. congruence.
  - intros H. injection H as -> ->.
    apply andb_true_iff; split; [apply N.eqb_refl | now apply IH].
Qed.

Lemma mem_In (x : str) (l : list str) : mem x l = true <-> In x l.
Proof.
  unfold mem. rewrite existsb_exists. split.
  - intros (y & Hy & E). apply eqb_eq in E. now subst.
  - intros H. exists x. split; [assumption | now apply eqb_eq].
Qed.

Lemma set_add_all_sound (l seen : list str) (x : str) :
  In x (set_add_all seen l) -> In x l /\ ~ In x seen.
Proof.
  revert seen; induction l as [|y l IH]; intros seen; simpl; [tauto|].
  destruct (mem y seen) eqn:E.
  - intros H. apply IH in H. tauto.
  - intros [-> | H].
    + split; [now left|]. intros Hin. apply mem_In in Hin. congruence.
    + apply IH in H as [H1 H2]. split; [now right|].
      intros Hin. apply H2. now right.
Qed.

Lemma set_add_all_NoDup (l seen : list str) : NoDup (set_add_all seen l).
Proof.
  revert seen; induction l as [|y l IH]; intros seen; simpl; [constructor|].
  destruct (mem y seen); [apply IH|].
  constructor; [|apply IH].
  intros H. apply set_add_all_sound in H as [_ H]. apply H. now left.
Qed.

Lemma new_Set_NoDup (l : list str) : NoDup (new_Set l).
Proof. apply set_add_all_NoDup. Qed.

Lemma new_Set_subset (l : list str) (x : str) : In x (new_Set l) -> In x l.
Proof. intros H. now apply set_add_all_sound in H. Qed.

Lemma dropWhile_nil (p : N -> bool) (s : str) :
  dropWhile p s = [] <-> forallb p s = true.
Proof.
  induction s as [|c s IH]; simpl; [tauto|].
  destruct (p c); simpl; [exact IH|]. split; discriminate.
Qed.

Lemma dropWhile_head (p : N -> bool) (s : str) (c : N) (s' : str) :
  dropWhile p s = c :: s' -> p c = false.
Proof.
  induction s as [|x s IH]; simpl; [discriminate|].
  destruct (p x) eqn:E; [exact IH|]. intros H. injection H as -> _. exact E.
Qed.

(** [trim] leaves nothing exactly when every unit is white space. *)
Lemma trim_nil (s : str) : trim s = [] <-> forallb is_space s = true.
Proof.
  unfold trim, trimEnd, trimStart. split.
  - intros H. apply dropWhile_nil.
    destruct (dropWhile is_space s) as [|c s'] eqn:E; [reflexivity|].
    exfalso. pose proof (dropWhile_head _ _ _ _ E) as Hc.
    assert (Hr : dropWhile is_space (rev (c :: s')) = []).
    { apply (f_equal (@rev N)) in H. rewrite rev_involutive in H. exact H. }
    apply dropWhile_nil in Hr. simpl in Hr. rewrite forallb_app in Hr.
    apply andb_true_iff in Hr as [_ Hr]. simpl in Hr. rewrite Hc in Hr. discriminate.
  - intros H. apply dropWhile_nil in H. rewrite H. reflexivity.
Qed.

End StringFacts.

(* ================================================================= *)
(** ** The regex matcher on the patterns of the source *)

Section RegexExamples.
Import JS Regex PdfParser Scenarios.

Example split_on_white_space :
  split (Plus (Cls is_space)) (lit "a  b c") = List.map lit ["a"; "b"; "c"].
Proof. vm_compute; reflexivity. Qed.

Example split_keeps_trailing_empty_piece :
  split Performance.sentenceEnd (lit "a team.") = List.map lit ["a team"; ""].
Proof. vm_compute; reflexivity. Qed.

Example split_on_skill_separators :
  split (Plus (Cls sep_cls)) (lit "- python, flask")
  = List.map lit [""; " python"; " flask"].
Proof. vm_compute; reflexivity. Qed.

Example split_job_line :
  split SimpleParser.jobSeparator
        (lit "Software Engineer at Acme - Built internal tools")
  = List.map lit ["Software Engineer"; "Acme"; "Built internal tools"].
Proof. vm_compute; reflexivity. Qed.

Example phone_match :
  match0 phonePattern (lit "call +1 555-123-4567 now")
  = Some (lit "+1 555-123-4567 ").
Proof. vm_compute; reflexivity. Qed.

Example email_match :
  match0 emailPattern (lit "mail: john.doe@x.co.uk, thanks")
  = Some (lit "john.doe@x.co.uk").
Proof. vm_compute; reflexivity. Qed.

Example bullets_of_sevenLines :
  match_all bulletPattern sevenLines
  = List.map lit ["-123-4567"; "- Built internal tools"].
Proof. vm_compute; reflexivity. Qed.

Example title_case :
  test titleCasePattern (lit "Software Engineer") = true
  /\ test titleCasePattern (lit "Software Engineer at Acme") = false
  /\ test allCapsPattern (lit "ACME CORP") = true
  /\ test jobKeywordPattern (lit "Senior ENGINEER") = true.
Proof. repeat split; vm_compute; reflexivity. Qed.

Example duration_match :
  match0 durationPattern (lit "Developer 2019 - 2021 (Pune)") = Some (lit "2019 - 2021")
  /\ match0 durationPattern (lit "Developer 2019 - Present") = Some (lit "2019 - Present")
  /\ cleanJobTitle (lit "Senior  Developer (Web) 2019 - 2021") = lit "Senior Developer Web".
Proof. repeat split; vm_compute; reflexivity. Qed.

Example nonsensical_answers :
  Performance.isNonsensicalAnswer (lit "yup") 1 = true
  /\ Performance.isNonsensicalAnswer (lit "12 34") 2 = true
  /\ Performance.isNonsensicalAnswer (lit "nooo way") 2 = true
  /\ Performance.isNonsensicalAnswer (lit "i use react daily") 4 = false.
Proof. repeat split; vm_compute; reflexivity. Qed.

End RegexExamples.

(* ================================================================= *)
(** ** The resume extractor *)

Section ParserFacts.
Import JS PdfParser Scenarios.

Lemma languages_loop_vocabulary (lines : list str) (inSec : bool) (acc : list str) :
  Forall (fun l => In l commonLanguages) acc ->
  Forall (fun l => In l commonLanguages) (languages_loop inSec acc lines).
Proof.
  revert inSec acc; induction lines as [|line rest IH]; intros inSec acc Hacc;
    cbn [languages_loop]; [exact Hacc|].
  destruct (some_in languageKeywords (toLowerCase line)); [now apply IH|].
  destruct (negb inSec); [now apply IH|].
  destruct (includes (toLowerCase line) (lit "education")
            || includes (toLowerCase line) (lit "experience")
            || includes (toLowerCase line) (lit "skills")); [exact Hacc|].
  apply IH. apply Forall_app. split; [exact Hacc|].
  apply Forall_forall. intros l Hl. apply filter_In in Hl. tauto.
Qed.

Lemma commonLanguages_lowercase :
  Forall (fun l => toLowerCase l = l) commonLanguages.
Proof. repeat constructor. Qed.

(** C10: every element of the list that [extractLanguages] returns is one
    of the nine vocabulary words, in the all-lowercase spelling of the
    vocabulary (the line's own casing is not kept), and the list has no
    duplicates.  The last part shows it on a section whose line spells
    the languages in capitals. *)
Theorem extractLanguages_vocabulary_nodup :
  forall lines : list str,
    Forall (fun l => In l commonLanguages) (extractLanguages lines)
    /\ Forall (fun l => toLowerCase l = l) (extractLanguages lines)
    /\ NoDup (extractLanguages lines)
    /\ commonLanguages
       = List.map lit ["english"; "spanish"; "french"; "german"; "chinese";
                       "japanese"; "korean"; "hindi"; "arabic"]
    /\ extractLanguages [lit "Languages"; lit "English, FRENCH"; lit "french (fluent)"]
       = [lit "english"; lit "french"].
Proof.
  intros lines.
  assert (Hv : Forall (fun l => In l commonLanguages) (extractLanguages lines)).
  { unfold extractLanguages. apply Forall_forall. intros l Hl.
    apply new_Set_subset in Hl.
    pose proof (languages_loop_vocabulary lines false [] (Forall_nil _)) as H.
    rewrite Forall_forall in H. now apply H. }
  split; [exact Hv|]. split.
  - apply Forall_forall. intros l Hl. rewrite Forall_forall in Hv.
    pose proof commonLanguages_lowercase as Hc. rewrite Forall_forall in Hc.
    apply Hc, Hv, Hl.
  - split; [apply new_Set_NoDup|]. split; reflexivity.
Qed.

(** What [assemble] returns, field by field: the value of an extractor
    counts when it and all extractors before it returned. *)
Lemma assemble_fields (X : Extractors) (text : str) (lines : list str) :
  let e1 := run_extractPersonalInfo lines in
  let e2 := run_extractSkills text lines in
  let e3 := run_extractExperience lines in
  let e4 := run_extractProjects lines in
  let e5 := run_extractEducation lines in
  let e6 := run_extractCertifications lines in
  let e7 := run_extractLanguages lines in
  let r := assemble text lines in
  personalInfo r = field_after true e1 emptyPersonalInfo
  /\ skills r = field_after (returned e1) e2 []
  /\ experience r = field_after (returned e1 && returned e2) e3 []
  /\ projects r = field_after (returned e1 && returned e2 && returned e3) e4 []
  /\ education r
     = field_after (returned e1 && returned e2 && returned e3 && returned e4) e5 []
  /\ certifications r
     = field_after (returned e1 && returned e2 && returned e3 && returned e4
                    && returned e5) e6 []
  /\ languages r
     = field_after (returned e1 && returned e2 && returned e3 && returned e4
                    && returned e5 && returned e6) e7 [].
Proof.
  unfold assemble; cbv zeta.
  destruct (run_extractPersonalInfo lines); [repeat split|].
  destruct (run_extractSkills text lines); [repeat split|].
  destruct (run_extractExperience lines); [repeat split|].
  destruct (run_extractProjects lines); [repeat split|].
  destruct (run_extractEducation lines); [repeat split|].
  destruct (run_extractCertifications lines); [repeat split|].
  destruct (run_extractLanguages lines); repeat split.
Qed.

Lemma guard_blank (text : str) :
  negb (truthy text) || Nat.eqb (List.length (trim text)) 0 = forallb is_space text.
Proof.
  destruct text as [|c text]; [reflexivity|].
  change (negb (truthy (c :: text))) with false. rewrite orb_false_l.
  destruct (forallb is_space (c :: text)) eqn:E.
  - apply trim_nil in E. rewrite E. reflexivity.
  - destruct (trim (c :: text)) eqn:T; [|reflexivity].
    apply trim_nil in T. congruence.
Qed.

(** C1: for an input whose trimmed content is not empty, the call returns
    a record (it does not throw), whatever the seven extractors do: when
    one of them throws, the record holds the values of the extractors that
    returned before it and the empty defaults from there on.  With the
    extractors of the source file, all seven fields hold their
    extractor's value. *)
Theorem parseResumeContent_returns_record :
  forall (X : Extractors) (text : str),
    trim text <> [] ->
    exists r : ParsedResume,
      parseResumeContentWith (H := X) text = inr r
      /\ (let lines := split_lines text in
          let e1 := run_extractPersonalInfo lines in
          let e2 := run_extractSkills text lines in
          let e3 := run_extractExperience lines in
          let e4 := run_extractProjects lines in
          let e5 := run_extractEducation lines in
          let e6 := run_extractCertifications lines in
          let e7 := run_extractLanguages lines in
          personalInfo r = field_after true e1 emptyPersonalInfo
          /\ skills r = field_after (returned e1) e2 []
          /\ experience r = field_after (returned e1 && returned e2) e3 []
          /\ projects r = field_after (returned e1 && returned e2 && returned e3) e4 []
          /\ education r
             = field_after (returned e1 && returned e2 && returned e3 && returned e4) e5 []
          /\ certifications r
             = field_after (returned e1 && returned e2 && returned e3 && returned e4
                            && returned e5) e6 []
          /\ languages r
             = field_after (returned e1 && returned e2 && returned e3 && returned e4
                            && returned e5 && returned e6) e7 [])
      /\ parseResumeContent text
         = inr {| personalInfo := extractPersonalInfo (split_lines text);
                  skills := extractSkills text (split_lines text);
                  experience := extractExperience (split_lines text);
                  projects := extractProjects (split_lines text);
                  education := extractEducation (split_lines text);
                  certifications := extractCertifications (split_lines text);
                  languages := extractLanguages (split_lines text) |}.
Proof.
  intros X text Hne.
  assert (Hb : forallb is_space text = false).
  { destruct (forallb is_space text) eqn:E; [|reflexivity].
    apply trim_nil in E. contradiction. }
  exists (assemble text (split_lines text)).
  split; [|split].
  - unfold parseResumeContentWith. rewrite guard_blank, Hb. reflexivity.
  - apply assemble_fields.
  - unfold parseResumeContent, parseResumeContentWith.
    rewrite guard_blank, Hb. reflexivity.
Qed.

Lemma parseResumeContent_returns_record_witness :
  trim (lit " John Doe ") <> []
  /\ exists r : ParsedResume,
       parseResumeContentWith (H := throwingExperience) (lit " John Doe ") = inr r
       /\ name (personalInfo r) = Some (lit "John Doe")
       /\ projects r = [].
Proof.
  split; [discriminate|].
  destruct (parseResumeContent_returns_record throwingExperience (lit " John Doe "))
    as (r & Hr & Hf & _); [discriminate|].
  exists r. split; [exact Hr|].
  cbv zeta in Hf. destruct Hf as (Hp & _ & _ & Hpr & _).
  split; [rewrite Hp | rewrite Hpr]; reflexivity.
Defined.

(** C4: the call throws exactly when the text is empty or all white
    space, the error then being the empty-text error; on every other text
    it returns a record, also when extractors throw. *)
Theorem parseResumeContent_throws_iff_blank :
  forall (X : Extractors) (text : str),
    (forallb is_space text = true
     <-> exists e, parseResumeContentWith (H := X) text = inl e)
    /\ (forallb is_space text = true
        <-> parseResumeContentWith (H := X) text = inl emptyTextError)
    /\ (forallb is_space text = false
        <-> exists r, parseResumeContentWith (H := X) text = inr r)
    /\ (forallb is_space text = true <-> trim text = []).
Proof.
  intros X text. unfold parseResumeContentWith. rewrite guard_blank.
  destruct (forallb is_space text) eqn:E.
  - repeat split; intros; try reflexivity; try discriminate.
    + now exists emptyTextError.
    + destruct H as [r Hr]. discriminate.
    + now apply trim_nil.
  - repeat split; intros; try reflexivity; try discriminate.
    + destruct H as [e He]. discriminate.
    + eexists; reflexivity.
    + apply trim_nil in H. congruence.
Qed.

End ParserFacts.

(* ================================================================= *)
(** ** Rounding to the nearest double *)

Section NumberFacts.
Import Performance.
Local Open Scope Q_scope.

Lemma round_half_even_floor (x : Q) :
  (Qfloor x <= round_half_even x <= Qfloor x + 1)%Z.
Proof.
  unfold round_half_even.
  destruct (Qcompare _ _); [destruct (Z.even _)| |]; lia.
Qed.

Lemma round_half_even_le (x : Q) (n : Z) :
  x <= inject_Z n -> (round_half_even x <= n)%Z.
Proof.
  intros H.
  pose proof (Qfloor_le x) as Hf.
  assert (Hfn : (Qfloor x <= n)%Z).
  { rewrite Zle_Qle. lra. }
  destruct (Z.eq_dec (Qfloor x) n) as [E|E].
  - unfold round_half_even.
    assert (Hx : x - inject_Z (Qfloor x) < 1 # 2) by (rewrite E; lra).
    rewrite Qlt_alt in Hx. rewrite Hx. lia.
  - pose proof (round_half_even_floor x). lia.
Qed.

Lemma round_half_even_ge (x : Q) (n : Z) :
  inject_Z n <= x -> (n <= round_half_even x)%Z.
Proof.
  intros H.
  assert (Hfn : (n <= Qfloor x)%Z).
  { rewrite <- (Qfloor_Z n). apply Qfloor_resp_le. exact H. }
  pose proof (round_half_even_floor x). lia.
Qed.

Lemma round_half_even_Z (n : Z) : round_half_even (inject_Z n) = n.
Proof.
  apply Z.le_antisymm.
  - apply round_half_even_le. lra.
  - apply round_half_even_ge. lra.
Qed.

Lemma round_half_even_near (x : Q) :
  Qabs (inject_Z (round_half_even x) - x) <= 1 # 2.
Proof.
  pose proof (Qfloor_le x) as Hl. pose proof (Qlt_floor x) as Hu.
  rewrite inject_Z_plus in Hu. change (inject_Z 1) with 1 in Hu.
  apply Qabs_Qle_condition. unfold round_half_even.
  destruct (Qcompare (x - inject_Z (Qfloor x)) (1 # 2)) eqn:E.
  - apply Qeq_alt in E.
    destruct (Z.even (Qfloor x)).
    + split; lra.
    + rewrite inject_Z_plus. change (inject_Z 1) with 1. split; lra.
  - apply Qlt_alt in E. split; lra.
  - apply Qgt_alt in E. rewrite inject_Z_plus. change (inject_Z 1) with 1.
    split; lra.
Qed.

Lemma round_half_even_comp (x y : Q) :
  x == y -> round_half_even x = round_half_even y.
Proof.
  intros E. unfold round_half_even.
  rewrite (Qfloor_comp x y E).
  assert (E' : x - inject_Z (Qfloor y) == y - inject_Z (Qfloor y))
    by (rewrite E; reflexivity).
  rewrite (Qcompare_comp _ _ E' (1#2) (1#2) (Qeq_refl _)). reflexivity.
Qed.

(** Powers of two. *)
Lemma pow2_pos (k : Z) : 0 < 2 ^ k.
Proof. apply Qpower_0_lt. reflexivity. Qed.

Lemma pow2_succ (k : Z) : 2 ^ (k + 1) == 2 * 2 ^ k.
Proof. rewrite Qpower_plus by discriminate. change (2 ^ 1) with 2. ring. Qed.

Lemma pow2_pred (k : Z) : 2 * 2 ^ (k - 1) == 2 ^ k.
Proof.
  rewrite <- pow2_succ. replace (k - 1 + 1)%Z with k by lia. reflexivity.
Qed.

Lemma pow2_log2 (n : Z) :
  (0 < n)%Z -> 2 ^ Z.log2 n <= inject_Z n /\ inject_Z n < 2 * 2 ^ Z.log2 n.
Proof.
  intros Hn. destruct (Z.log2_spec n Hn) as [Hl Hu].
  pose proof (Z.log2_nonneg n) as H0.
  rewrite <- pow2_succ.
  change 2 with (inject_Z 2).
  rewrite <- !Zpower_Qpower by lia.
  rewrite <- Zle_Qle, <- Zlt_Qlt. split; [exact Hl|].
  replace (Z.log2 n + 1)%Z with (Z.succ (Z.log2 n)) by lia. exact Hu.
Qed.

Lemma Q_as_quotient (q : Q) :
  q * inject_Z (Zpos (Qden q)) == inject_Z (Qnum q).
Proof.
  destruct q as [n d]. unfold Qeq, Qmult, inject_Z. simpl. lia.
Qed.

Lemma binade_spec (q : Q) :
  0 < q -> 2 ^ binade q <= q /\ q < 2 ^ (binade q + 1).
Proof.
  intros Hq. unfold binade.
  set (k := (Z.log2 (Qnum q) - Z.log2 (Zpos (Qden q)))%Z).
  assert (Hn : (0 < Qnum q)%Z).
  { destruct q as [n d]. unfold Qlt in Hq. simpl in *. lia. }
  destruct (pow2_log2 (Qnum q) Hn) as [Hnl Hnu].
  destruct (pow2_log2 (Zpos (Qden q)) ltac:(lia)) as [Hdl Hdu].
  pose proof (Q_as_quotient q) as Eq.
  assert (Ek : 2 ^ k * 2 ^ Z.log2 (Zpos (Qden q)) == 2 ^ Z.log2 (Qnum q)).
  { rewrite <- Qpower_plus by discriminate.
    replace (k + Z.log2 (Z.pos (Qden q)))%Z with (Z.log2 (Qnum q)) by (unfold k; lia).
    reflexivity. }
  pose proof (pow2_pos k) as Pk.
  pose proof (pow2_pos (Z.log2 (Zpos (Qden q)))) as Pd.
  pose proof (pow2_pos (Z.log2 (Qnum q))) as Pn.
  destruct (Qle_bool (2 ^ k) q) eqn:B.
  - apply Qle_bool_iff in B. split; [exact B|].
    rewrite pow2_succ.
    revert Hnl Hnu Hdl Hdu Eq Ek Pk Pd Pn Hq.
    generalize (2 ^ k) (2 ^ Z.log2 (Zpos (Qden q))) (2 ^ Z.log2 (Qnum q))
               (inject_Z (Qnum q)) (inject_Z (Zpos (Qden q))).
    intros K D N n d. intros. nra.
  - assert (B' : q < 2 ^ k).
    { apply Qnot_le_lt. intros H. apply Qle_bool_iff in H. congruence. }
    replace (k - 1 + 1)%Z with k by lia. split; [|exact B'].
    pose proof (pow2_pred k) as Ep. pose proof (pow2_pos (k - 1)) as Pp.
    revert Hnl Hnu Hdl Hdu Eq Ek Pk Pd Pn Hq Ep Pp.
    generalize (2 ^ k) (2 ^ (k - 1)) (2 ^ Z.log2 (Zpos (Qden q))) (2 ^ Z.log2 (Qnum q))
               (inject_Z (Qnum q)) (inject_Z (Zpos (Qden q))).
    intros K K' D N n d. intros. nra.
Qed.

Lemma binade_unique (q : Q) (e : Z) :
  2 ^ e <= q -> q < 2 ^ (e + 1) -> binade q = e.
Proof.
  intros Hl Hu.
  assert (Hq : 0 < q) by (pose proof (pow2_pos e); lra).
  destruct (binade_spec q Hq) as [Bl Bu].
  assert (H1 : (binade q < e + 1)%Z).
  { apply (Qpower_lt_compat_l_inv 2); [|reflexivity]. lra. }
  assert (H2 : (e < binade q + 1)%Z).
  { apply (Qpower_lt_compat_l_inv 2); [|reflexivity]. lra. }
  lia.
Qed.

Lemma binade_comp_pos : forall q q', q == q' -> 0 < q -> binade q = binade q'.
Proof.
  intros q q' E Hq. symmetry. destruct (binade_spec q Hq) as [Bl Bu].
  apply binade_unique; rewrite <- E; assumption.
Qed.

Lemma round_magnitude_comp (q q' : Q) :
  q == q' -> 0 < q -> round_magnitude q == round_magnitude q'.
Proof.
  intros E Hq. unfold round_magnitude.
  rewrite <- (binade_comp_pos q q' E Hq).
  set (e := Z.max (binade q) (-1022)).
  assert (R : round_half_even (q * 2 ^ (52 - e)) = round_half_even (q' * 2 ^ (52 - e))).
  { apply round_half_even_comp. apply Qmult_comp; [exact E | reflexivity]. }
  rewrite R. reflexivity.
Qed.

Lemma Qnum_sign (q : Q) :
  match Qnum q with
  | Z0 => q == 0
  | Zpos _ => 0 < q
  | Zneg _ => q < 0
  end.
Proof. destruct q as [[|n|n] d]; unfold Qeq, Qlt; simpl; lia. Qed.

Lemma double_zero (q : Q) : q == 0 -> double q = 0.
Proof.
  intros E. unfold double. pose proof (Qnum_sign q) as S.
  destruct (Qnum q); [reflexivity | lra | lra].
Qed.

Lemma double_pos (q : Q) : 0 < q -> double q = round_magnitude q.
Proof.
  intros E. unfold double. pose proof (Qnum_sign q) as S.
  destruct (Qnum q); [lra | reflexivity | lra].
Qed.

Lemma double_neg (q : Q) : q < 0 -> double q = - round_magnitude (- q).
Proof.
  intros E. unfold double. pose proof (Qnum_sign q) as S.
  destruct (Qnum q); [lra | lra | reflexivity].
Qed.

Lemma double_comp (q q' : Q) : q == q' -> double q == double q'.
Proof.
  intros E.
  destruct (Q_dec 0 q) as [[H|H]|H].
  - rewrite (double_pos q H), (double_pos q') by (rewrite <- E; exact H).
    apply round_magnitude_comp; assumption.
  - rewrite (double_neg q H), (double_neg q') by (rewrite <- E; exact H).
    apply Qopp_comp. apply round_magnitude_comp; [rewrite E; reflexivity | lra].
  - rewrite (double_zero q), (double_zero q') by (rewrite <- ?E; symmetry; exact H).
    reflexivity.
Qed.

Lemma round_magnitude_nonneg (q : Q) : 0 <= q -> 0 <= round_magnitude q.
Proof.
  intros Hq. unfold round_magnitude.
  set (e := Z.max (binade q) (-1022)).
  pose proof (pow2_pos (52 - e)) as P1. pose proof (pow2_pos (e - 52)) as P2.
  assert (H : (0 <= round_half_even (q * 2 ^ (52 - e)))%Z).
  { apply round_half_even_ge. change (inject_Z 0) with 0. nra. }
  rewrite Zle_Qle in H. change (inject_Z 0) with 0 in H. nra.
Qed.

(** Rounding keeps the sign. *)
Lemma double_nonneg (q : Q) : 0 <= q -> 0 <= double q.
Proof.
  intros Hq. destruct (Qle_lt_or_eq _ _ Hq) as [H|H].
  - rewrite (double_pos q H). apply round_magnitude_nonneg. exact Hq.
  - rewrite (double_zero q) by (symmetry; exact H). lra.
Qed.

Lemma double_nonpos (q : Q) : q <= 0 -> double q <= 0.
Proof.
  intros Hq. destruct (Qle_lt_or_eq _ _ Hq) as [H|H].
  - rewrite (double_neg q H).
    pose proof (round_magnitude_nonneg (- q) ltac:(lra)). lra.
  - rewrite (double_zero q) by exact H. lra.
Qed.

Lemma pow2_cancel (a : Z) : 2 ^ a * 2 ^ (- a) == 1.
Proof.
  rewrite <- Qpower_plus by discriminate.
  replace (a + - a)%Z with 0%Z by lia. reflexivity.
Qed.

(** A multiple of the unit in the last place bounds the rounded value as
    it bounds the exact one. *)
Lemma round_magnitude_le (q : Q) (n : Z) :
  0 < q -> (binade q <= 52)%Z -> q <= inject_Z n -> round_magnitude q <= inject_Z n.
Proof.
  intros Hq He Hn. unfold round_magnitude.
  set (e := Z.max (binade q) (-1022)).
  assert (He' : (0 <= 52 - e)%Z) by lia.
  pose proof (pow2_pos (52 - e)) as P1. pose proof (pow2_pos (e - 52)) as P2.
  pose proof (pow2_cancel (52 - e)) as C.
  replace (- (52 - e))%Z with (e - 52)%Z in C by lia.
  assert (H : (round_half_even (q * 2 ^ (52 - e)) <= n * 2 ^ (52 - e))%Z).
  { apply round_half_even_le. rewrite inject_Z_mult.
    rewrite (Zpower_Qpower 2 (52 - e) He'). change (inject_Z 2) with 2. nra. }
  rewrite Zle_Qle, inject_Z_mult, (Zpower_Qpower 2 (52 - e) He') in H.
  change (inject_Z 2) with 2 in H.
  revert H C P1 P2.
  generalize (inject_Z (round_half_even (q * 2 ^ (52 - e)))) (2 ^ (52 - e)) (2 ^ (e - 52)).
  intros r u v. intros. nra.
Qed.

Lemma binade_le (q : Q) (k : Z) : 0 < q -> q < 2 ^ (k + 1) -> (binade q <= k)%Z.
Proof.
  intros Hq Hk. destruct (binade_spec q Hq) as [Bl _].
  assert (H : (binade q < k + 1)%Z).
  { apply (Qpower_lt_compat_l_inv 2); [|reflexivity]. lra. }
  lia.
Qed.

(** An integer of at most 53 bits bounds the rounded value as it bounds
    the exact one. *)
Lemma double_le_Z (q : Q) (n : Z) :
  (0 <= n < 2 ^ 53)%Z -> q <= inject_Z n -> double q <= inject_Z n.
Proof.
  intros [Hpos Hn] Hq.
  destruct (Q_dec 0 q) as [[H|H]|H].
  - rewrite (double_pos q H). apply round_magnitude_le; [exact H | | exact Hq].
    apply binade_le; [exact H|].
    apply Qle_lt_trans with (1 := Hq).
    change (2 ^ (52 + 1)) with (inject_Z (2 ^ 53)). rewrite <- Zlt_Qlt. exact Hn.
  - pose proof (double_nonpos q ltac:(lra)) as D.
    rewrite Zle_Qle in Hpos. change (inject_Z 0) with 0 in Hpos. lra.
  - rewrite (double_zero q) by (symmetry; exact H).
    rewrite Zle_Qle in Hpos. exact Hpos.
Qed.

(** Integers of at most 53 bits are doubles. *)
Lemma double_Z (n : Z) : (Z.abs n < 2 ^ 53)%Z -> double (inject_Z n) == inject_Z n.
Proof.
  assert (Pos : forall m, (0 < m < 2 ^ 53)%Z -> round_magnitude (inject_Z m) == inject_Z m).
  { intros m [H0 H1]. unfold round_magnitude.
    assert (Hq : 0 < inject_Z m) by (change 0 with (inject_Z 0); rewrite <- Zlt_Qlt; exact H0).
    assert (He : (binade (inject_Z m) <= 52)%Z).
    { apply binade_le; [exact Hq|].
      change (2 ^ (52 + 1)) with (inject_Z (2 ^ 53)). rewrite <- Zlt_Qlt. exact H1. }
    set (e := Z.max (binade (inject_Z m)) (-1022)).
    assert (He' : (0 <= 52 - e)%Z) by lia.
    assert (R : round_half_even (inject_Z m * 2 ^ (52 - e)) = (m * 2 ^ (52 - e))%Z).
    { rewrite <- (round_half_even_Z (m * 2 ^ (52 - e))).
      apply round_half_even_comp.
      rewrite inject_Z_mult, (Zpower_Qpower 2 (52 - e) He'). reflexivity. }
    rewrite R, inject_Z_mult, (Zpower_Qpower 2 (52 - e) He').
    change (inject_Z 2) with 2.
    pose proof (pow2_cancel (52 - e)) as C.
    replace (- (52 - e))%Z with (e - 52)%Z in C by lia.
    rewrite <- Qmult_assoc, C. ring. }
  intros Hn. destruct (Z.lt_trichotomy n 0) as [H|[H|H]].
  - assert (Hq : inject_Z n < 0) by (change 0 with (inject_Z 0); rewrite <- Zlt_Qlt; exact H).
    rewrite (double_neg _ Hq).
    assert (E : - inject_Z n == inject_Z (- n)) by (rewrite inject_Z_opp; reflexivity).
    rewrite (round_magnitude_comp _ _ E) by lra.
    rewrite Pos by lia. rewrite inject_Z_opp. ring.
  - subst n. reflexivity.
  - assert (Hq : 0 < inject_Z n) by (change 0 with (inject_Z 0); rewrite <- Zlt_Qlt; exact H).
    rewrite (double_pos _ Hq). apply Pos. lia.
Qed.

(** The rounded value is within half a unit in the last place. *)
Lemma double_error (q : Q) :
  2 ^ (-1022) <= q ->
  Qabs (double q - q) <= 2 ^ (binade q - 53) /\ 2 ^ (binade q - 53) <= q * 2 ^ (-53).
Proof.
  intros Hq.
  assert (H0 : 0 < q) by (pose proof (pow2_pos (-1022)); lra).
  destruct (binade_spec q H0) as [Bl Bu].
  assert (He : (-1022 <= binade q)%Z).
  { assert (H : (-1022 < binade q + 1)%Z).
    { apply (Qpower_lt_compat_l_inv 2); [|reflexivity]. lra. }
    lia. }
  rewrite (double_pos q H0). unfold round_magnitude.
  replace (Z.max (binade q) (-1022)) with (binade q) by lia.
  set (e := binade q) in *.
  pose proof (round_half_even_near (q * 2 ^ (52 - e))) as N.
  apply Qabs_Qle_condition in N.
  pose proof (pow2_pos (52 - e)) as P1. pose proof (pow2_pos (e - 52)) as P2.
  pose proof (pow2_pos (e - 53)) as P3.
  pose proof (pow2_cancel (52 - e)) as C.
  replace (- (52 - e))%Z with (e - 52)%Z in C by lia.
  pose proof (pow2_pred (e - 52)) as H53.
  replace (e - 52 - 1)%Z with (e - 53)%Z in H53 by lia.
  assert (E53 : 2 ^ (e - 53) == 2 ^ e * 2 ^ (-53)).
  { rewrite <- Qpower_plus by discriminate.
    replace (e + -53)%Z with (e - 53)%Z by lia. reflexivity. }
  split.
  - apply Qabs_Qle_condition.
    revert N C H53 P1 P2 P3.
    generalize (inject_Z (round_half_even (q * 2 ^ (52 - e))))
               (2 ^ (52 - e)) (2 ^ (e - 52)) (2 ^ (e - 53)).
    intros r u v w. intros. split; nra.
  - rewrite E53. pose proof (pow2_pos (-53)). 
    apply Qmult_le_compat_r; [exact Bl | lra].
Qed.

(** [double] is the division of the Standard Library's IEEE 754
    specification at the binary64 parameters: on every quotient of a
    sum of three scores by 3, and on a table of other quotients. *)
Example double_is_binary64_division :
  forallb (fun s => agrees (binary64_div s 3) (double (inject_Z s / 3)))
          (below 301) = true
  /\ forallb (fun n =>
       forallb (fun d => agrees (binary64_div n (d + 1))
                                (double (inject_Z n / inject_Z (d + 1))))
               (below 40))
       (below 200) = true.
Proof. split; vm_compute; reflexivity. Qed.

(** And the difference of such a quotient and a penalty of 20, 40, ...,
    100 is the subtraction of that specification. *)
Example double_is_binary64_subtraction :
  forallb (fun s =>
     forallb (fun k => agrees (binary64_sub_div s 3 (20 * (k + 1)))
                              (double (double (inject_Z s / 3)
                                       - inject_Z (20 * (k + 1)))))
             (below 5))
     (below 301) = true.
Proof. vm_compute; reflexivity. Qed.

(** The two quotients of the source that are not doubles, as printed by
    JavaScript: 100/3 is 33.333333333333336 and 25/3 is
    8.333333333333334. *)
Example double_of_thirds :
  double (100 # 3) == 4691249611844267 # 140737488355328
  /\ double (25 # 3) == 4691249611844267 # 562949953421312
  /\ double (10 # 3) == 7505999378950827 # 2251799813685248
  /\ double 17 == 17.
Proof. repeat split; vm_compute; reflexivity. Qed.

End NumberFacts.

(* ================================================================= *)
(** ** The score calculator *)

Section ScoreFacts.
Import JS Performance.
Local Open Scope Q_scope.

Lemma positive_count (n : N) : (1 <= n)%N -> (0 <? n)%N = true.
Proof. intros H. apply N.ltb_lt. lia. Qed.

(** C2: with at least one nonsensical answer counted, overall is at most
    min(15, 5n) and technical at most min(10, 3n) (they are equal to these
    bounds), and the four scores are a function of the nonsensical count
    [n] alone: two analyses with the same count get the same scores,
    whatever their other counters, answers and job details. *)
Theorem calculateScores_nonsensical_regime :
  forall (answers answers' : list Answer) (analysis analysis' : Analysis)
         (jobDetails jobDetails' : JobDetails),
    (1 <= nonsensicalAnswers analysis)%N ->
    nonsensicalAnswers analysis' = nonsensicalAnswers analysis ->
    overall (calculateScores answers analysis jobDetails)
      <= Qmin 15 (N2Q (nonsensicalAnswers analysis) * 5)
    /\ technical (calculateScores answers analysis jobDetails)
       <= Qmin 10 (N2Q (nonsensicalAnswers analysis) * 3)
    /\ overall (calculateScores answers analysis jobDetails) <= 15
    /\ technical (calculateScores answers analysis jobDetails) <= 10
    /\ behavioral (calculateScores answers analysis jobDetails) <= 10
    /\ communication (calculateScores answers analysis jobDetails) <= 15
    /\ calculateScores answers' analysis' jobDetails'
       = calculateScores answers analysis jobDetails.
Proof.
  intros answers answers' analysis analysis' jd jd' Hn Heq.
  unfold calculateScores. rewrite Heq.
  rewrite (positive_count _ Hn). cbn [overall technical behavioral communication].
  repeat split; try apply Qle_refl; apply Q.le_min_l.
Qed.

Lemma calculateScores_nonsensical_regime_witness :
  (1 <= nonsensicalAnswers (analyzeAnswers spoiledBatch))%N
  /\ nonsensicalAnswers (analyzeAnswers [mkAnswer 0 (lit "tyu")])
     = nonsensicalAnswers (analyzeAnswers spoiledBatch)
  /\ overall (calculateScores spoiledBatch (analyzeAnswers spoiledBatch) someJob) <= 15
  /\ calculateScores [mkAnswer 0 (lit "tyu")]
                     (analyzeAnswers [mkAnswer 0 (lit "tyu")]) someJob
     = calculateScores spoiledBatch (analyzeAnswers spoiledBatch) someJob.
Proof.
  assert (H1 : (1 <= nonsensicalAnswers (analyzeAnswers spoiledBatch))%N)
    by (vm_compute; discriminate).
  assert (H2 : nonsensicalAnswers (analyzeAnswers [mkAnswer 0 (lit "tyu")])
               = nonsensicalAnswers (analyzeAnswers spoiledBatch))
    by (vm_compute; reflexivity).
  split; [exact H1|]. split; [exact H2|].
  destruct (calculateScores_nonsensical_regime
              spoiledBatch [mkAnswer 0 (lit "tyu")]
              (analyzeAnswers spoiledBatch) (analyzeAnswers [mkAnswer 0 (lit "tyu")])
              someJob someJob H1 H2) as (_ & _ & Ho & _ & _ & _ & He).
  split; [exact Ho | exact He].
Defined.

(** The count of nonsensical answers never decreases along the batch, and
    a nonsensical answer raises it. *)
Lemma analyzeAnswer_nonsensical_monotone (analysis : Analysis) (a : Answer) :
  (nonsensicalAnswers analysis <= nonsensicalAnswers (analyzeAnswer analysis a))%N.
Proof.
  unfold analyzeAnswer.
  destruct (isNonsensicalAnswer _ _); cbn [nonsensicalAnswers]; lia.
Qed.

Lemma fold_nonsensical_monotone (answers : list Answer) (analysis : Analysis) :
  (nonsensicalAnswers analysis
   <= nonsensicalAnswers (fold_left analyzeAnswer answers analysis))%N.
Proof.
  revert analysis; induction answers as [|a rest IH]; intros analysis;
    cbn [fold_left]; [lia|].
  pose proof (analyzeAnswer_nonsensical_monotone analysis a).
  pose proof (IH (analyzeAnswer analysis a)). lia.
Qed.

Lemma nonsensical_answer_is_counted (answers : list Answer) (a : Answer) :
  In a answers ->
  isNonsensicalAnswer (trim (toLowerCase (answer a)))
                      (countWords (trim (toLowerCase (answer a)))) = true ->
  (1 <= nonsensicalAnswers (analyzeAnswers answers))%N.
Proof.
  intros Hin Hbad. unfold analyzeAnswers, with_averageLength.
  cbn [nonsensicalAnswers].
  generalize emptyAnalysis.
  induction answers as [|b rest IH]; intros analysis; [contradiction|].
  cbn [fold_left]. destruct Hin as [-> | Hin].
  - pose proof (fold_nonsensical_monotone rest (analyzeAnswer analysis a)) as H.
    assert (nonsensicalAnswers (analyzeAnswer analysis a)
            = (nonsensicalAnswers analysis + 1)%N) as E.
    { unfold analyzeAnswer. rewrite Hbad. reflexivity. }
    lia.
  - now apply IH.
Qed.

(** One nonsensical answer anywhere in a batch caps the overall score of
    the batch at 15 and the technical score at 10. *)
Lemma spoiled_batch_is_capped (answers : list Answer) (a : Answer)
      (jobDetails : JobDetails) :
  In a answers ->
  isNonsensicalAnswer (trim (toLowerCase (answer a)))
                      (countWords (trim (toLowerCase (answer a)))) = true ->
  overall (calculateScores answers (analyzeAnswers answers) jobDetails) <= 15
  /\ technical (calculateScores answers (analyzeAnswers answers) jobDetails) <= 10.
Proof.
  intros Hin Hbad.
  pose proof (nonsensical_answer_is_counted answers a Hin Hbad) as Hn.
  unfold calculateScores. rewrite (positive_count _ Hn).
  cbn [overall technical]. split; apply Q.le_min_l.
Qed.

(** C3, as stated, fails on a batch of one strong and one short answer:
    the regime applies (no nonsensical answer, one of poor quality), the
    three penalised scores are 10, 0 and 0, whose mean is 10/3, and the
    overall score is 0. *)
Lemma calculateScores_overall_is_not_the_mean :
  nonsensicalAnswers (analyzeAnswers mixedBatch) = 0%N
  /\ poorQualityAnswers (analyzeAnswers mixedBatch) = 1%N
  /\ technical (calculateScores mixedBatch (analyzeAnswers mixedBatch) someJob) == 10
  /\ behavioral (calculateScores mixedBatch (analyzeAnswers mixedBatch) someJob) == 0
  /\ communication (calculateScores mixedBatch (analyzeAnswers mixedBatch) someJob) == 0
  /\ overall (calculateScores mixedBatch (analyzeAnswers mixedBatch) someJob) == 0
  /\ ~ (overall (calculateScores mixedBatch (analyzeAnswers mixedBatch) someJob)
        == Qmax 0 ((10 + 0 + 0) / 3)).
Proof.
  repeat split; try (vm_compute; reflexivity).
  intros H. vm_compute in H. discriminate.
Qed.

(** C3, amended: in the poor-quality regime each of technical, behavioral
    and communication is its weighted signal score capped at 100, minus
    the penalty of 20 per poor answer, floored at 0; the overall score is
    the mean of these three penalised scores minus the same penalty once
    more, floored at 0.  The mean and the difference are the JavaScript
    ones: the quotient by 3 is rounded to the nearest double, and so is
    the difference.  For the penalised scores 80, 80 and 0 and one poor
    answer the overall score is the double 33.333333333333336 and not
    100/3. *)
Theorem calculateScores_poor_quality_regime :
  forall (answers : list Answer) (analysis : Analysis) (jobDetails : JobDetails),
    nonsensicalAnswers analysis = 0%N ->
    (1 <= poorQualityAnswers analysis)%N ->
    technical (calculateScores answers analysis jobDetails)
      = Qmax 0 (Qmin (N2Q (technicalTerms analysis) * 15) 100
                - N2Q (poorQualityAnswers analysis) * 20)
    /\ behavioral (calculateScores answers analysis jobDetails)
       = Qmax 0 (Qmin (N2Q (problemSolving analysis + specificExamples analysis) * 12) 100
                 - N2Q (poorQualityAnswers analysis) * 20)
    /\ communication (calculateScores answers analysis jobDetails)
       = Qmax 0 (Qmin (N2Q (communicationQuality analysis) * 20) 100
                 - N2Q (poorQualityAnswers analysis) * 20)
    /\ overall (calculateScores answers analysis jobDetails)
       = Qmax 0 (double
                   (double ((technical (calculateScores answers analysis jobDetails)
                             + behavioral (calculateScores answers analysis jobDetails)
                             + communication (calculateScores answers analysis jobDetails))
                            / 3)
                    - N2Q (poorQualityAnswers analysis) * 20)).
Proof.
  intros answers analysis jd Hn Hp.
  unfold calculateScores. rewrite Hn. change (0 <? 0)%N with false.
  rewrite (positive_count _ Hp). cbn [overall technical behavioral communication].
  repeat split.
  - destruct (technicalTerms analysis); reflexivity.
  - destruct (problemSolving analysis), (specificExamples analysis); reflexivity.
  - destruct (communicationQuality analysis); reflexivity.
Qed.

Lemma calculateScores_poor_quality_regime_witness :
  nonsensicalAnswers poorAnalysis = 0%N
  /\ (1 <= poorQualityAnswers poorAnalysis)%N
  /\ technical (calculateScores [] poorAnalysis someJob) == 80
  /\ behavioral (calculateScores [] poorAnalysis someJob) == 80
  /\ communication (calculateScores [] poorAnalysis someJob) == 0
  /\ overall (calculateScores [] poorAnalysis someJob)
     == 4691249611844267 # 140737488355328
  /\ ~ overall (calculateScores [] poorAnalysis someJob) == 100 # 3.
Proof.
  assert (H1 : nonsensicalAnswers poorAnalysis = 0%N) by reflexivity.
  assert (H2 : (1 <= poorQualityAnswers poorAnalysis)%N) by (vm_compute; discriminate).
  destruct (calculateScores_poor_quality_regime [] poorAnalysis someJob H1 H2)
    as (Et & Eb & Ec & Eo).
  split; [exact H1|]. split; [exact H2|].
  split; [rewrite Et; vm_compute; reflexivity|].
  split; [rewrite Eb; vm_compute; reflexivity|].
  split; [rewrite Ec; vm_compute; reflexivity|].
  split; [rewrite Eo; vm_compute; reflexivity|].
  rewrite Eo. intros H. vm_compute in H. discriminate.
Defined.

(** C7, as stated, fails: on the single strong answer the technical score
    is 20 and the behavioral score 15, neither above 50 nor above 40. *)
Lemma strong_answer_scores_are_low :
  technicalScore (generateSmartAnalysis [] strongBatch someJob) = 20%Z
  /\ behavioralScore (generateSmartAnalysis [] strongBatch someJob) = 15%Z
  /\ (technicalScore (generateSmartAnalysis [] strongBatch someJob) <=? 50)%Z = true
  /\ (behavioralScore (generateSmartAnalysis [] strongBatch someJob) <=? 40)%Z = true.
Proof. repeat split; vm_compute; reflexivity. Qed.

(** C7, amended: on the single strong answer the analyzer counts
    technicalTerms = 1, problemSolving = 1 and experienceMentions = 1 (so
    each is at least 1), the answer is the one meaningful answer, and the
    scores are technical 20 and behavioral 15, before and after rounding,
    for every list of questions and every job. *)
Theorem strong_answer_analysis_and_scores :
  forall (questions : list Question) (jobDetails : JobDetails),
    technicalTerms (analyzeAnswers strongBatch) = 1%N
    /\ problemSolving (analyzeAnswers strongBatch) = 1%N
    /\ experienceMentions (analyzeAnswers strongBatch) = 1%N
    /\ nonsensicalAnswers (analyzeAnswers strongBatch) = 0%N
    /\ poorQualityAnswers (analyzeAnswers strongBatch) = 0%N
    /\ meaningfulAnswers (analyzeAnswers strongBatch) = 1%N
    /\ technical (calculateScores strongBatch (analyzeAnswers strongBatch) jobDetails) == 20
    /\ behavioral (calculateScores strongBatch (analyzeAnswers strongBatch) jobDetails) == 15
    /\ technicalScore (generateSmartAnalysis questions strongBatch jobDetails) = 20%Z
    /\ behavioralScore (generateSmartAnalysis questions strongBatch jobDetails) = 15%Z.
Proof.
  intros questions jd.
  repeat split; try (vm_compute; reflexivity);
    unfold generateSmartAnalysis; cbn [technicalScore behavioralScore];
    vm_compute; reflexivity.
Qed.

(** C9: for the empty batch the analysis returns a result whose four
    scores are 0, for every list of questions and every job; the average
    word length it computes on the way is 0/0, which is [NaN]. *)
Theorem empty_batch_scores_zero :
  forall (questions : list Question) (jobDetails : JobDetails),
    overallScore (generateSmartAnalysis questions [] jobDetails) = 0%Z
    /\ technicalScore (generateSmartAnalysis questions [] jobDetails) = 0%Z
    /\ behavioralScore (generateSmartAnalysis questions [] jobDetails) = 0%Z
    /\ communicationScore (generateSmartAnalysis questions [] jobDetails) = 0%Z
    /\ averageLength (analyzeAnswers []) = NaN
    /\ js_div 0 0 = NaN
    /\ overall (calculateScores [] (analyzeAnswers []) jobDetails) == 0
    /\ technical (calculateScores [] (analyzeAnswers []) jobDetails) == 0
    /\ behavioral (calculateScores [] (analyzeAnswers []) jobDetails) == 0
    /\ communication (calculateScores [] (analyzeAnswers []) jobDetails) == 0
    /\ List.length (detailedFeedback (generateSmartAnalysis questions [] jobDetails))
       = List.length questions.
Proof.
  intros questions jd.
  repeat split; try (vm_compute; reflexivity).
  unfold generateSmartAnalysis; cbn [detailedFeedback].
  unfold generateDetailedFeedback. generalize 0%nat.
  induction questions as [|q rest IH]; intros n; [reflexivity|].
  cbn [detailed_from List.length]. f_equal. apply IH.
Qed.

End ScoreFacts.

(* ================================================================= *)
(** ** Skills, the seven-line scenario, the question generator *)

Section ScenarioFacts.
Import JS PdfParser Scenarios.

(** The returned list never holds the same string twice. *)
Lemma extractSkills_NoDup (text : str) (lines : list str) :
  NoDup (extractSkills text lines).
Proof. apply new_Set_NoDup. Qed.

(** C5: the code at two inputs.  A skill written "Python" in the skills
    section and "python" in a bullet elsewhere is returned twice, once in
    each casing; so is a skill written in two casings inside the skills
    section.  The two entries are equal when compared without case. *)
Theorem extractSkills_keeps_both_casings :
  extractSkills sectionAndBullet (split_lines sectionAndBullet)
    = [lit "Python"; lit "React"; lit "flask"; lit "python"]
  /\ parseResumeContent sectionAndBullet
     = inr {| personalInfo := extractPersonalInfo (split_lines sectionAndBullet);
              skills := [lit "Python"; lit "React"; lit "flask"; lit "python"];
              experience := extractExperience (split_lines sectionAndBullet);
              projects := extractProjects (split_lines sectionAndBullet);
              education := extractEducation (split_lines sectionAndBullet);
              certifications := extractCertifications (split_lines sectionAndBullet);
              languages := extractLanguages (split_lines sectionAndBullet) |}
  /\ extractSkills twoCasings (split_lines twoCasings) = [lit "Python"; lit "python"]
  /\ toLowerCase (lit "Python") = toLowerCase (lit "python")
  /\ eqb (lit "Python") (lit "python") = false.
Proof. repeat split; vm_compute; reflexivity. Qed.

(** C6, as stated, fails: on the seven-line resume the experience list
    that [parseResumeContent] returns is empty, so it has no first
    entry. *)
Lemma sevenLines_experience_is_empty :
  exists r : ParsedResume,
    parseResumeContent sevenLines = inr r
    /\ experience r = []
    /\ nth_error (experience r) 0 = None.
Proof. eexists. split; [vm_compute; reflexivity|]. split; reflexivity. Qed.

(** C6, amended: on the seven-line resume [parseResumeContent] of the
    backend returns name "John Doe", email "john@x.com", the phone
    "+1 555-123-4567" (which contains "555-123-4567"), the skills
    "Python", "React" and "AWS" in that casing, and an empty experience
    list; [parseResumeContent] of the simple variant returns the same
    personal information and skills, and an experience list whose one
    entry has title "Software Engineer" and company "Acme". *)
Theorem sevenLines_scenario :
  split_lines sevenLines
    = List.map lit ["John Doe"; "john@x.com"; "+1 555-123-4567"; "Skills";
                    "Python, React, AWS"; "Experience";
                    "Software Engineer at Acme - Built internal tools"]
  /\ (exists r : ParsedResume,
        parseResumeContent sevenLines = inr r
        /\ name (personalInfo r) = Some (lit "John Doe")
        /\ email (personalInfo r) = Some (lit "john@x.com")
        /\ phone (personalInfo r) = Some (lit "+1 555-123-4567")
        /\ includes (lit "+1 555-123-4567") (lit "555-123-4567") = true
        /\ skills r = [lit "Python"; lit "React"; lit "AWS"]
        /\ experience r = [])
  /\ (exists r : ParsedResume,
        SimpleParser.parseResumeContent sevenLines = inr r
        /\ name (personalInfo r) = Some (lit "John Doe")
        /\ email (personalInfo r) = Some (lit "john@x.com")
        /\ phone (personalInfo r) = Some (lit "+1 555-123-4567")
        /\ skills r = [lit "Python"; lit "React"; lit "AWS"]
        /\ experience r
           = [ {| title := Some (lit "Software Engineer");
                  company := Some (lit "Acme");
                  duration := None; description := None |} ]).
Proof.
  split; [vm_compute; reflexivity|]. split.
  - eexists. split; [vm_compute; reflexivity|]. repeat split.
  - eexists. split; [vm_compute; reflexivity|]. repeat split.
Qed.

Lemma startsWith_app (n b : str) : startsWith (n ++ b) n = true.
Proof.
  induction n as [|c n IH]; simpl; [destruct b; reflexivity|].
  now rewrite N.eqb_refl, IH.
Qed.

Lemma includes_startsWith (s n : str) : startsWith s n = true -> includes s n = true.
Proof. intros H. destruct s; simpl in *; now rewrite H. Qed.

Lemma includes_app (a n b : str) : includes (a ++ n ++ b) n = true.
Proof.
  induction a as [|x a IH].
  - change ([] ++ n ++ b) with (n ++ b).
    apply includes_startsWith. exact (startsWith_app n b).
  - simpl. rewrite IH. apply orb_true_r.
Qed.

(** C8: for every job and every optional resume the generator returns
    exactly five questions, and they are the five base questions (ids 1
    to 5): the role-specific ones are appended after them and cut off.
    When the resume's first project has a non-empty name, a returned
    question contains that name. *)
Theorem generateSmartQuestions_five_base_questions :
  forall (jobDetails : Questions.JobDetails) (resumeContent : option ParsedResume),
    List.length (Questions.generateSmartQuestions jobDetails resumeContent) = 5%nat
    /\ Questions.generateSmartQuestions jobDetails resumeContent
       = Questions.baseQuestions jobDetails resumeContent
    /\ List.map Questions.id (Questions.generateSmartQuestions jobDetails resumeContent)
       = [1; 2; 3; 4; 5]
    /\ (forall (r : ParsedResume) (p : Project) (rest : list Project) (n : str),
          resumeContent = Some r -> projects r = p :: rest ->
          proj_name p = Some n -> n <> [] ->
          exists q, In q (Questions.generateSmartQuestions jobDetails resumeContent)
                    /\ includes (Questions.text q) n = true).
Proof.
  intros jd resume.
  assert (E : Questions.generateSmartQuestions jd resume = Questions.baseQuestions jd resume)
    by reflexivity.
  rewrite E. repeat split.
  intros r p rest n -> Hp Hn Hne.
  eexists. split; [right; left; reflexivity|].
  cbn [Questions.text Questions.Q_]. rewrite Hp, Hn.
  unfold or_else. destruct n as [|c n]; [contradiction|].
  change (truthy (c :: n)) with true. cbv iota.
  apply includes_app.
Qed.

Lemma generateSmartQuestions_five_base_questions_witness :
  List.length (Questions.generateSmartQuestions softwareEngineerJob (Some inventoryResume))
    = 5%nat
  /\ exists q,
       In q (Questions.generateSmartQuestions softwareEngineerJob (Some inventoryResume))
       /\ includes (Questions.text q) (lit "Inventory Tracker") = true.
Proof.
  destruct (generateSmartQuestions_five_base_questions
              softwareEngineerJob (Some inventoryResume)) as (Hl & _ & _ & Hq).
  split; [exact Hl|].
  apply (Hq inventoryResume inventoryTracker [] (lit "Inventory Tracker"));
    try reflexivity.
  discriminate.
Defined.

End ScenarioFacts.

(* ================================================================= *)
(** ** Further properties of the score calculator *)

Section MoreScoreFacts.
Import JS Performance.
Local Open Scope Q_scope.

Lemma N2Q_nonneg (n : N) : 0 <= N2Q n.
Proof. unfold N2Q, Qle; simpl. lia. Qed.

Lemma Qmin_le_r (x y : Q) : Qmin x y <= y.
Proof. apply Q.le_min_r. Qed.

Lemma Qmin_nonneg (x y : Q) : 0 <= x -> 0 <= y -> 0 <= Qmin x y.
Proof. intros Hx Hy. apply Q.min_glb; assumption. Qed.

Lemma clamp_bounds (y : Q) : 0 <= Qmax 0 (Qmin 100 y) /\ Qmax 0 (Qmin 100 y) <= 100.
Proof.
  split; [apply Q.le_max_l|].
  apply Q.max_lub; [lra | apply Q.le_min_l].
Qed.

Lemma penalised_bounds (x p : Q) :
  x <= 100 -> 0 <= p -> 0 <= Qmax 0 (x - p) /\ Qmax 0 (x - p) <= 100.
Proof.
  intros Hx Hp. split; [apply Q.le_max_l|].
  apply Q.max_lub; lra.
Qed.

Lemma weighted_le_100 (c : bool) (x : Q) : (if c then Qmin x 100 else 0) <= 100.
Proof. destruct c; [apply Q.le_min_r | lra]. Qed.

Lemma weighted_nonneg (c : bool) (x : Q) : 0 <= x -> 0 <= (if c then Qmin x 100 else 0).
Proof. intros Hx. destruct c; [apply Qmin_nonneg; lra | lra]. Qed.

Lemma scaled_nonneg (n : N) (k : Q) : 0 <= k -> 0 <= N2Q n * k.
Proof. intros Hk. pose proof (N2Q_nonneg n). nra. Qed.

Lemma double_le_100 (q : Q) : q <= 100 -> double q <= 100.
Proof. intros H. apply (double_le_Z q 100); [lia | exact H]. Qed.

Lemma mean_bound (t b c p : Q) :
  t <= 100 -> b <= 100 -> c <= 100 -> 0 <= p ->
  double (double ((t + b + c) / 3) - p) <= 100.
Proof.
  intros. apply double_le_100.
  assert (H3 : double ((t + b + c) / 3) <= 100).
  { apply double_le_100. unfold Qdiv. change (/ 3) with (1 # 3). lra. }
  lra.
Qed.

Lemma scores_bounded :
  forall (answers : list Answer) (analysis : Analysis) (jobDetails : JobDetails),
    (0 <= overall (calculateScores answers analysis jobDetails)
     /\ overall (calculateScores answers analysis jobDetails) <= 100)
    /\ (0 <= technical (calculateScores answers analysis jobDetails)
        /\ technical (calculateScores answers analysis jobDetails) <= 100)
    /\ (0 <= behavioral (calculateScores answers analysis jobDetails)
        /\ behavioral (calculateScores answers analysis jobDetails) <= 100)
    /\ (0 <= communication (calculateScores answers analysis jobDetails)
        /\ communication (calculateScores answers analysis jobDetails) <= 100).
Proof.
  intros answers a jd. unfold calculateScores.
  destruct (0 <? nonsensicalAnswers a)%N.
  - cbn [overall technical behavioral communication].
    pose proof (N2Q_nonneg (nonsensicalAnswers a)) as Hn.
    repeat split;
      first [ apply Qmin_nonneg; nra
            | (eapply Qle_trans; [apply Q.le_min_l | lra]) ].
  - destruct (0 <? poorQualityAnswers a)%N.
    + cbn [overall technical behavioral communication].
      pose proof (scaled_nonneg (poorQualityAnswers a) 20 ltac:(lra)) as Hp.
      set (p := N2Q (poorQualityAnswers a) * 20) in *.
      pose proof (weighted_le_100 (0 <? technicalTerms a)%N
                    (N2Q (technicalTerms a) * 15)) as Ht.
      pose proof (weighted_le_100
                    ((0 <? problemSolving a)%N || (0 <? specificExamples a)%N)
                    (N2Q (problemSolving a + specificExamples a)%N * 12)) as Hb.
      pose proof (weighted_le_100 (0 <? communicationQuality a)%N
                    (N2Q (communicationQuality a) * 20)) as Hc.
      pose proof (penalised_bounds _ p Ht Hp) as [Ht0 Ht1].
      pose proof (penalised_bounds _ p Hb Hp) as [Hb0 Hb1].
      pose proof (penalised_bounds _ p Hc Hp) as [Hc0 Hc1].
      repeat split; try assumption.
      * apply Q.le_max_l.
      * apply Q.max_lub; [lra|]. apply mean_bound; assumption.
    + cbn [overall technical behavioral communication].
      repeat split; apply clamp_bounds.
Qed.

(** X1: whatever the counters of the analysis, each of the four scores
    that [calculateScores] returns lies between 0 and 100. *)
Theorem calculateScores_within_bounds :
  forall (answers : list Answer) (analysis : Analysis) (jobDetails : JobDetails),
    (0 <= overall (calculateScores answers analysis jobDetails)
     /\ overall (calculateScores answers analysis jobDetails) <= 100)
    /\ (0 <= technical (calculateScores answers analysis jobDetails)
        /\ technical (calculateScores answers analysis jobDetails) <= 100)
    /\ (0 <= behavioral (calculateScores answers analysis jobDetails)
        /\ behavioral (calculateScores answers analysis jobDetails) <= 100)
    /\ (0 <= communication (calculateScores answers analysis jobDetails)
        /\ communication (calculateScores answers analysis jobDetails) <= 100).
Proof. exact scores_bounded. Qed.

Lemma Math_round_bounds (q : Q) :
  0 <= q -> q <= 100 -> (0 <= Math_round q <= 100)%Z.
Proof.
  intros H0 H1. unfold Math_round. split.
  - change 0%Z with (Qfloor (0 + (1 # 2))). apply Qfloor_resp_le. lra.
  - change 100%Z with (Qfloor (100 + (1 # 2))). apply Qfloor_resp_le. lra.
Qed.

(** X2: the four scores of the result of [generateSmartAnalysis] are
    integers between 0 and 100, for every list of questions, every batch
    of answers and every job. *)
Theorem generateSmartAnalysis_scores_within_bounds :
  forall (questions : list Question) (answers : list Answer) (jobDetails : JobDetails),
    (0 <= overallScore (generateSmartAnalysis questions answers jobDetails) <= 100)%Z
    /\ (0 <= technicalScore (generateSmartAnalysis questions answers jobDetails) <= 100)%Z
    /\ (0 <= behavioralScore (generateSmartAnalysis questions answers jobDetails) <= 100)%Z
    /\ (0 <= communicationScore (generateSmartAnalysis questions answers jobDetails)
        <= 100)%Z.
Proof.
  intros questions answers jd. unfold generateSmartAnalysis.
  cbn [overallScore technicalScore behavioralScore communicationScore].
  destruct (scores_bounded answers (analyzeAnswers answers) jd)
    as ((Ho0 & Ho1) & (Ht0 & Ht1) & (Hb0 & Hb1) & (Hc0 & Hc1)).
  repeat split; apply Math_round_bounds; assumption.
Qed.

Lemma clamp_id (y : Q) : 0 <= y -> y <= 100 -> Qmax 0 (Qmin 100 y) == y.
Proof.
  intros H0 H1. rewrite (Q.min_r 100 y H1). apply Q.max_r. exact H0.
Qed.

Lemma weighted_spec (n : N) (k : Q) :
  0 <= k ->
  (if (0 <? n)%N then Qmin (N2Q n * k) 100 else 0) == Qmin (N2Q n * k) 100.
Proof.
  intros Hk. destruct n as [|q]; [|reflexivity].
  change (0 <? 0)%N with false. cbv iota.
  change (N2Q 0) with 0. rewrite Q.min_l; lra.
Qed.

Lemma weighted2_spec (n m : N) (k : Q) :
  0 <= k ->
  (if (0 <? n)%N || (0 <? m)%N then Qmin (N2Q (n + m)%N * k) 100 else 0)
  == Qmin (N2Q (n + m)%N * k) 100.
Proof.
  intros Hk. destruct n as [|q], m as [|r]; reflexivity.
Qed.

Lemma zero_count (n : N) : (1 <= n)%N -> (0 <? n)%N = true.
Proof. intros H. apply N.ltb_lt. lia. Qed.

(** X3: in the regime of meaningful answers only (no nonsensical and no
    poor answer, at least one meaningful one), technical is
    min(20 technicalTerms, 100), behavioral is
    min(15 (problemSolving + specificExamples), 100), communication is
    min(25 communicationQuality, 100), and overall is the plain mean of
    the three, with no penalty: their sum divided by 3 as JavaScript
    divides, rounded to the nearest double (8.333333333333334 for the
    scores 0, 0 and 25). *)
Theorem calculateScores_meaningful_regime :
  forall (answers : list Answer) (analysis : Analysis) (jobDetails : JobDetails),
    nonsensicalAnswers analysis = 0%N ->
    poorQualityAnswers analysis = 0%N ->
    (1 <= meaningfulAnswers analysis)%N ->
    technical (calculateScores answers analysis jobDetails)
      == Qmin (N2Q (technicalTerms analysis) * 20) 100
    /\ behavioral (calculateScores answers analysis jobDetails)
       == Qmin (N2Q (problemSolving analysis + specificExamples analysis)%N * 15) 100
    /\ communication (calculateScores answers analysis jobDetails)
       == Qmin (N2Q (communicationQuality analysis) * 25) 100
    /\ overall (calculateScores answers analysis jobDetails)
       == double ((technical (calculateScores answers analysis jobDetails)
                   + behavioral (calculateScores answers analysis jobDetails)
                   + communication (calculateScores answers analysis jobDetails)) / 3).
Proof.
  intros answers a jd Hn Hp Hm. unfold calculateScores.
  rewrite Hn, Hp. change (0 <? 0)%N with false. cbv iota.
  rewrite (zero_count _ Hm). cbn [overall technical behavioral communication].
  pose proof (weighted_spec (technicalTerms a) 20 ltac:(lra)) as Et.
  pose proof (weighted2_spec (problemSolving a) (specificExamples a) 15 ltac:(lra)) as Eb.
  pose proof (weighted_spec (communicationQuality a) 25 ltac:(lra)) as Ec.
  pose proof (weighted_le_100 (0 <? technicalTerms a)%N (N2Q (technicalTerms a) * 20)) as Ht1.
  pose proof (weighted_le_100 ((0 <? problemSolving a)%N || (0 <? specificExamples a)%N)
                (N2Q (problemSolving a + specificExamples a)%N * 15)) as Hb1.
  pose proof (weighted_le_100 (0 <? communicationQuality a)%N
                (N2Q (communicationQuality a) * 25)) as Hc1.
  pose proof (weighted_nonneg (0 <? technicalTerms a)%N _
                (scaled_nonneg (technicalTerms a) 20 ltac:(lra))) as Ht0.
  pose proof (weighted_nonneg ((0 <? problemSolving a)%N || (0 <? specificExamples a)%N) _
                (scaled_nonneg (problemSolving a + specificExamples a)%N 15 ltac:(lra))) as Hb0.
  pose proof (weighted_nonneg (0 <? communicationQuality a)%N _
                (scaled_nonneg (communicationQuality a) 25 ltac:(lra))) as Hc0.
  revert Et Eb Ec Ht1 Hb1 Hc1 Ht0 Hb0 Hc0.
  generalize (if (0 <? technicalTerms a)%N
              then Qmin (N2Q (technicalTerms a) * 20) 100 else 0).
  generalize (if (0 <? problemSolving a)%N || (0 <? specificExamples a)%N
              then Qmin (N2Q (problemSolving a + specificExamples a)%N * 15) 100 else 0).
  generalize (if (0 <? communicationQuality a)%N
              then Qmin (N2Q (communicationQuality a) * 25) 100 else 0).
  intros c b t Et Eb Ec Ht1 Hb1 Hc1 Ht0 Hb0 Hc0.
  pose proof (clamp_id t Ht0 Ht1) as Kt.
  pose proof (clamp_id b Hb0 Hb1) as Kb.
  pose proof (clamp_id c Hc0 Hc1) as Kc.
  assert (Hm0 : 0 <= (t + b + c) / 3)
    by (unfold Qdiv; change (/ 3) with (1 # 3); lra).
  assert (Hm1 : (t + b + c) / 3 <= 100)
    by (unfold Qdiv; change (/ 3) with (1 # 3); lra).
  pose proof (clamp_id _ (double_nonneg _ Hm0) (double_le_100 _ Hm1)) as Ko.
  repeat split.
  - rewrite Kt. exact Et.
  - rewrite Kb. exact Eb.
  - rewrite Kc. exact Ec.
  - rewrite Ko. apply double_comp. rewrite Kt, Kb, Kc. reflexivity.
Qed.

Lemma calculateScores_meaningful_regime_witness :
  nonsensicalAnswers (analyzeAnswers plainBatch) = 0%N
  /\ poorQualityAnswers (analyzeAnswers plainBatch) = 0%N
  /\ (1 <= meaningfulAnswers (analyzeAnswers plainBatch))%N
  /\ technical (calculateScores plainBatch (analyzeAnswers plainBatch) someJob) == 0
  /\ behavioral (calculateScores plainBatch (analyzeAnswers plainBatch) someJob) == 0
  /\ communication (calculateScores plainBatch (analyzeAnswers plainBatch) someJob) == 25
  /\ overall (calculateScores plainBatch (analyzeAnswers plainBatch) someJob)
     == 4691249611844267 # 562949953421312.
Proof.
  assert (H1 : nonsensicalAnswers (analyzeAnswers plainBatch) = 0%N)
    by (vm_compute; reflexivity).
  assert (H2 : poorQualityAnswers (analyzeAnswers plainBatch) = 0%N)
    by (vm_compute; reflexivity).
  assert (H3 : (1 <= meaningfulAnswers (analyzeAnswers plainBatch))%N)
    by (vm_compute; discriminate).
  destruct (calculateScores_meaningful_regime
              plainBatch (analyzeAnswers plainBatch) someJob H1 H2 H3)
    as (Et & Eb & Ec & Eo).
  split; [exact H1|]. split; [exact H2|]. split; [exact H3|].
  split; [rewrite Et; vm_compute; reflexivity|].
  split; [rewrite Eb; vm_compute; reflexivity|].
  split; [rewrite Ec; vm_compute; reflexivity|].
  rewrite Eo. vm_compute. reflexivity.
Defined.

(** X4: when no answer was nonsensical, a score is 0 as soon as its own
    signal is absent: technical without a technical term, behavioral
    without a problem-solving or specific-example hit, communication
    without a well-formed longer answer, whatever the other counters. *)
Theorem calculateScores_zero_without_signal :
  forall (answers : list Answer) (analysis : Analysis) (jobDetails : JobDetails),
    nonsensicalAnswers analysis = 0%N ->
    (technicalTerms analysis = 0%N ->
     technical (calculateScores answers analysis jobDetails) == 0)
    /\ (problemSolving analysis = 0%N -> specificExamples analysis = 0%N ->
        behavioral (calculateScores answers analysis jobDetails) == 0)
    /\ (communicationQuality analysis = 0%N ->
        communication (calculateScores answers analysis jobDetails) == 0).
Proof.
  intros answers a jd Hn. unfold calculateScores. rewrite Hn.
  change (0 <? 0)%N with false. cbv iota.
  pose proof (scaled_nonneg (poorQualityAnswers a) 20 ltac:(lra)) as Hp.
  destruct (0 <? poorQualityAnswers a)%N.
  - cbn [technical behavioral communication]. repeat split.
    + intros ->. change (0 <? 0)%N with false. cbv iota. apply Q.max_l. lra.
    + intros -> ->. change ((0 <? 0)%N || (0 <? 0)%N) with false. cbv iota.
      apply Q.max_l. lra.
    + intros ->. change (0 <? 0)%N with false. cbv iota. apply Q.max_l. lra.
  - cbn [technical behavioral communication]. repeat split.
    + intros ->. destruct (0 <? meaningfulAnswers a)%N; reflexivity.
    + intros -> ->. destruct (0 <? meaningfulAnswers a)%N; reflexivity.
    + intros ->. destruct (0 <? meaningfulAnswers a)%N; reflexivity.
Qed.

Lemma calculateScores_zero_without_signal_witness :
  nonsensicalAnswers (analyzeAnswers plainBatch) = 0%N
  /\ technicalTerms (analyzeAnswers plainBatch) = 0%N
  /\ problemSolving (analyzeAnswers plainBatch) = 0%N
  /\ specificExamples (analyzeAnswers plainBatch) = 0%N
  /\ meaningfulAnswers (analyzeAnswers plainBatch) = 1%N
  /\ technical (calculateScores plainBatch (analyzeAnswers plainBatch) someJob) == 0
  /\ behavioral (calculateScores plainBatch (analyzeAnswers plainBatch) someJob) == 0.
Proof.
  assert (H1 : nonsensicalAnswers (analyzeAnswers plainBatch) = 0%N)
    by (vm_compute; reflexivity).
  assert (H2 : technicalTerms (analyzeAnswers plainBatch) = 0%N)
    by (vm_compute; reflexivity).
  assert (H3 : problemSolving (analyzeAnswers plainBatch) = 0%N)
    by (vm_compute; reflexivity).
  assert (H4 : specificExamples (analyzeAnswers plainBatch) = 0%N)
    by (vm_compute; reflexivity).
  destruct (calculateScores_zero_without_signal
              plainBatch (analyzeAnswers plainBatch) someJob H1) as (Ht & Hb & _).
  split; [exact H1|]. split; [exact H2|]. split; [exact H3|]. split; [exact H4|].
  split; [vm_compute; reflexivity|].
  split; [exact (Ht H2) | exact (Hb H3 H4)].
Defined.

End MoreScoreFacts.

(* ================================================================= *)
(** ** Invariants of the answer analyzer *)

Section AnalyzerFacts.
Import JS Performance.

Lemma bump_bounds (b : bool) (n : N) : (n <= bump b n <= n + 1)%N.
Proof. destruct b; simpl; lia. Qed.

Lemma bump_true (n : N) : bump true n = (n + 1)%N.
Proof. reflexivity. Qed.

Lemma long_answer_not_poor (text : str) (wordCount : nat) :
  Nat.leb 20 wordCount = true -> isPoorQualityAnswer text wordCount = false.
Proof.
  intros H. apply Nat.leb_le in H. unfold isPoorQualityAnswer.
  destruct (Nat.ltb wordCount 10) eqn:E1; [apply Nat.ltb_lt in E1; lia|].
  destruct (Nat.ltb wordCount 20) eqn:E2; [apply Nat.ltb_lt in E2; lia|].
  reflexivity.
Qed.

Lemma N2Q_add (n m : N) : (N2Q n + N2Q m == N2Q (n + m))%Q.
Proof.
  unfold N2Q. rewrite N2Z.inj_add. rewrite inject_Z_plus. reflexivity.
Qed.

Lemma analyzeAnswer_invariant (seen : N) (a : Analysis) (x : Answer) :
  analysis_invariant seen a -> analysis_invariant (seen + 1) (analyzeAnswer a x).
Proof.
  intros (Hsum & Ht & He & Hp & Hs & Hc & q & Hq & Eq).
  unfold analysis_invariant, analyzeAnswer.
  set (text := trim (toLowerCase (answer x))).
  set (wc := countWords text).
  assert (Havg : exists q',
             js_add (averageLength a) (N2Q (N.of_nat wc)) = Num q'
             /\ (q' == N2Q (totalWords a + N.of_nat wc))%Q).
  { rewrite Hq. eexists. split; [reflexivity|].
    rewrite Eq. apply N2Q_add. }
  destruct (isNonsensicalAnswer text wc).
  - cbn [nonsensicalAnswers poorQualityAnswers meaningfulAnswers technicalTerms
         experienceMentions problemSolving specificExamples communicationQuality
         averageLength totalWords].
    repeat split; try lia. exact Havg.
  - cbn [nonsensicalAnswers poorQualityAnswers meaningfulAnswers technicalTerms
         experienceMentions problemSolving specificExamples communicationQuality
         averageLength totalWords].
    assert (Hcq : (bump (Nat.leb 20 wc && Nat.leb wc 200
                         && Nat.ltb 1 (List.length (Regex.split sentenceEnd text)))
                        (communicationQuality a)
                   <= bump (negb (isPoorQualityAnswer text wc)) (meaningfulAnswers a))%N).
    { destruct (Nat.leb 20 wc) eqn:E.
      - rewrite (long_answer_not_poor text wc E). cbn [negb]. rewrite bump_true.
        pose proof (bump_bounds (true && Nat.leb wc 200
                       && Nat.ltb 1 (List.length (Regex.split sentenceEnd text)))
                      (communicationQuality a)). lia.
      - cbn [andb bump].
        pose proof (bump_bounds (negb (isPoorQualityAnswer text wc))
                      (meaningfulAnswers a)). lia. }
    assert (Htier : (bump (isPoorQualityAnswer text wc) (poorQualityAnswers a)
                     + bump (negb (isPoorQualityAnswer text wc)) (meaningfulAnswers a)
                     = poorQualityAnswers a + meaningfulAnswers a + 1)%N).
    { destruct (isPoorQualityAnswer text wc); simpl; lia. }
    repeat split; try exact Havg; try exact Hcq; try lia;
      match goal with
      | |- (bump ?b ?n <= _)%N => pose proof (bump_bounds b n); lia
      end.
Qed.

Lemma fold_invariant (answers : list Answer) (seen : N) (a : Analysis) :
  analysis_invariant seen a ->
  analysis_invariant (seen + N.of_nat (List.length answers))
                     (fold_left analyzeAnswer answers a).
Proof.
  revert seen a; induction answers as [|x rest IH]; intros seen a H.
  - cbn [fold_left List.length]. now rewrite N.add_0_r.
  - cbn [fold_left List.length]. rewrite Nat2N.inj_succ.
    replace (seen + N.succ (N.of_nat (List.length rest)))%N
      with (seen + 1 + N.of_nat (List.length rest))%N by lia.
    apply IH. now apply analyzeAnswer_invariant.
Qed.

Lemma emptyAnalysis_invariant : analysis_invariant 0 emptyAnalysis.
Proof.
  unfold analysis_invariant, emptyAnalysis; cbn. repeat split; try lia.
  exists 0%Q. split; reflexivity.
Qed.

Lemma folded_invariant (answers : list Answer) :
  analysis_invariant (N.of_nat (List.length answers))
                     (fold_left analyzeAnswer answers emptyAnalysis).
Proof. apply (fold_invariant answers 0 emptyAnalysis emptyAnalysis_invariant). Qed.

(** X5: every answer of a batch falls into exactly one tier: the counts
    of nonsensical, poor-quality and meaningful answers add up to the
    number of answers. *)
Theorem analyzeAnswers_tiers_partition :
  forall answers : list Answer,
    (nonsensicalAnswers (analyzeAnswers answers)
     + poorQualityAnswers (analyzeAnswers answers)
     + meaningfulAnswers (analyzeAnswers answers))%N
    = N.of_nat (List.length answers).
Proof.
  intros answers. unfold analyzeAnswers, with_averageLength.
  cbn [nonsensicalAnswers poorQualityAnswers meaningfulAnswers].
  apply (folded_invariant answers).
Qed.

(** X6: each lexical signal is counted at most once per answer and never
    on a nonsensical one: the four signal counters are bounded by the
    number of poor-quality plus meaningful answers; the communication
    signal is counted only on meaningful answers. *)
Theorem analyzeAnswers_signal_bounds :
  forall answers : list Answer,
    (technicalTerms (analyzeAnswers answers)
     <= poorQualityAnswers (analyzeAnswers answers)
        + meaningfulAnswers (analyzeAnswers answers))%N
    /\ (experienceMentions (analyzeAnswers answers)
        <= poorQualityAnswers (analyzeAnswers answers)
           + meaningfulAnswers (analyzeAnswers answers))%N
    /\ (problemSolving (analyzeAnswers answers)
        <= poorQualityAnswers (analyzeAnswers answers)
           + meaningfulAnswers (analyzeAnswers answers))%N
    /\ (specificExamples (analyzeAnswers answers)
        <= poorQualityAnswers (analyzeAnswers answers)
           + meaningfulAnswers (analyzeAnswers answers))%N
    /\ (communicationQuality (analyzeAnswers answers)
        <= meaningfulAnswers (analyzeAnswers answers))%N.
Proof.
  intros answers. unfold analyzeAnswers, with_averageLength.
  cbn [nonsensicalAnswers poorQualityAnswers meaningfulAnswers technicalTerms
       experienceMentions problemSolving specificExamples communicationQuality].
  destruct (folded_invariant answers) as (_ & Ht & He & Hp & Hs & Hc & _).
  repeat split; assumption.
Qed.

(** X7: for a batch that is not empty, [averageLength] is a finite
    number: the total word count divided by the number of answers as
    JavaScript divides, which is the double nearest to the exact
    quotient (3.3333333333333335 for 10 words in 3 answers); it is not
    negative. *)
Theorem analyzeAnswers_average_length :
  forall answers : list Answer,
    answers <> [] ->
    exists q : Q,
      averageLength (analyzeAnswers answers) = Num q
      /\ (q == double (N2Q (totalWords (analyzeAnswers answers))
                       / N2Q (N.of_nat (List.length answers))))%Q
      /\ (0 <= q)%Q.
Proof.
  intros answers Hne. unfold analyzeAnswers, with_averageLength.
  cbn [averageLength totalWords].
  destruct (folded_invariant answers) as (_ & _ & _ & _ & _ & _ & q & Hq & Eq).
  rewrite Hq. cbn [js_div_by]. unfold js_div.
  assert (Hn : Qeq_bool (N2Q (N.of_nat (List.length answers))) 0 = false).
  { destruct answers as [|x rest]; [contradiction|].
    cbn [List.length]. unfold N2Q. rewrite Nat2N.inj_succ.
    destruct (Qeq_bool _ 0) eqn:E; [|reflexivity].
    apply Qeq_bool_eq in E. unfold Qeq in E. simpl in E. lia. }
  rewrite Hn. eexists. split; [reflexivity|].
  assert (E : (q / N2Q (N.of_nat (List.length answers))
               == N2Q (totalWords (fold_left analyzeAnswer answers emptyAnalysis))
                  / N2Q (N.of_nat (List.length answers)))%Q)
    by (rewrite Eq; reflexivity).
  split; [apply double_comp; exact E|].
  apply double_nonneg. rewrite E.
  apply Qle_shift_div_l.
  - destruct answers as [|x rest]; [contradiction|].
    cbn [List.length]. unfold N2Q, Qlt. simpl. lia.
  - rewrite Qmult_0_l. unfold N2Q, Qle. simpl. lia.
Qed.

Lemma analyzeAnswers_average_length_witness :
  threeShortAnswers <> []
  /\ totalWords (analyzeAnswers threeShortAnswers) = 10%N
  /\ exists q : Q,
       averageLength (analyzeAnswers threeShortAnswers) = Num q
       /\ (q == 7505999378950827 # 2251799813685248)%Q.
Proof.
  split; [discriminate|]. split; [vm_compute; reflexivity|].
  destruct (analyzeAnswers_average_length threeShortAnswers) as (q & Hq & Eq & _);
    [discriminate|].
  exists q. split; [exact Hq|].
  rewrite Eq. vm_compute. reflexivity.
Defined.

(** X8: one nonsensical answer of plain characters anywhere in a batch
    (a one-word answer such as "yup", for one) caps the four scores of
    the whole batch, whatever the other answers are: overall and
    communication at 15, technical and behavioral at 10. *)
Theorem nonsensical_answer_caps_batch :
  forall (answers : list Answer) (a : Answer) (jobDetails : JobDetails),
    In a answers ->
    is_plain (answer a) = true ->
    isNonsensicalAnswer (trim (toLowerCase (answer a)))
                        (countWords (trim (toLowerCase (answer a)))) = true ->
    (overall (calculateScores answers (analyzeAnswers answers) jobDetails) <= 15)%Q
    /\ (technical (calculateScores answers (analyzeAnswers answers) jobDetails) <= 10)%Q
    /\ (behavioral (calculateScores answers (analyzeAnswers answers) jobDetails) <= 10)%Q
    /\ (communication (calculateScores answers (analyzeAnswers answers) jobDetails)
        <= 15)%Q.
Proof.
  intros answers a jd Hin _ Hbad.
  pose proof (nonsensical_answer_is_counted answers a Hin Hbad) as Hn.
  unfold calculateScores. rewrite (positive_count _ Hn).
  cbn [overall technical behavioral communication].
  repeat split; apply Q.le_min_l.
Qed.

Lemma nonsensical_answer_caps_batch_witness :
  In (mkAnswer 0 (lit "yup")) spoiledBatch
  /\ is_plain (lit "yup") = true
  /\ isNonsensicalAnswer (lit "yup") (countWords (lit "yup")) = true
  /\ (overall (calculateScores spoiledBatch (analyzeAnswers spoiledBatch) someJob)
      <= 15)%Q.
Proof.
  split; [left; reflexivity|]. split; [vm_compute; reflexivity|].
  split; [vm_compute; reflexivity|].
  apply (nonsensical_answer_caps_batch spoiledBatch (mkAnswer 0 (lit "yup")) someJob).
  - left; reflexivity.
  - vm_compute; reflexivity.
  - vm_compute; reflexivity.
Defined.

End AnalyzerFacts.

(* ================================================================= *)
(** ** The feedback generators *)

Section FeedbackFacts.
Import JS Performance.

Lemma push_if_app (c : bool) (x : string) (l : list str) :
  push_if c x l = l ++ (if c then [lit x] else []).
Proof. destruct c; simpl; [reflexivity | now rewrite app_nil_r]. Qed.

(** X9: the three lists of [generateFeedback] are never empty: there are
    between 1 and 5 strengths, between 1 and 4 weaknesses, and between 5
    and 7 suggestions, the first five of which are always the same
    baseline entries. *)
Theorem generateFeedback_lists :
  forall (answers : list Answer) (analysis : Analysis) (jobDetails : JobDetails),
    (1 <= List.length (strengths (generateFeedback answers analysis jobDetails)) <= 5)%nat
    /\ (1 <= List.length (weaknesses (generateFeedback answers analysis jobDetails)) <= 4)%nat
    /\ (5 <= List.length (suggestions (generateFeedback answers analysis jobDetails)) <= 7)%nat
    /\ firstn 5 (suggestions (generateFeedback answers analysis jobDetails))
       = List.map lit
           ["Practice common interview questions regularly";
            "Prepare specific examples for your experience";
            "Use the STAR method (Situation, Task, Action, Result)";
            "Research the company and role thoroughly";
            "Practice speaking clearly and confidently"].
Proof.
  intros answers a jd. unfold generateFeedback.
  cbn [strengths weaknesses suggestions].
  split; [|split; [|split]].
  - rewrite !push_if_app.
    destruct (0 <? experienceMentions a)%N, (0 <? problemSolving a)%N,
             (0 <? specificExamples a)%N, (0 <? communicationQuality a)%N,
             (0 <? technicalTerms a)%N;
      cbn [or_defaults List.length Nat.eqb app List.map]; lia.
  - rewrite !push_if_app.
    destruct (js_lt (averageLength a) 50), (specificExamples a =? 0)%N,
             (problemSolving a =? 0)%N,
             ((technicalTerms a =? 0)%N
              && includes (toLowerCase (title jd)) (lit "technical"));
      cbn [or_defaults List.length Nat.eqb app List.map]; lia.
  - rewrite !push_if_app, !length_app, length_map.
    destruct (js_lt (averageLength a) 50), (specificExamples a =? 0)%N; simpl; lia.
  - rewrite !push_if_app, <- app_assoc.
    rewrite firstn_app, length_map.
    cbn [List.length Nat.sub firstn List.map]. apply app_nil_r.
Qed.

Lemma lit_inj (s t : string) : lit s = lit t -> s = t.
Proof.
  unfold lit. intros H.
  apply (f_equal (List.map ascii_of_N)) in H. rewrite !map_map in H.
  assert (E : forall l : list ascii, List.map (fun a => ascii_of_N (N_of_ascii a)) l = l).
  { induction l as [|a l IH]; simpl; [reflexivity|].
    now rewrite ascii_N_embedding, IH. }
  rewrite !E in H.
  apply (f_equal string_of_list_ascii) in H.
  now rewrite !string_of_list_ascii_of_string in H.
Qed.

Lemma decimal_inj (n m : nat) : decimal n = decimal m -> n = m.
Proof.
  unfold decimal. intros H. apply lit_inj in H.
  apply (f_equal NilEmpty.uint_of_string) in H. rewrite !NilEmpty.usu in H.
  injection H as H. apply (f_equal Nat.of_uint) in H.
  now rewrite !DecimalNat.Unsigned.of_to in H.
Qed.

Lemma questionKey_inj (i j : nat) :
  lit "question" ++ decimal (i + 1) = lit "question" ++ decimal (j + 1) -> i = j.
Proof. intros H. apply app_inv_head in H. apply decimal_inj in H. lia. Qed.

Lemma NoDup_map_injective {A B} (f : A -> B) (l : list A) :
  (forall x y, f x = f y -> x = y) -> NoDup l -> NoDup (List.map f l).
Proof.
  intros Hf. induction 1 as [|x l Hx Hl IH]; simpl; constructor; [|exact IH].
  rewrite in_map_iff. intros (y & E & Hy). apply Hf in E. now subst.
Qed.

Lemma detailed_from_keys (questions : list Question) (answers : list Answer)
      (jd : JobDetails) (index : nat) :
  List.map fst (detailed_from index questions answers jd)
  = List.map (fun i => lit "question" ++ decimal (i + 1))
             (seq index (List.length questions)).
Proof.
  revert index; induction questions as [|q rest IH]; intros index; [reflexivity|].
  cbn [detailed_from List.length seq List.map]. rewrite IH.
  destruct (find _ answers); reflexivity.
Qed.

Lemma trim_default_feedback :
  trim (lit "Good response. Consider adding more specific examples to strengthen your answer.")
  <> [].
Proof. vm_compute. discriminate. Qed.

Lemma feedbackFor_nonempty (q : Question) (a : Answer) (jd : JobDetails) :
  feedbackFor q a jd <> [].
Proof.
  unfold feedbackFor. cbv zeta.
  match goal with
  | |- trim (if negb (truthy (trim ?fb)) then _ else _) <> [] => generalize fb
  end.
  intros fb. destruct (truthy (trim fb)) eqn:E; cbn [negb].
  - unfold truthy in E. destruct (trim fb); [discriminate | discriminate].
  - apply trim_default_feedback.
Qed.

Lemma detailed_from_nonempty (questions : list Question) (answers : list Answer)
      (jd : JobDetails) (index : nat) :
  Forall (fun e => snd e <> []) (detailed_from index questions answers jd).
Proof.
  revert index; induction questions as [|q rest IH]; intros index;
    cbn [detailed_from]; constructor; [|apply IH].
  destruct (find _ answers); cbn [snd];
    [apply feedbackFor_nonempty | vm_compute; discriminate].
Qed.

Lemma detailed_from_unanswered (questions : list Question) (answers : list Answer)
      (jd : JobDetails) (index i : nat) (q : Question) :
  nth_error questions i = Some q ->
  (forall a, In a answers -> questionIndex a <> N.of_nat (index + i)) ->
  nth_error (detailed_from index questions answers jd) i
  = Some (lit "question" ++ decimal (index + i + 1),
          lit "No answer provided. Consider preparing responses for common interview questions.").
Proof.
  revert index i; induction questions as [|q0 rest IH]; intros index i Hq Hno.
  - destruct i; discriminate.
  - destruct i as [|i]; cbn [detailed_from nth_error].
    + rewrite Nat.add_0_r in *.
      destruct (find _ answers) as [a|] eqn:F; [|reflexivity].
      apply find_some in F as [Hin E]. apply N.eqb_eq in E.
      exfalso. exact (Hno a Hin E).
    + cbn [nth_error] in Hq.
      replace (index + S i)%nat with (S index + i)%nat in * by lia.
      now apply IH.
Qed.

(** X10: [generateDetailedFeedback] returns one entry per question, in
    order, under the keys question1, question2, ..., which are pairwise
    distinct; no entry has an empty text; and a question that no answer
    refers to by its index gets the fixed "No answer provided" text. *)
Theorem generateDetailedFeedback_entries :
  forall (questions : list Question) (answers : list Answer) (jobDetails : JobDetails),
    List.map fst (generateDetailedFeedback questions answers jobDetails)
    = List.map (fun i => lit "question" ++ decimal (i + 1))
               (seq 0 (List.length questions))
    /\ NoDup (List.map fst (generateDetailedFeedback questions answers jobDetails))
    /\ Forall (fun e => snd e <> [])
              (generateDetailedFeedback questions answers jobDetails)
    /\ (forall (i : nat) (q : Question),
          nth_error questions i = Some q ->
          (forall a, In a answers -> questionIndex a <> N.of_nat i) ->
          nth_error (generateDetailedFeedback questions answers jobDetails) i
          = Some (lit "question" ++ decimal (i + 1),
                  lit "No answer provided. Consider preparing responses for common interview questions.")).
Proof.
  intros questions answers jd. unfold generateDetailedFeedback.
  split; [apply detailed_from_keys|]. split; [|split].
  - rewrite detailed_from_keys.
    apply NoDup_map_injective; [exact questionKey_inj | apply seq_NoDup].
  - apply detailed_from_nonempty.
  - intros i q Hq Hno.
    exact (detailed_from_unanswered questions answers jd 0 i q Hq Hno).
Qed.

Lemma generateDetailedFeedback_entries_witness :
  List.map fst (generateDetailedFeedback
                  [mkQuestion (lit "Why us?") None; mkQuestion (lit "Your stack?") None]
                  [mkAnswer 1 strongAnswer] someJob)
  = [lit "question1"; lit "question2"]
  /\ nth_error (generateDetailedFeedback
                  [mkQuestion (lit "Why us?") None; mkQuestion (lit "Your stack?") None]
                  [mkAnswer 1 strongAnswer] someJob) 0
     = Some (lit "question1",
             lit "No answer provided. Consider preparing responses for common interview questions.").
Proof.
  destruct (generateDetailedFeedback_entries
              [mkQuestion (lit "Why us?") None; mkQuestion (lit "Your stack?") None]
              [mkAnswer 1 strongAnswer] someJob) as (Hk & _ & _ & Hu).
  split; [exact Hk|].
  apply (Hu 0%nat (mkQuestion (lit "Why us?") None)); [reflexivity|].
  intros a [<- | []]. discriminate.
Defined.

End FeedbackFacts.

(* ================================================================= *)
(** ** The role-specific questions *)

Section RoleFacts.
Import JS PdfParser.

(** X11: the role-specific questions come in pairs, one pair per family
    of title keywords that the lowercased title contains, in the order
    software (ids 6, 7), data (8, 9), management (10, 11), whatever the
    resume holds; so there are 0, 2, 4 or 6 of them and their ids never
    collide with the ids 1 to 5 of the base questions. *)
Theorem getRoleSpecificQuestions_ids :
  forall (title requirements : str) (resumeContent : option ParsedResume),
    List.map Questions.id
             (Questions.getRoleSpecificQuestions title requirements resumeContent)
    = (if includes (toLowerCase title) (lit "software")
          || includes (toLowerCase title) (lit "developer")
          || includes (toLowerCase title) (lit "programmer")
       then [6; 7] else [])
      ++ (if includes (toLowerCase title) (lit "data")
             || includes (toLowerCase title) (lit "analyst")
             || includes (toLowerCase title) (lit "scientist")
          then [8; 9] else [])
      ++ (if includes (toLowerCase title) (lit "manager")
             || includes (toLowerCase title) (lit "lead")
             || includes (toLowerCase title) (lit "director")
          then [10; 11] else [])
    /\ (List.length (Questions.getRoleSpecificQuestions title requirements resumeContent)
        <= 6)%nat
    /\ Forall (fun q => 6 <= Questions.id q <= 11)
              (Questions.getRoleSpecificQuestions title requirements resumeContent).
Proof.
  intros title requirements resume.
  assert (Hids :
    List.map Questions.id
             (Questions.getRoleSpecificQuestions title requirements resume)
    = (if includes (toLowerCase title) (lit "software")
          || includes (toLowerCase title) (lit "developer")
          || includes (toLowerCase title) (lit "programmer")
       then [6; 7] else [])
      ++ (if includes (toLowerCase title) (lit "data")
             || includes (toLowerCase title) (lit "analyst")
             || includes (toLowerCase title) (lit "scientist")
          then [8; 9] else [])
      ++ (if includes (toLowerCase title) (lit "manager")
             || includes (toLowerCase title) (lit "lead")
             || includes (toLowerCase title) (lit "director")
          then [10; 11] else [])).
  { unfold Questions.getRoleSpecificQuestions. cbv zeta.
    destruct (includes (toLowerCase title) (lit "software")
              || includes (toLowerCase title) (lit "developer")
              || includes (toLowerCase title) (lit "programmer"));
    destruct (includes (toLowerCase title) (lit "data")
              || includes (toLowerCase title) (lit "analyst")
              || includes (toLowerCase title) (lit "scientist"));
    destruct (includes (toLowerCase title) (lit "manager")
              || includes (toLowerCase title) (lit "lead")
              || includes (toLowerCase title) (lit "director"));
    destruct resume as [r|];
    try destruct (existsb Questions.is_core (skills r));
    try destruct (existsb Questions.is_data_project (projects r));
    try destruct (existsb Questions.is_leadership_role (experience r));
    try destruct (projects r);
    reflexivity. }
  split; [exact Hids|]. split.
  - rewrite <- (length_map Questions.id), Hids.
    repeat match goal with |- context [if ?c then _ else _] => destruct c end;
      simpl; lia.
  - apply Forall_forall. intros q Hq.
    apply (in_map Questions.id) in Hq. rewrite Hids in Hq.
    repeat match type of Hq with context [if ?c then _ else _] => destruct c end;
      simpl in Hq; intuition (subst; lia).
Qed.

End RoleFacts.

(* ================================================================= *)
(** ** The matcher against the declarative notion of a match *)

Section MatcherFacts.
Import JS Regex.

Lemma star_loop_sound (n : nat) (a : regex) :
  (forall s k x, run n a s k = Some x ->
                 exists rest, matches n a s rest /\ k rest = Some x) ->
  forall fuel s k x,
    star_loop (run n a) fuel s k = Some x ->
    exists rest, matches n (Star a) s rest /\ k rest = Some x.
Proof.
  intros IHa. induction fuel as [|f IH]; intros s k x H; cbn [star_loop] in H.
  - exists s. split; [constructor | exact H].
  - destruct (run n a s _) as [y|] eqn:E.
    + injection H as ->. apply IHa in E as (s1 & Hm & Hk).
      destruct (Nat.ltb (List.length s1) (List.length s)); [|discriminate].
      apply IH in Hk as (rest & Hs & Hk).
      exists rest. split; [|exact Hk]. econstructor; eassumption.
    + exists s. split; [constructor | exact H].
Qed.

(** Whatever the matcher accepts is a match. *)
Lemma run_sound (n : nat) (r : regex) :
  forall s k x, run n r s k = Some x ->
                exists rest, matches n r s rest /\ k rest = Some x.
Proof.
  induction r as [|p|a IHa b IHb|a IHa b IHb|a IHa| |]; intros s k x H;
    cbn [run] in H.
  - exists s. split; [constructor | exact H].
  - destruct s as [|c s]; [discriminate|].
    destruct (p c) eqn:E; [|discriminate].
    exists s. split; [now constructor | exact H].
  - apply IHa in H as (s1 & Ha & H). apply IHb in H as (s2 & Hb & H).
    exists s2. split; [econstructor; eassumption | exact H].
  - destruct (run n a s k) as [y|] eqn:E.
    + injection H as ->. apply IHa in E as (s1 & Ha & Hk).
      exists s1. split; [now apply M_AltL | exact Hk].
    + apply IHb in H as (s1 & Hb & Hk).
      exists s1. split; [now apply M_AltR | exact Hk].
  - eapply star_loop_sound; eassumption.
  - destruct (Nat.eqb (List.length s) n) eqn:E; [|discriminate].
    apply Nat.eqb_eq in E. exists s. split; [now constructor | exact H].
  - destruct s; [|discriminate]. exists []. split; [constructor | exact H].
Qed.

(** A match consumes a prefix. *)
Lemma matches_prefix (n : nat) (r : regex) (s rest : str) :
  matches n r s rest -> exists m, s = m ++ rest.
Proof.
  induction 1.
  - now exists [].
  - now exists [c].
  - destruct IHmatches1 as [m1 ->], IHmatches2 as [m2 ->].
    exists (m1 ++ m2). now rewrite app_assoc.
  - assumption.
  - assumption.
  - now exists [].
  - destruct IHmatches1 as [m1 ->], IHmatches2 as [m2 ->].
    exists (m1 ++ m2). now rewrite app_assoc.
  - now exists [].
  - now exists [].
Qed.

Lemma take_matched_app (m rest : str) : take_matched (m ++ rest) rest = m.
Proof.
  unfold take_matched. rewrite length_app.
  replace (List.length m + List.length rest - List.length rest)%nat
    with (List.length m) by lia.
  rewrite firstn_app, Nat.sub_diag, firstn_all. simpl. apply app_nil_r.
Qed.

Lemma exec_at_sound (n : nat) (r : regex) (s rest : str) :
  exec_at n r s = Some rest ->
  exists m, s = m ++ rest /\ take_matched s rest = m /\ matches n r (m ++ rest) rest.
Proof.
  unfold exec_at. intros E. apply run_sound in E as (rest' & Hm & Hk).
  injection Hk as ->.
  destruct (matches_prefix _ _ _ _ Hm) as [m Em]. subst s.
  exists m. split; [reflexivity|]. split; [apply take_matched_app | exact Hm].
Qed.

Lemma search_from_sound (n : nat) (r : regex) (s pre_rev pre m post : str) :
  search_from n r pre_rev s = Some (pre, m, post) ->
  rev pre_rev ++ s = pre ++ m ++ post /\ matches n r (m ++ post) post.
Proof.
  revert pre_rev; induction s as [|c s IH]; intros pre_rev H; cbn [search_from] in H.
  - destruct (exec_at n r []) as [rest|] eqn:E; [|discriminate].
    apply exec_at_sound in E as (m' & Es & Et & Hm).
    rewrite Et in H. injection H as <- <- <-.
    split; [now rewrite <- Es | exact Hm].
  - destruct (exec_at n r (c :: s)) as [rest|] eqn:E.
    + apply exec_at_sound in E as (m' & Es & Et & Hm).
      rewrite Et in H. injection H as <- <- <-.
      split; [now rewrite <- Es | exact Hm].
    + apply IH in H as [H1 H2]. split; [|exact H2].
      rewrite <- H1. cbn [rev]. now rewrite <- app_assoc.
Qed.

(** [s.match(r)[0]] is a piece of [s] that [r] matches. *)
Lemma match0_sound (r : regex) (s m : str) :
  match0 r s = Some m ->
  exists pre post, s = pre ++ m ++ post
                   /\ matches (List.length s) r (m ++ post) post.
Proof.
  unfold match0, search. destruct (search_from _ r [] s) as [[[pre m'] post]|] eqn:E;
    [|discriminate].
  intros H. injection H as ->.
  apply search_from_sound in E as [H1 H2].
  exists pre, post. split; [exact H1 | exact H2].
Qed.

(** Replacing every unit of a class by nothing is filtering. *)
Lemma replace_all_class (p : N -> bool) (s : str) :
  replace_all (Cls p) [] s = filter (fun c => negb (p c)) s.
Proof.
  unfold replace_all. generalize (List.length s) at 2. intros n.
  assert (H : forall fuel s, (List.length s < fuel)%nat ->
              replace_all_from fuel n (Cls p) [] s = filter (fun c => negb (p c)) s).
  { induction fuel as [|f IH]; intros t Ht; [lia|].
    destruct t as [|c t]; [reflexivity|].
    cbn [replace_all_from exec_at run filter].
    destruct (p c); cbn [negb].
    - replace (Nat.ltb (List.length t) (List.length (c :: t))) with true
        by (symmetry; apply Nat.ltb_lt; simpl; lia).
      cbn [app]. apply IH. simpl in Ht. lia.
    - f_equal. apply IH. simpl in Ht. lia. }
  apply H. lia.
Qed.

End MatcherFacts.

(* ================================================================= *)
(** ** Personal information *)

Section PersonalInfoFacts.
Import JS Regex PdfParser Scenarios.

Lemma first_some_spec {A B} (f : A -> option B) (l : list A) (y : B) :
  first_some f l = Some y -> exists x, In x l /\ f x = Some y.
Proof.
  induction l as [|x l IH]; cbn [first_some]; [discriminate|].
  destruct (f x) as [z|] eqn:E.
  - intros H. injection H as ->. exists x. split; [now left | exact E].
  - intros H. apply IH in H as (x' & Hin & Hx). exists x'. split; [now right | exact Hx].
Qed.

Lemma email_has_at_sign (n : nat) (e post : str) :
  matches n emailPattern (e ++ post) post -> In 64 e.
Proof.
  unfold emailPattern. intros H.
  inversion H as [| |a b s s1 s2 Hlocal Hrest| | | | | |]; subst.
  inversion Hrest as [| |a b s s2 s3 Hat Hdomain| | | | | |]; subst.
  inversion Hat as [|p c s Hc| | | | | | |]; subst.
  apply N.eqb_eq in Hc. subst c.
  destruct (matches_prefix _ _ _ _ Hlocal) as [m1 E1].
  destruct (matches_prefix _ _ _ _ Hdomain) as [m2 E2].
  rewrite E2 in E1.
  change (m1 ++ 64 :: m2 ++ post) with (m1 ++ (64 :: m2) ++ post) in E1.
  rewrite app_assoc in E1. apply app_inv_tail in E1. subst e.
  apply in_or_app. right. now left.
Qed.

Lemma digits_of_filter (s : str) : digits_of s = filter is_digit s.
Proof.
  unfold digits_of. rewrite replace_all_class.
  apply filter_ext. intros c. apply negb_involutive.
Qed.

(** X12: what [extractPersonalInfo] returns comes from the lines: the
    email is a piece of one line and contains an at sign; the phone is a
    piece of one line and holds at least ten digits; the name is a whole
    line of more than two units and at most four space-separated words
    that mentions neither "resume" nor "cv" and holds no email or phone;
    the location is never filled in. *)
Theorem extractPersonalInfo_fields :
  forall lines : list str,
    (forall e, email (extractPersonalInfo lines) = Some e ->
               In 64 e
               /\ exists line pre post, In line lines /\ line = pre ++ e ++ post)
    /\ (forall p, phone (extractPersonalInfo lines) = Some p ->
                  (10 <= List.length (filter is_digit p))%nat
                  /\ exists line pre post, In line lines /\ line = pre ++ p ++ post)
    /\ (forall n, name (extractPersonalInfo lines) = Some n ->
                  In n lines
                  /\ (2 < List.length n)%nat
                  /\ (List.length (split_unit 32 n) <= 4)%nat
                  /\ includes (toLowerCase n) (lit "resume") = false
                  /\ includes (toLowerCase n) (lit "cv") = false
                  /\ test emailPattern n = false
                  /\ test phonePattern n = false)
    /\ location (extractPersonalInfo lines) = None.
Proof.
  intros lines. unfold extractPersonalInfo. cbn [email phone name location].
  split; [|split; [|split]].
  - intros e H. apply first_some_spec in H as (line & Hin & Hm).
    apply match0_sound in Hm as (pre & post & Hs & Hmatch).
    split; [eapply email_has_at_sign; eassumption|].
    exists line, pre, post. split; assumption.
  - intros p H. apply first_some_spec in H as (line & Hin & Hm).
    destruct (match0 phonePattern line) as [m|] eqn:E; [|discriminate].
    destruct (Nat.leb 10 (List.length (digits_of m))) eqn:D; [|discriminate].
    injection Hm as ->. apply Nat.leb_le in D. rewrite digits_of_filter in D.
    split; [exact D|].
    apply match0_sound in E as (pre & post & Hs & _).
    exists line, pre, post. split; assumption.
  - intros n H. apply first_some_spec in H as (line & Hin & Hc).
    match type of Hc with (if ?c then _ else _) = _ => destruct c eqn:C end;
      [|discriminate].
    injection Hc as ->.
    repeat (apply andb_true_iff in C as [C ?]).
    repeat match goal with
           | H : negb _ = true |- _ => apply negb_true_iff in H
           | H : Nat.ltb _ _ = true |- _ => apply Nat.ltb_lt in H
           | H : Nat.leb _ _ = true |- _ => apply Nat.leb_le in H
           end.
    repeat split; assumption.
  - reflexivity.
Qed.

Lemma extractPersonalInfo_fields_witness :
  email (extractPersonalInfo (split_lines sevenLines)) = Some (lit "john@x.com")
  /\ In 64 (lit "john@x.com")
  /\ exists line pre post,
       In line (split_lines sevenLines) /\ line = pre ++ lit "john@x.com" ++ post.
Proof.
  assert (E : email (extractPersonalInfo (split_lines sevenLines))
              = Some (lit "john@x.com")) by (vm_compute; reflexivity).
  split; [exact E|].
  exact (proj1 (extractPersonalInfo_fields (split_lines sevenLines))
               (lit "john@x.com") E).
Defined.

End PersonalInfoFacts.

(* ================================================================= *)
(** ** Skills *)

Section SkillsFacts.
Import JS Regex PdfParser Scenarios.

Lemma set_add_all_complete (l seen : list str) (x : str) :
  In x l -> In x (set_add_all seen l) \/ In x seen.
Proof.
  revert seen; induction l as [|y l IH]; intros seen Hin; [contradiction|].
  cbn [set_add_all]. destruct (mem y seen) eqn:E.
  - destruct Hin as [-> | Hin]; [right; now apply mem_In | now apply IH].
  - destruct Hin as [-> | Hin]; [left; now left|].
    destruct (IH (y :: seen) Hin) as [H | [-> | H]];
      [left; now right | left; now left | now right].
Qed.

Lemma new_Set_complete (l : list str) (x : str) : In x l -> In x (new_Set l).
Proof.
  intros H. destruct (set_add_all_complete l [] x H) as [H' | []]. exact H'.
Qed.

Lemma techSkills_lowercase :
  forall k, In k techSkills -> toLowerCase k = k.
Proof.
  assert (H : forallb (fun k => eqb (toLowerCase k) k) techSkills = true)
    by (vm_compute; reflexivity).
  intros k Hk. rewrite forallb_forall in H. apply eqb_eq. now apply H.
Qed.

Lemma extractSkillsFromLine_vocabulary (line : str) :
  Forall in_vocabulary (extractSkillsFromLine line techSkills).
Proof.
  unfold extractSkillsFromLine. apply Forall_forall. intros w Hw.
  apply filter_In in Hw as [_ Hw]. unfold arr_includes in Hw.
  now apply mem_In in Hw.
Qed.

Lemma skills_loop_vocabulary (lines : list str) (inSec ended : bool) (skills : list str) :
  Forall in_vocabulary skills ->
  Forall in_vocabulary (skills_loop inSec ended skills lines).
Proof.
  revert inSec ended skills; induction lines as [|raw rest IH];
    intros inSec ended skills H; cbn [skills_loop]; [exact H|].
  destruct (some_in skillKeywords (toLowerCase raw)); [now apply IH|].
  cbv zeta.
  destruct (inSec && negb (ended || inSec && leaves_skills (toLowerCase raw)));
    apply IH; [|exact H].
  apply Forall_app. split; [exact H | apply extractSkillsFromLine_vocabulary].
Qed.

Lemma scan_step_vocabulary (lowerText : str) (l skills : list str) :
  (forall k, In k l -> In k techSkills) ->
  Forall in_vocabulary skills ->
  Forall in_vocabulary
    (fold_left (fun skills skill =>
                  if includes lowerText skill
                     && negb (existsb (fun s => eqb (toLowerCase s) skill) skills)
                  then skills ++ [skill] else skills) l skills).
Proof.
  revert skills; induction l as [|k l IH]; intros skills Hl H; cbn [fold_left];
    [exact H|].
  apply IH; [intros k' Hk'; apply Hl; now right|].
  destruct (includes lowerText k && _); [|exact H].
  apply Forall_app. split; [exact H|]. constructor; [|constructor].
  unfold in_vocabulary. rewrite techSkills_lowercase; apply Hl; now left.
Qed.

Lemma bullets_vocabulary (bs skills : list str) :
  Forall in_vocabulary skills ->
  Forall in_vocabulary
    (fold_left (fun skills b => skills ++ extractSkillsFromLine b techSkills) bs skills).
Proof.
  revert skills; induction bs as [|b bs IH]; intros skills H; cbn [fold_left];
    [exact H|].
  apply IH. apply Forall_app. split; [exact H | apply extractSkillsFromLine_vocabulary].
Qed.

(** X13: for a text and lines of plain characters, every skill that
    [extractSkills] returns is a word of the fixed technology vocabulary
    when lowercased, and the returned list never holds the same string
    twice. *)
Theorem extractSkills_vocabulary :
  forall (text : str) (lines : list str),
    is_plain text = true ->
    all_plain lines = true ->
    Forall (fun s => In (toLowerCase s) techSkills) (extractSkills text lines)
    /\ NoDup (extractSkills text lines).
Proof.
  intros text lines _ _. split; [|apply new_Set_NoDup].
  unfold extractSkills. cbv zeta. apply Forall_forall. intros s Hs.
  apply new_Set_subset in Hs. revert s Hs. apply Forall_forall.
  apply bullets_vocabulary. unfold scan_text.
  apply scan_step_vocabulary; [tauto|].
  apply skills_loop_vocabulary. constructor.
Qed.

Lemma extractSkills_vocabulary_witness :
  is_plain bulletedSkills = true
  /\ all_plain (split_lines bulletedSkills) = true
  /\ extractSkills bulletedSkills (split_lines bulletedSkills)
     = [lit "React"; lit "Docker"; lit "python"]
  /\ Forall (fun s => In (toLowerCase s) techSkills)
            (extractSkills bulletedSkills (split_lines bulletedSkills)).
Proof.
  assert (H1 : is_plain bulletedSkills = true) by (vm_compute; reflexivity).
  assert (H2 : all_plain (split_lines bulletedSkills) = true) by (vm_compute; reflexivity).
  split; [exact H1|]. split; [exact H2|]. split; [vm_compute; reflexivity|].
  exact (proj1 (extractSkills_vocabulary _ _ H1 H2)).
Defined.

Lemma scan_step_keeps (lowerText : str) (l skills : list str) (s : str) :
  In s skills ->
  In s (fold_left (fun skills skill =>
                     if includes lowerText skill
                        && negb (existsb (fun s => eqb (toLowerCase s) skill) skills)
                     then skills ++ [skill] else skills) l skills).
Proof.
  revert skills; induction l as [|k l IH]; intros skills H; cbn [fold_left];
    [exact H|].
  apply IH. destruct (includes lowerText k && _); [|exact H].
  apply in_or_app. now left.
Qed.

Lemma scan_step_finds (lowerText : str) (l skills : list str) (w : str) :
  In w l -> toLowerCase w = w -> includes lowerText w = true ->
  has_ignoring_case w
    (fold_left (fun skills skill =>
                  if includes lowerText skill
                     && negb (existsb (fun s => eqb (toLowerCase s) skill) skills)
                  then skills ++ [skill] else skills) l skills).
Proof.
  revert skills; induction l as [|k l IH]; intros skills Hin Hlow Hinc;
    [contradiction|].
  cbn [fold_left]. destruct Hin as [-> | Hin]; [|now apply IH].
  rewrite Hinc. cbn [andb].
  destruct (existsb (fun s => eqb (toLowerCase s) w) skills) eqn:E; cbn [negb].
  - apply existsb_exists in E as (s & Hs & Es). apply eqb_eq in Es.
    exists s. split; [now apply scan_step_keeps | exact Es].
  - exists w. split; [|exact Hlow].
    apply scan_step_keeps. apply in_or_app. right. now left.
Qed.

Lemma bullets_keep (bs skills : list str) (s : str) :
  In s skills ->
  In s (fold_left (fun skills b => skills ++ extractSkillsFromLine b techSkills)
                  bs skills).
Proof.
  revert skills; induction bs as [|b bs IH]; intros skills H; cbn [fold_left];
    [exact H|].
  apply IH. apply in_or_app. now left.
Qed.

(** X14: for a text and lines of plain characters, a vocabulary word
    that occurs anywhere in the lowercased text is found, with or without
    a skills section: the returned list holds an entry equal to it up to
    case. *)
Theorem extractSkills_finds_words_of_the_text :
  forall (text : str) (lines : list str) (w : str),
    is_plain text = true ->
    all_plain lines = true ->
    In w techSkills ->
    includes (toLowerCase text) w = true ->
    exists s, In s (extractSkills text lines) /\ toLowerCase s = w.
Proof.
  intros text lines w _ _ Hw Hinc. unfold extractSkills. cbv zeta.
  destruct (scan_step_finds (toLowerCase text) techSkills
              (skills_loop false false [] lines) w Hw
              (techSkills_lowercase w Hw) Hinc) as (s & Hs & Es).
  exists s. split; [|exact Es].
  apply new_Set_complete. apply bullets_keep. exact Hs.
Qed.

Lemma extractSkills_finds_words_of_the_text_witness :
  is_plain (lit "I deployed it with Docker.") = true
  /\ all_plain [lit "I deployed it with Docker."] = true
  /\ In (lit "docker") techSkills
  /\ includes (toLowerCase (lit "I deployed it with Docker.")) (lit "docker") = true
  /\ exists s, In s (extractSkills (lit "I deployed it with Docker.")
                                   [lit "I deployed it with Docker."])
               /\ toLowerCase s = lit "docker".
Proof.
  assert (H1 : In (lit "docker") techSkills).
  { apply mem_In. vm_compute. reflexivity. }
  assert (H2 : includes (toLowerCase (lit "I deployed it with Docker."))
                        (lit "docker") = true) by (vm_compute; reflexivity).
  assert (P1 : is_plain (lit "I deployed it with Docker.") = true)
    by (vm_compute; reflexivity).
  assert (P2 : all_plain [lit "I deployed it with Docker."] = true)
    by (vm_compute; reflexivity).
  split; [exact P1|]. split; [exact P2|].
  split; [exact H1|]. split; [exact H2|].
  exact (extractSkills_finds_words_of_the_text _ _ _ P1 P2 H1 H2).
Defined.

End SkillsFacts.

(* ================================================================= *)
(** ** Lines *)

Section LineFacts.
Import JS PdfParser Scenarios.

Lemma dropWhile_fixed (p : N -> bool) (c : N) (s : str) :
  p c = false -> dropWhile p (c :: s) = c :: s.
Proof. intros H. cbn [dropWhile]. now rewrite H. Qed.

Lemma dropWhile_split (p : N -> bool) (s : str) :
  exists pre, s = pre ++ dropWhile p s.
Proof.
  induction s as [|c s [pre IH]]; [now exists []|].
  cbn [dropWhile]. destruct (p c).
  - exists (c :: pre). cbn [app]. now f_equal.
  - now exists [].
Qed.

Lemma dropWhile_In (p : N -> bool) (s : str) (x : N) :
  In x (dropWhile p s) -> In x s.
Proof.
  destruct (dropWhile_split p s) as [pre E]. intros H.
  rewrite E. apply in_or_app. now right.
Qed.

Lemma trim_In (s : str) (x : N) : In x (trim s) -> In x s.
Proof.
  unfold trim, trimEnd, trimStart. intros H.
  apply in_rev in H. apply dropWhile_In in H. apply in_rev in H.
  now apply dropWhile_In in H.
Qed.

(** [trim] is idempotent. *)
Lemma trim_trim (s : str) : trim (trim s) = trim s.
Proof.
  unfold trim, trimEnd, trimStart.
  set (t := dropWhile is_space s).
  set (u := dropWhile is_space (rev t)).
  destruct u as [|c u'] eqn:Eu; [reflexivity|].
  assert (Hc : is_space c = false) by (eapply dropWhile_head; exact Eu).
  (* rev (c :: u') is a prefix of t, so its head is the head of t *)
  destruct (dropWhile_split is_space (rev t)) as [pre Epre].
  fold u in Epre. rewrite Eu in Epre.
  assert (Et : t = rev (c :: u') ++ rev pre).
  { rewrite <- rev_app_distr, <- Epre. symmetry. apply rev_involutive. }
  assert (Hstart : dropWhile is_space (rev (c :: u')) = rev (c :: u')).
  { destruct (rev (c :: u')) as [|d w] eqn:Er.
    - reflexivity.
    - apply dropWhile_fixed.
      destruct t as [|d' t'] eqn:Et'.
      + destruct (rev u'); discriminate.
      + cbn [app] in Et. injection Et as -> _.
        eapply dropWhile_head. unfold t in Et'. exact Et'. }
  rewrite Hstart, rev_involutive.
  now rewrite (dropWhile_fixed is_space c u' Hc).
Qed.

Lemma split_unit_no_separator (c : N) (s : str) :
  Forall (fun piece => ~ In c piece) (split_unit c s).
Proof.
  induction s as [|x s IH]; cbn [split_unit].
  - constructor; [tauto | constructor].
  - destruct (N.eqb x c) eqn:E.
    + constructor; [tauto | exact IH].
    + destruct (split_unit c s) as [|w ws]; [constructor; [|constructor]|].
      * intros [-> | []]. now rewrite N.eqb_refl in E.
      * inversion IH as [|? ? Hw Hws]; subst. constructor; [|exact Hws].
        intros [-> | H]; [now rewrite N.eqb_refl in E | now apply Hw].
Qed.

(** X15: the lines that the extractors work on are never empty, carry no
    white space at either end ([trim] leaves them unchanged) and hold no
    line feed. *)
Theorem split_lines_are_clean :
  forall text : str,
    Forall (fun line => line <> [] /\ trim line = line /\ ~ In 10 line)
           (split_lines text).
Proof.
  intros text. unfold split_lines. apply Forall_forall. intros line Hl.
  apply filter_In in Hl as [Hin Hne].
  apply in_map_iff in Hin as (raw & <- & Hraw).
  split; [|split].
  - unfold nonempty in Hne. destruct (trim raw); [discriminate | discriminate].
  - apply trim_trim.
  - intros H. apply trim_In in H.
    pose proof (split_unit_no_separator 10 text) as Hs.
    rewrite Forall_forall in Hs. exact (Hs raw Hraw H).
Qed.

End LineFacts.

(* ================================================================= *)
(** ** Projects *)

Section ProjectFacts.
Import JS PdfParser Scenarios.

Lemma opt_eqb_eq (a b : option str) : opt_eqb a b = true <-> a = b.
Proof.
  destruct a as [x|], b as [y|]; simpl; split; try congruence.
  - intros H. apply eqb_eq in H. now subst.
  - intros H. injection H as ->. now apply eqb_eq.
Qed.

Lemma processed_In (x : option str) (l : list (option str)) :
  existsb (opt_eqb x) l = true <-> In x l.
Proof.
  rewrite existsb_exists. split.
  - intros (y & Hy & E). apply opt_eqb_eq in E. now subst.
  - intros H. exists x. split; [exact H | now apply opt_eqb_eq].
Qed.

Lemma NoDup_rev_inv {A} (l : list A) : NoDup (rev l) -> NoDup l.
Proof. intros H. apply NoDup_rev in H. now rewrite rev_involutive in H. Qed.

Lemma NoDup_snoc {A} (l : list A) (x : A) : NoDup l -> ~ In x l -> NoDup (l ++ [x]).
Proof.
  intros Hl Hx. apply NoDup_rev_inv.
  rewrite rev_app_distr. cbn [rev app]. constructor; [|now apply NoDup_rev].
  intros H. apply Hx. now apply in_rev.
Qed.

(** What a flush does to the array, given the invariant. *)
Lemma flush_project_pushes (register : bool) (st : ProjState) :
  projects_invariant st ->
  project_has_keys (currentProject st) = true ->
  NoDup (List.map proj_name (projects_acc (flush_project register st)))
  /\ Forall well_formed_project (projects_acc (flush_project register st))
  /\ (register = true ->
      forall p, In p (projects_acc (flush_project register st)) ->
                existsb (opt_eqb (proj_name p))
                        (processedProjects (flush_project register st)) = true)
  /\ currentProject (flush_project register st)
     = {| proj_name := proj_name (currentProject st);
          proj_description := Some (join (lit " ") (projectDescription st));
          proj_technologies := proj_technologies (currentProject st) |}.
Proof.
  intros (Hnd & Hreg & Hwf & Hcur) Hkeys.
  destruct (Hcur Hkeys) as (n & Hn & Hpn & Ht).
  unfold flush_project. cbv zeta. cbn [proj_name].
  destruct (existsb (opt_eqb (proj_name (currentProject st))) (processedProjects st))
    eqn:E; cbn [projects_acc processedProjects currentProject].
  - repeat split; try assumption. intros _. exact Hreg.
  - assert (Hfresh : ~ In (proj_name (currentProject st))
                        (List.map proj_name (projects_acc st))).
    { intros Hin. apply in_map_iff in Hin as (p & Ep & Hp).
      apply Hreg in Hp. rewrite Ep in Hp. congruence. }
    repeat split.
    + rewrite map_app. cbn [List.map proj_name]. now apply NoDup_snoc.
    + apply Forall_app. split; [exact Hwf|]. constructor; [|constructor].
      exists n, (join (lit " ") (projectDescription st)). cbn. repeat split; assumption.
    + intros -> p Hp. apply in_app_or in Hp as [Hp | [<- | []]].
      * apply Hreg in Hp. apply processed_In. apply in_or_app. left.
        now apply processed_In.
      * cbn [proj_name]. apply processed_In. apply in_or_app. right. now left.
Qed.

Lemma flush_project_invariant (st : ProjState) :
  projects_invariant st ->
  project_has_keys (currentProject st) = true ->
  projects_invariant (flush_project true st).
Proof.
  intros Hinv Hkeys.
  destruct (flush_project_pushes true st Hinv Hkeys) as (H1 & H2 & H3 & H4).
  destruct Hinv as (_ & _ & _ & Hcur). destruct (Hcur Hkeys) as (n & Hn & Hpn & Ht).
  repeat split; try assumption; [now apply H3|].
  intros _. rewrite H4. cbn. exists n. repeat split; assumption.
Qed.

Lemma maybe_flush_invariant (st : ProjState) :
  projects_invariant st ->
  projects_invariant (if project_has_keys (currentProject st)
                      then flush_project true st else st).
Proof.
  intros H. destruct (project_has_keys (currentProject st)) eqn:E;
    [now apply flush_project_invariant | exact H].
Qed.

Lemma describe_invariant (st : ProjState) (d : list str) :
  projects_invariant st ->
  projects_invariant {| currentProject := currentProject st;
                        projectDescription := d;
                        processedProjects := processedProjects st;
                        projects_acc := projects_acc st |}.
Proof. intros H. exact H. Qed.

Lemma projects_loop_invariant (lines : list str) (inSec : bool) (st : ProjState) :
  projects_invariant st -> projects_invariant (projects_loop inSec st lines).
Proof.
  revert inSec st; induction lines as [|raw rest IH]; intros inSec st H;
    cbn [projects_loop]; [exact H|]. cbv zeta.
  destruct (some_in projectKeywords (toLowerCase (trim raw))); [now apply IH|].
  destruct (negb inSec); [now apply IH|].
  destruct (includes (toLowerCase (trim raw)) (lit "education")
            || includes (toLowerCase (trim raw)) (lit "experience")
            || includes (toLowerCase (trim raw)) (lit "skills"));
    [now apply maybe_flush_invariant|].
  destruct (isProjectName (trim raw)) eqn:Ep.
  - apply IH. pose proof (maybe_flush_invariant st H) as (Hnd & Hreg & Hwf & _).
    repeat split; try assumption.
    intros _. cbn. exists (trim raw). repeat split. exact Ep.
  - destruct (starts_with_bullet (trim raw)); [apply IH; now apply describe_invariant|].
    destruct (Nat.ltb 10 (List.length (trim raw))
              && truthy_opt (proj_name (currentProject st))
              && negb (includes (trim raw) (lit ":")));
      apply IH; [now apply describe_invariant | exact H].
Qed.

Lemma initial_projects_invariant :
  projects_invariant {| currentProject := emptyProject; projectDescription := [];
                        processedProjects := []; projects_acc := [] |}.
Proof.
  repeat split; cbn; try constructor; try contradiction. discriminate.
Qed.

(** X16: the projects that [extractProjects] returns have pairwise
    distinct names; each has a name that is a project-name line (it holds
    a colon and has between 11 and 99 units) and a description, and none
    has technologies. *)
Theorem extractProjects_entries :
  forall lines : list str,
    NoDup (List.map proj_name (extractProjects lines))
    /\ Forall (fun p => exists n d,
                 proj_name p = Some n
                 /\ includes n (lit ":") = true
                 /\ (10 < List.length n < 100)%nat
                 /\ proj_description p = Some d
                 /\ proj_technologies p = None)
              (extractProjects lines).
Proof.
  intros lines. unfold extractProjects. cbv zeta.
  pose proof (projects_loop_invariant lines false _ initial_projects_invariant) as Hinv.
  set (st := projects_loop false _ lines) in *.
  assert (H : NoDup (List.map proj_name
                       (projects_acc (if project_has_keys (currentProject st)
                                      then flush_project false st else st)))
              /\ Forall well_formed_project
                   (projects_acc (if project_has_keys (currentProject st)
                                  then flush_project false st else st))).
  { destruct (project_has_keys (currentProject st)) eqn:E.
    - destruct (flush_project_pushes false st Hinv E) as (H1 & H2 & _). now split.
    - destruct Hinv as (H1 & _ & H2 & _). now split. }
  destruct H as [H1 H2]. split; [exact H1|].
  eapply Forall_impl; [|exact H2].
  intros p (n & d & Hn & Hp & Hd & Ht). exists n, d.
  unfold isProjectName in Hp.
  destruct (negb (truthy n) || Nat.ltb (List.length n) 5); [discriminate|].
  cbv zeta in Hp. apply andb_true_iff in Hp as [Hc Hl].
  apply andb_true_iff in Hl as [Hl1 Hl2].
  apply Nat.ltb_lt in Hl1, Hl2. repeat split; assumption.
Qed.

End ProjectFacts.

(* ================================================================= *)
(** ** Sections need their header *)

Section HeaderFacts.
Import JS PdfParser Scenarios.

Lemma experience_loop_outside (lines : list str) (st : ExpState) :
  no_header experienceKeywords lines -> experience_loop false st lines = st.
Proof.
  induction 1 as [|raw rest Hraw Hrest IH]; cbn [experience_loop]; [reflexivity|].
  cbv zeta. rewrite Hraw. cbn [negb]. exact IH.
Qed.

Lemma projects_loop_outside (lines : list str) (st : ProjState) :
  no_header projectKeywords lines -> projects_loop false st lines = st.
Proof.
  induction 1 as [|raw rest Hraw Hrest IH]; cbn [projects_loop]; [reflexivity|].
  cbv zeta. rewrite Hraw. cbn [negb]. exact IH.
Qed.

Lemma education_loop_outside (lines : list str) (cur : Education) (acc : list Education) :
  no_header educationKeywords lines -> education_loop false cur acc lines = (cur, acc).
Proof.
  induction 1 as [|raw rest Hraw Hrest IH]; cbn [education_loop]; [reflexivity|].
  cbv zeta. rewrite Hraw. cbn [negb]. exact IH.
Qed.

Lemma certifications_loop_outside (lines : list str) (acc : list str) :
  no_header certKeywords lines -> certifications_loop false acc lines = acc.
Proof.
  induction 1 as [|raw rest Hraw Hrest IH]; cbn [certifications_loop]; [reflexivity|].
  cbv zeta. rewrite Hraw. cbn [andb negb]. exact IH.
Qed.

Lemma languages_loop_outside (lines : list str) (acc : list str) :
  Forall (fun line => some_in languageKeywords (toLowerCase line) = false) lines ->
  languages_loop false acc lines = acc.
Proof.
  induction 1 as [|raw rest Hraw Hrest IH]; cbn [languages_loop]; [reflexivity|].
  cbv zeta. rewrite Hraw. cbn [negb]. exact IH.
Qed.

(** X17: on lines of plain characters, a section extractor returns
    nothing unless some line holds one of its header keywords
    (case-insensitively): no experience, project, education,
    certification or language entry is reported for lines that never
    name the section. *)
Theorem section_extractors_need_a_header :
  forall lines : list str,
    all_plain lines = true ->
    (no_header experienceKeywords lines -> extractExperience lines = [])
    /\ (no_header projectKeywords lines -> extractProjects lines = [])
    /\ (no_header educationKeywords lines -> extractEducation lines = [])
    /\ (no_header certKeywords lines -> extractCertifications lines = [])
    /\ (Forall (fun line => some_in languageKeywords (toLowerCase line) = false) lines ->
        extractLanguages lines = []).
Proof.
  intros lines _. repeat split; intros H.
  - unfold extractExperience. cbv zeta.
    rewrite (experience_loop_outside lines _ H). reflexivity.
  - unfold extractProjects. cbv zeta.
    rewrite (projects_loop_outside lines _ H). reflexivity.
  - unfold extractEducation. rewrite (education_loop_outside lines _ _ H). reflexivity.
  - unfold extractCertifications. apply (certifications_loop_outside lines [] H).
  - unfold extractLanguages. rewrite (languages_loop_outside lines [] H). reflexivity.
Qed.

Lemma section_extractors_need_a_header_witness :
  all_plain (split_lines sevenLines) = true
  /\ no_header projectKeywords (split_lines sevenLines)
  /\ extractProjects (split_lines sevenLines) = [].
Proof.
  assert (P : all_plain (split_lines sevenLines) = true) by (vm_compute; reflexivity).
  split; [exact P|].
  assert (H : no_header projectKeywords (split_lines sevenLines)).
  { unfold no_header. apply Forall_forall. intros line Hl.
    assert (F : forallb (fun l => negb (some_in projectKeywords (toLowerCase (trim l))))
                        (split_lines sevenLines) = true) by (vm_compute; reflexivity).
    rewrite forallb_forall in F. apply negb_true_iff. now apply F. }
  split; [exact H|].
  exact (proj1 (proj2 (section_extractors_need_a_header (split_lines sevenLines) P)) H).
Defined.

End HeaderFacts.

(* ================================================================= *)
(** ** Company lines and job-title lines *)

Section ClassifierFacts.
Import JS Regex PdfParser Scenarios.

(** X18: the two line classifiers of [extractExperience] never both
    accept a line: a company line holds no job keyword and a job-title
    line always holds one; and neither accepts a line that starts with a
    bullet marker. *)
Theorem company_and_job_title_exclude_each_other :
  forall (line : str) (nextLine : option str),
    (isCompanyName line nextLine = true -> isJobTitle line nextLine = false)
    /\ (isCompanyName line nextLine = true -> test jobKeywordPattern line = false)
    /\ (isJobTitle line nextLine = true -> test jobKeywordPattern line = true)
    /\ (starts_with_bullet line = true ->
        isCompanyName line nextLine = false /\ isJobTitle line nextLine = false).
Proof.
  intros line nextLine.
  assert (Hc : isCompanyName line nextLine = true ->
               test jobKeywordPattern line = false
               /\ starts_with_bullet line = false).
  { unfold isCompanyName.
    destruct (negb (truthy line) || Nat.ltb (List.length line) 3); [discriminate|].
    cbv zeta. intros H.
    repeat (apply andb_true_iff in H as [H ?]).
    repeat match goal with
           | H : negb _ = true |- _ => apply negb_true_iff in H
           end.
    split; assumption. }
  assert (Hj : isJobTitle line nextLine = true ->
               test jobKeywordPattern line = true
               /\ isCompanyName line nextLine = false
               /\ starts_with_bullet line = false).
  { unfold isJobTitle.
    destruct (negb (truthy line) || Nat.ltb (List.length line) 5); [discriminate|].
    cbv zeta. intros H.
    repeat (apply andb_true_iff in H as [H ?]).
    repeat match goal with
           | H : negb _ = true |- _ => apply negb_true_iff in H
           end.
    repeat split; assumption. }
  repeat split.
  - intros H. destruct (isJobTitle line nextLine) eqn:E; [|reflexivity].
    destruct (Hj eq_refl) as (_ & Hn & _). congruence.
  - intros H. now apply Hc.
  - intros H. now apply Hj.
  - destruct (isCompanyName line nextLine) eqn:E; [|reflexivity].
    destruct (Hc eq_refl) as [_ Hb]. congruence.
  - destruct (isJobTitle line nextLine) eqn:E; [|reflexivity].
    destruct (Hj eq_refl) as (_ & _ & Hb). congruence.
Qed.

End ClassifierFacts.

(* ================================================================= *)
(** ** Items of a bracketed list in free text *)

Section ArrayTextFacts.
Import JS Regex Performance.

Lemma split_from_class (p : N -> bool) (n fuel : nat) (s cur_rev : str) :
  (List.length s < fuel)%nat ->
  forallb (fun c => negb (p c)) cur_rev = true ->
  Forall (fun piece => forallb (fun c => negb (p c)) piece = true)
         (split_from fuel n (Cls p) cur_rev s).
Proof.
  revert s cur_rev; induction fuel as [|f IH]; intros s cur_rev Hf Hcur; [lia|].
  assert (Hrev : forallb (fun c => negb (p c)) (rev cur_rev) = true).
  { apply forallb_forall. intros x Hx. apply in_rev in Hx.
    rewrite forallb_forall in Hcur. now apply Hcur. }
  destruct s as [|c s]; cbn [split_from].
  - constructor; [exact Hrev | constructor].
  - cbn [exec_at run]. destruct (p c) eqn:Ep.
    + replace (Nat.eqb (List.length s) (List.length (c :: s))) with false
        by (symmetry; apply Nat.eqb_neq; simpl; lia).
      cbn [andb]. constructor; [exact Hrev|].
      apply IH; [simpl in Hf; lia | reflexivity].
    + apply IH; [simpl in Hf; lia|].
      cbn [forallb]. now rewrite Ep, Hcur.
Qed.

Lemma split_class (p : N -> bool) (s : str) :
  Forall (fun piece => forallb (fun c => negb (p c)) piece = true)
         (split (Cls p) s).
Proof.
  unfold split. destruct s as [|c s].
  - cbn [exec_at run]. constructor; [reflexivity | constructor].
  - apply split_from_class; [simpl; lia | reflexivity].
Qed.

(** X19: every item that [extractArrayFromText] returns is non-empty,
    has no white space at either end, and holds no comma, line feed,
    double quote or square bracket. *)
Theorem extractArrayFromText_items_are_clean :
  forall arrayText : str,
    Forall (fun item =>
              item <> []
              /\ trim item = item
              /\ forall c, In c item ->
                           c <> 44 /\ c <> 10 /\ c <> 34 /\ c <> 91 /\ c <> 93)
           (extractArrayFromText arrayText).
Proof.
  intros arrayText. unfold extractArrayFromText. cbv zeta.
  apply Forall_forall. intros item Hitem.
  apply filter_In in Hitem as [Hin Hne].
  apply in_map_iff in Hin as (line & <- & Hline).
  split; [|split].
  - destruct (trim _); [discriminate | discriminate].
  - apply trim_trim.
  - intros c Hc. apply trim_In in Hc. rewrite replace_all_class in Hc.
    apply filter_In in Hc as [Hc Hq].
    pose proof (split_class is_item_separator arrayText) as Hs.
    rewrite Forall_forall in Hs. specialize (Hs line Hline).
    rewrite forallb_forall in Hs. specialize (Hs c Hc).
    unfold is_item_separator in Hs. unfold is_quote_or_bracket in Hq.
    apply negb_true_iff in Hs, Hq.
    apply orb_false_iff in Hs as [H44 H10].
    apply orb_false_iff in Hq as [Hq H93]. apply orb_false_iff in Hq as [H34 H91].
    apply N.eqb_neq in H44, H10, H34, H91, H93. repeat split; assumption.
Qed.

End ArrayTextFacts.

(* ================================================================= *)
(** ** Education *)

Section EducationFacts.
Import JS PdfParser.

Lemma classify_education_ok (line : str) (cur : Education) (acc : list Education) :
  (forall i, institution cur = Some i -> is_institution_line i = true) ->
  Forall education_entry_ok acc ->
  (forall i, institution (fst (classify_education line cur acc)) = Some i ->
             is_institution_line i = true)
  /\ Forall education_entry_ok (snd (classify_education line cur acc)).
Proof.
  intros Hcur Hacc. unfold classify_education.
  destruct (is_institution_line line) eqn:Ei.
  - cbn [fst snd institution]. split.
    + intros i H. injection H as <-. exact Ei.
    + destruct (education_has_keys cur) eqn:Ek; [|exact Hacc].
      apply Forall_app. split; [exact Hacc|]. constructor; [|constructor].
      split; assumption.
  - destruct (is_degree_line line).
    + destruct (truthy_opt (degree cur)) eqn:Ed; cbn [fst snd institution].
      * split; [discriminate|].
        apply Forall_app. split; [exact Hacc|]. constructor; [|constructor].
        split; [|exact Hcur].
        unfold education_has_keys. destruct (degree cur); [reflexivity | discriminate].
      * split; assumption.
    + destruct (is_year_line line).
      * destruct (truthy_opt (year cur)); cbn [fst snd institution]; split; assumption.
      * destruct (truthy_opt (institution cur) && negb (truthy_opt (degree cur)));
          cbn [fst snd institution]; split; assumption.
Qed.

Lemma education_loop_ok (lines : list str) (inSec : bool) (cur : Education)
      (acc : list Education) :
  (forall i, institution cur = Some i -> is_institution_line i = true) ->
  Forall education_entry_ok acc ->
  (forall i, institution (fst (education_loop inSec cur acc lines)) = Some i ->
             is_institution_line i = true)
  /\ Forall education_entry_ok (snd (education_loop inSec cur acc lines)).
Proof.
  revert inSec cur acc; induction lines as [|raw rest IH]; intros inSec cur acc Hcur Hacc;
    cbn [education_loop]; [now split|]. cbv zeta.
  destruct (some_in educationKeywords (toLowerCase (trim raw))); [now apply IH|].
  destruct (negb inSec); [now apply IH|].
  destruct (includes (toLowerCase (trim raw)) (lit "experience")
            || includes (toLowerCase (trim raw)) (lit "projects")
            || includes (toLowerCase (trim raw)) (lit "skills")
            || includes (toLowerCase (trim raw)) (lit "certifications")).
  - destruct (education_has_keys cur) eqn:Ek; cbn [fst snd]; [|now split].
    split; [discriminate|].
    apply Forall_app. split; [exact Hacc|]. constructor; [|constructor]. now split.
  - destruct (Nat.ltb 5 (List.length (trim raw))); [|now apply IH].
    pose proof (classify_education_ok (trim raw) cur acc Hcur Hacc) as [H1 H2].
    destruct (classify_education (trim raw) cur acc) as [cur' acc'].
    now apply IH.
Qed.

(** X20: no education entry that [extractEducation] returns is empty
    (each has a degree, an institution or a year), and an institution is
    always a line that holds one of the words College, University,
    Institute, School, Academy or Foundation. *)
Theorem extractEducation_entries :
  forall lines : list str,
    Forall (fun e =>
              (degree e <> None \/ institution e <> None \/ year e <> None)
              /\ forall i, institution e = Some i ->
                           includes i (lit "College") || includes i (lit "University")
                           || includes i (lit "Institute") || includes i (lit "School")
                           || includes i (lit "Academy") || includes i (lit "Foundation")
                           = true)
           (extractEducation lines).
Proof.
  intros lines. unfold extractEducation.
  pose proof (education_loop_ok lines false emptyEducation []) as H.
  destruct (education_loop false emptyEducation [] lines) as [cur acc].
  destruct H as [Hcur Hacc]; [discriminate | constructor |]. cbn [fst snd] in *.
  assert (Hall : Forall education_entry_ok
                        (if education_has_keys cur then acc ++ [cur] else acc)).
  { destruct (education_has_keys cur) eqn:Ek; [|exact Hacc].
    apply Forall_app. split; [exact Hacc|]. constructor; [|constructor]. now split. }
  eapply Forall_impl; [|exact Hall].
  intros e [Hk Hi]. split; [|exact Hi].
  unfold education_has_keys, is_some in Hk.
  destruct (degree e); [left; discriminate|].
  destruct (institution e); [right; left; discriminate|].
  destruct (year e); [right; right; discriminate | discriminate].
Qed.

End EducationFacts.

(* ================================================================= *)
(** ** The prompt for the generative backend *)

Section PromptFacts.
Import JS PdfParser.

Lemma startsWith_refl_app (x b : str) : startsWith (x ++ b) x = true.
Proof.
  induction x as [|c x IH]; cbn [app startsWith]; [destruct b; reflexivity|].
  now rewrite N.eqb_refl, IH.
Qed.

Lemma startsWith_app_l (a b x : str) :
  startsWith a x = true -> startsWith (a ++ b) x = true.
Proof.
  revert a; induction x as [|c x IH]; intros a H.
  - destruct (a ++ b); reflexivity.
  - destruct a as [|d a]; [discriminate|]. cbn [app startsWith] in *.
    apply andb_true_iff in H as [H1 H2]. now rewrite H1, (IH a H2).
Qed.

Lemma includes_app_l (a b x : str) :
  includes a x = true -> includes (a ++ b) x = true.
Proof.
  induction a as [|c a IH]; intros H.
  - cbn [includes] in H. rewrite orb_false_r in H.
    destruct x as [|d x]; [|discriminate].
    destruct ([] ++ b); reflexivity.
  - cbn [includes app] in *. apply orb_true_iff in H as [H | H].
    + change (c :: a ++ b) with ((c :: a) ++ b).
      now rewrite (startsWith_app_l (c :: a) b x H).
    + rewrite (IH H). apply orb_true_r.
Qed.

Lemma includes_app_r (a b x : str) :
  includes b x = true -> includes (a ++ b) x = true.
Proof.
  intros H. induction a as [|c a IH]; [exact H|].
  cbn [includes app]. rewrite IH. apply orb_true_r.
Qed.

Lemma includes_self (x : str) : includes x x = true.
Proof.
  pose proof (startsWith_refl_app x []) as H. rewrite app_nil_r in H.
  destruct x; cbn [includes]; now rewrite H.
Qed.

Lemma join_includes (sep : str) (l : list str) (x : str) :
  In x l -> includes (join sep l) x = true.
Proof.
  induction l as [|y l IH]; [contradiction|].
  intros [-> | Hin].
  - destruct l as [|z l]; cbn [join]; [apply includes_self|].
    apply includes_app_l, includes_self.
  - destruct l as [|z l]; [contradiction|].
    change (join sep (y :: z :: l)) with (y ++ sep ++ join sep (z :: l)).
    apply includes_app_r, includes_app_r. now apply IH.
Qed.

(** X21: the prompt always opens with the sentence that names the job
    title and the company and closes with the fixed instructions; it
    therefore contains the title and the company, and it contains every
    skill of the resume when a resume is given. *)
Theorem createInterviewPrompt_mentions :
  forall (resumeContent : option ParsedResume) (jobDetails : Questions.JobDetails),
    (exists middle,
        Questions.createInterviewPrompt resumeContent jobDetails
        = Questions.promptHead jobDetails ++ middle ++ Questions.promptTail)
    /\ includes (Questions.createInterviewPrompt resumeContent jobDetails)
                (Questions.jd_title jobDetails) = true
    /\ includes (Questions.createInterviewPrompt resumeContent jobDetails)
                (Questions.jd_company jobDetails) = true
    /\ (forall r skill,
          resumeContent = Some r -> In skill (skills r) ->
          includes (Questions.createInterviewPrompt resumeContent jobDetails) skill
          = true).
Proof.
  intros resume jd.
  assert (Hframe : exists middle,
             Questions.createInterviewPrompt resume jd
             = Questions.promptHead jd ++ middle ++ Questions.promptTail).
  { unfold Questions.createInterviewPrompt. cbv zeta.
    exists ((if truthy (Questions.jd_description jd)
             then lit " Job description: " ++ Questions.jd_description jd ++ lit "."
             else [])
            ++ (if truthy (Questions.jd_requirements jd)
                then lit " Job requirements: " ++ Questions.jd_requirements jd ++ lit "."
                else [])
            ++ (match resume with
                | Some r => Questions.resumePart r
                | None => []
                end)).
    generalize (Questions.promptHead jd) Questions.promptTail.
    generalize (lit " Job description: " ++ Questions.jd_description jd ++ lit ".").
    generalize (lit " Job requirements: " ++ Questions.jd_requirements jd ++ lit ".").
    intros R D H T.
    destruct (truthy (Questions.jd_description jd)),
             (truthy (Questions.jd_requirements jd)), resume as [r|];
      rewrite <- ?app_assoc; cbn [app]; rewrite ?app_nil_r; reflexivity. }
  split; [exact Hframe|]. destruct Hframe as [middle E]. split; [|split].
  - rewrite E. apply includes_app_l. unfold Questions.promptHead.
    apply includes_app_r, includes_app_l, includes_self.
  - rewrite E. apply includes_app_l. unfold Questions.promptHead.
    do 3 apply includes_app_r. apply includes_app_l, includes_self.
  - intros r skill -> Hin.
    unfold Questions.createInterviewPrompt. cbv zeta.
    apply includes_app_l. apply includes_app_r.
    unfold Questions.resumePart. cbv zeta.
    assert (Hlen : Nat.ltb 0 (List.length (skills r)) = true)
      by (destruct (skills r); [contradiction | reflexivity]).
    rewrite Hlen.
    assert (Hs : includes (lit " Based on the candidate's resume information:"
                           ++ lit " Skills: " ++ join (lit ", ") (skills r) ++ lit ".")
                          skill = true).
    { do 2 apply includes_app_r. apply includes_app_l. now apply join_includes. }
    revert Hs. generalize (lit " Based on the candidate's resume information:"
                           ++ lit " Skills: " ++ join (lit ", ") (skills r) ++ lit ".").
    intros base Hs.
    destruct (Nat.ltb 0 (List.length (experience r)));
      destruct (Nat.ltb 0 (List.length (projects r)));
      destruct (Nat.ltb 0 (List.length (education r)));
      repeat apply includes_app_l; exact Hs.
Qed.

Lemma createInterviewPrompt_mentions_witness :
  In (lit "React") [lit "Python"; lit "React"]
  /\ includes (Questions.createInterviewPrompt
                 (Some {| personalInfo := emptyPersonalInfo;
                          skills := [lit "Python"; lit "React"];
                          experience := []; projects := []; education := [];
                          certifications := []; languages := [] |})
                 Scenarios.softwareEngineerJob) (lit "React") = true.
Proof.
  split; [right; left; reflexivity|].
  apply (proj2 (proj2 (proj2 (createInterviewPrompt_mentions
           (Some {| personalInfo := emptyPersonalInfo;
                    skills := [lit "Python"; lit "React"];
                    experience := []; projects := []; education := [];
                    certifications := []; languages := [] |})
           Scenarios.softwareEngineerJob)))
         {| personalInfo := emptyPersonalInfo;
            skills := [lit "Python"; lit "React"];
            experience := []; projects := []; education := [];
            certifications := []; languages := [] |} (lit "React") eq_refl).
  right; left; reflexivity.
Defined.

End PromptFacts.

(* ================================================================= *)
(** ** Experience *)

Section ExperienceFacts.
Import JS Regex PdfParser.

Lemma length_set_nth {A} (i : nat) (x : A) (l : list A) :
  List.length (set_nth i x l) = List.length l.
Proof.
  revert i; induction l as [|y l IH]; intros [|i]; cbn [set_nth List.length];
    try reflexivity. now rewrite IH.
Qed.

Lemma nth_set_nth_same {A} (i : nat) (x d : A) (l : list A) :
  (i < List.length l)%nat -> nth i (set_nth i x l) d = x.
Proof.
  revert i; induction l as [|y l IH]; intros [|i] H; cbn in *; try lia;
    [reflexivity|]. apply IH. lia.
Qed.

Lemma nth_set_nth_other {A} (i j : nat) (x d : A) (l : list A) :
  i <> j -> nth j (set_nth i x l) d = nth j l d.
Proof.
  revert i j; induction l as [|y l IH]; intros [|i] [|j] H; cbn; try reflexivity;
    try congruence. apply IH. congruence.
Qed.

Lemma cur_assign (f : Job -> Job) (st : ExpState) :
  (currentJob st < List.length (heap st))%nat -> cur (assign f st) = f (cur st).
Proof. intros H. unfold cur, assign. cbn. now apply nth_set_nth_same. Qed.

Lemma assign_invariant (f : Job -> Job) (st : ExpState) :
  experience_invariant st ->
  (forall j, job_ok j -> job_ok (f j)) ->
  current_ok (f (cur st)) ->
  experience_invariant (assign f st).
Proof.
  intros (Hc & Hrefs & Hcur) Hf Hnew. unfold experience_invariant.
  rewrite (cur_assign f st Hc).
  change (heap (assign f st)) with (set_nth (currentJob st) (f (cur st)) (heap st)).
  change (currentJob (assign f st)) with (currentJob st).
  change (experience_refs (assign f st)) with (experience_refs st).
  rewrite length_set_nth. split; [exact Hc|]. split; [|exact Hnew].
  eapply Forall_impl; [|exact Hrefs]. intros r [Hr Hok]. split; [exact Hr|].
  destruct (Nat.eq_dec (currentJob st) r) as [<- | Hne].
  - rewrite nth_set_nth_same by exact Hc. apply Hf. exact Hok.
  - rewrite nth_set_nth_other by exact Hne. exact Hok.
Qed.

Lemma fresh_invariant (j : Job) (st : ExpState) :
  experience_invariant st -> current_ok j -> experience_invariant (fresh j st).
Proof.
  intros (Hc & Hrefs & Hcur) Hj. unfold experience_invariant, cur, fresh.
  cbn [heap currentJob experience_refs]. rewrite length_app. cbn [List.length].
  split; [lia|]. split.
  - eapply Forall_impl; [|exact Hrefs]. intros r [Hr Hok]. split; [lia|].
    now rewrite app_nth1.
  - rewrite app_nth2, Nat.sub_diag by lia. exact Hj.
Qed.

Lemma set_jobDescription_invariant (d : list str) (st : ExpState) :
  experience_invariant st -> experience_invariant (set_jobDescription d st).
Proof. intros H. exact H. Qed.

Lemma described_invariant (d : str) (st : ExpState) :
  experience_invariant st ->
  job_has_keys (cur st) = true ->
  experience_invariant (assign (describe d) st)
  /\ job_ok (cur (assign (describe d) st)).
Proof.
  intros Hinv Hkeys. pose proof Hinv as (Hc & _ & Hcur).
  assert (Hjob : job_ok (describe d (cur st))).
  { split; [exact (Hcur Hkeys) | reflexivity]. }
  split.
  - apply assign_invariant; [exact Hinv | |].
    + intros j [H1 _]. split; [exact H1 | reflexivity].
    + intros _. exact (Hcur Hkeys).
  - rewrite cur_assign by exact Hc. exact Hjob.
Qed.

Lemma push_current_invariant (st : ExpState) (processed : list str) :
  experience_invariant st -> job_ok (cur st) ->
  experience_invariant {| heap := heap st; currentJob := currentJob st;
                          jobDescription := jobDescription st;
                          processedJobs := processed;
                          experience_refs := experience_refs st ++ [currentJob st] |}.
Proof.
  intros (Hc & Hrefs & Hcur) Hok. unfold experience_invariant, cur.
  cbn [heap currentJob experience_refs]. split; [exact Hc|]. split; [|exact Hcur].
  apply Forall_app. split; [exact Hrefs|]. constructor; [|constructor].
  split; [exact Hc | exact Hok].
Qed.

Lemma flush_invariant (st : ExpState) :
  experience_invariant st -> job_has_keys (cur st) = true ->
  experience_invariant (flush st).
Proof.
  intros Hinv Hkeys. unfold flush. cbv zeta.
  destruct (described_invariant (join (lit " ") (jobDescription st)) st Hinv Hkeys)
    as [H1 H2].
  fold (describe (join (lit " ") (jobDescription st))).
  change (fun j : Job =>
            {| title := title j; company := company j; duration := duration j;
               description := Some (join (lit " ") (jobDescription st)) |})
    with (describe (join (lit " ") (jobDescription st))).
  destruct (mem _ _); [exact H1|].
  now apply push_current_invariant.
Qed.

Lemma maybe_flush_experience (st : ExpState) :
  experience_invariant st ->
  experience_invariant (if job_has_keys (cur st) then flush st else st).
Proof.
  intros H. destruct (job_has_keys (cur st)) eqn:E;
    [now apply flush_invariant | exact H].
Qed.

Lemma titled_invariant (t : str) (st : ExpState) :
  experience_invariant st ->
  experience_invariant (assign (set_title t) st)
  /\ is_some (title (cur (assign (set_title t) st))) = true.
Proof.
  intros Hinv. pose proof Hinv as (Hc & _ & _). split.
  - apply assign_invariant; [exact Hinv | |].
    + intros j [_ H2]. split; [left; reflexivity | exact H2].
    + intros _. left. reflexivity.
  - rewrite cur_assign by exact Hc. reflexivity.
Qed.

Lemma dated_invariant (d : str) (st : ExpState) :
  experience_invariant st -> is_some (title (cur st)) = true ->
  experience_invariant (assign (set_duration d) st).
Proof.
  intros Hinv Ht. apply assign_invariant; [exact Hinv | |].
  - intros j [H1 H2]. split; [exact H1 | exact H2].
  - intros _. left. exact Ht.
Qed.

Lemma experience_loop_invariant (lines : list str) (inSec : bool) (st : ExpState) :
  experience_invariant st -> experience_invariant (experience_loop inSec st lines).
Proof.
  revert inSec st; induction lines as [|raw rest IH]; intros inSec st H;
    cbn [experience_loop]; [exact H|]. cbv zeta.
  destruct (some_in experienceKeywords (toLowerCase (trim raw))); [now apply IH|].
  destruct (negb inSec); [now apply IH|].
  destruct (includes (toLowerCase (trim raw)) (lit "education")
            || includes (toLowerCase (trim raw)) (lit "projects")
            || includes (toLowerCase (trim raw)) (lit "skills"));
    [now apply maybe_flush_experience|].
  destruct (isCompanyName (trim raw) _).
  - apply IH. apply set_jobDescription_invariant. apply fresh_invariant.
    + now apply maybe_flush_experience.
    + intros _. right. reflexivity.
  - destruct (isJobTitle (trim raw) _).
    + apply IH.
      assert (H' : experience_invariant
                     (if truthy_opt (title (cur st)) && truthy_opt (company (cur st))
                      then set_jobDescription [] (flush st) else st)).
      { destruct (truthy_opt (title (cur st)) && truthy_opt (company (cur st))) eqn:E;
          [|exact H].
        apply set_jobDescription_invariant, flush_invariant; [exact H|].
        apply andb_true_iff in E as [E _]. unfold job_has_keys.
        destruct (title (cur st)); [reflexivity | discriminate]. }
      revert H'. generalize (if truthy_opt (title (cur st)) && truthy_opt (company (cur st))
                             then set_jobDescription [] (flush st) else st).
      intros st' H'.
      destruct (Nat.leb 2 (List.length (split_unit 9 (trim raw)))).
      * destruct (titled_invariant (trim (nth_str 0 (split_unit 9 (trim raw)))) st' H')
          as [H1 H2].
        now apply dated_invariant.
      * destruct (titled_invariant (cleanJobTitle (trim raw)) st' H') as [H1 H2].
        destruct (match0 durationPattern (trim raw)); [now apply dated_invariant | exact H1].
    + destruct (starts_with_bullet (trim raw));
        [apply IH; now apply set_jobDescription_invariant|].
      destruct (Nat.ltb 20 (List.length (trim raw)) && truthy_opt (company (cur st)) && _ && _);
        apply IH; [now apply set_jobDescription_invariant | exact H].
Qed.

Lemma initial_experience_invariant :
  experience_invariant {| heap := [emptyJob]; currentJob := 0%nat; jobDescription := [];
                          processedJobs := []; experience_refs := [] |}.
Proof.
  split; [cbn; lia|]. split; [constructor|]. intros H. discriminate.
Qed.

(** X22: every job that [extractExperience] returns has its [title]
    property or its [company] property set, and its [description]
    property set: the empty object is never reported, also when the same
    job object is pushed more than once.  A property that is set may hold
    the empty string: under an experience header the line
    '2020 Developer' yields one job whose title and description are both
    the empty string and which has no company. *)
Theorem extractExperience_entries :
  (forall lines : list str,
     Forall (fun j => (title j <> None \/ company j <> None) /\ description j <> None)
            (extractExperience lines))
  /\ extractExperience Scenarios.datedTitle
     = [{| title := Some []; company := None; duration := None;
           description := Some [] |}].
Proof.
  split; [|vm_compute; reflexivity].
  intros lines. unfold extractExperience. cbv zeta.
  pose proof (experience_loop_invariant lines false _ initial_experience_invariant)
    as Hinv.
  set (st := experience_loop false _ lines) in *.
  assert (Hfinal : exists st', experience_invariant st'
            /\ (if job_has_keys (cur st)
                then
                  if mem (jobKey (cur (assign (describe (join (lit " ") (jobDescription st))) st)))
                         (processedJobs (assign (describe (join (lit " ") (jobDescription st))) st))
                  then assign (describe (join (lit " ") (jobDescription st))) st
                  else {| heap := heap (assign (describe (join (lit " ") (jobDescription st))) st);
                          currentJob := currentJob (assign (describe (join (lit " ") (jobDescription st))) st);
                          jobDescription := jobDescription (assign (describe (join (lit " ") (jobDescription st))) st);
                          processedJobs := processedJobs (assign (describe (join (lit " ") (jobDescription st))) st);
                          experience_refs :=
                            experience_refs (assign (describe (join (lit " ") (jobDescription st))) st)
                            ++ [currentJob (assign (describe (join (lit " ") (jobDescription st))) st)] |}
                else st) = st').
  { eexists. split; [|reflexivity].
    destruct (job_has_keys (cur st)) eqn:E; [|exact Hinv].
    destruct (described_invariant (join (lit " ") (jobDescription st)) st Hinv E)
      as [H1 H2].
    destruct (mem _ _); [exact H1|]. now apply push_current_invariant. }
  destruct Hfinal as (st' & (Hc & Hrefs & _) & E).
  unfold describe in E. rewrite E.
  apply Forall_forall. intros j Hj. apply in_map_iff in Hj as (r & <- & Hr).
  rewrite Forall_forall in Hrefs. destruct (Hrefs r Hr) as [_ [Htc Hd]].
  unfold is_some in *. split.
  - destruct Htc as [Ht | Hco]; [left | right];
      [destruct (title _) | destruct (company _)]; discriminate.
  - destruct (description _); discriminate.
Qed.

End ExperienceFacts.

(* ================================================================= *)
(** ** Certifications *)

Section CertificationFacts.
Import JS PdfParser.

Lemma certifications_loop_clean (lines : list str) (inSec : bool) (acc : list str) :
  Forall (fun c => c <> [] /\ trim c = c) acc ->
  Forall (fun c => c <> [] /\ trim c = c) (certifications_loop inSec acc lines).
Proof.
  revert inSec acc; induction lines as [|raw rest IH]; intros inSec acc H;
    cbn [certifications_loop]; [exact H|]. cbv zeta.
  destruct (some_in certKeywords (toLowerCase (trim raw))
            && negb (starts_with_bullet (trim raw))); [now apply IH|].
  destruct (negb inSec); [now apply IH|].
  destruct (includes (toLowerCase (trim raw)) (lit "education")
            || includes (toLowerCase (trim raw)) (lit "experience")
            || includes (toLowerCase (trim raw)) (lit "skills")
            || includes (toLowerCase (trim raw)) (lit "projects")
            || includes (toLowerCase (trim raw)) (lit "languages")); [exact H|].
  destruct (Nat.ltb 5 (List.length (trim raw))) eqn:E5; [|now apply IH].
  destruct (starts_with_bullet (trim raw)).
  - destruct (Nat.ltb 0 (List.length (trim (strip_bullet (trim raw))))) eqn:E0;
      [|now apply IH].
    apply IH. apply Forall_app. split; [exact H|]. constructor; [|constructor].
    split; [|apply trim_trim].
    destruct (trim (strip_bullet (trim raw))); [discriminate | discriminate].
  - destruct (looks_like_certification (trim raw)); [|now apply IH].
    apply IH. apply Forall_app. split; [exact H|]. constructor; [|constructor].
    split; [|apply trim_trim].
    destruct (trim raw); [discriminate | discriminate].
Qed.

(** X23: every certification that [extractCertifications] returns is a
    non-empty string without white space at either end. *)
Theorem extractCertifications_entries_are_clean :
  forall lines : list str,
    Forall (fun c => c <> [] /\ trim c = c) (extractCertifications lines).
Proof.
  intros lines. unfold extractCertifications.
  apply certifications_loop_clean. constructor.
Qed.

End CertificationFacts.
